(** * printy: the DSL-to-OpenSCAD compiler, [Model/dsl_v04_to_scad.py]
      and its predecessor [Model/dsl_v03_fixed.py]

    A shallow embedding of the parser ([parse]) and of the emitter
    ([_emit_primitive_scad], [_emit_use_scad], [_emit_nodes],
    [module_scad], [to_scad]) together with the properties of the
    specification that concern them.

    Conventions of the embedding.
    - A Python [str] is a [string]; the alphabet is ASCII (code points
      below 128), on which [str.upper], [str.isspace] and the regular
      expression classes [\s], [\d] and [[A-Za-z0-9_]] are the ones
      written out below.
    - A Python exception that leaves a function is a [Raise] result.
      The limits of the interpreter (recursion depth, memory) are not
      part of the embedding: no result stands for [RecursionError].
    - Python floats are reached only through the interface [FloatOps]
      (conversion from text, [repr], comparison, addition); general
      theorems hold for every implementation of it, and closed examples
      are evaluated with the decimal implementation [DecFloat].
    - A [dict] that is only read with [get] is a [gmap]; the symbol table
      [Model.parts], whose insertion order drives emission, is an
      association list with unique keys. *)

From Stdlib Require Import ZArith NArith Ascii String List DecimalString Lia.
From stdpp Require Import base option list gmap strings.

Local Open Scope string_scope.
#[local] Set Warnings "-clear-no-such-hyp".

(** ** Results of code that may raise *)

Inductive exn : Type :=
| IndexError
| KeyError (key : string).

Inductive res (A : Type) : Type :=
| Ok (a : A)
| Raise (e : exn)
| OutOfFuel.

Arguments Ok {A} a.
Arguments Raise {A} e.
Arguments OutOfFuel {A}.

Definition rbind {A B : Type} (r : res A) (k : A -> res B) : res B :=
  match r with
  | Ok a => k a
  | Raise e => Raise e
  | OutOfFuel => OutOfFuel
  end.

Notation "x <-- r ; k" := (rbind r (fun x => k))
  (at level 20, r at level 100, k at level 200, only parsing).

Definition is_Ok {A : Type} (r : res A) : Prop := exists a, r = Ok a.

(** ** Python string primitives *)

Module PyStr.

Definition code (c : ascii) : N := N_of_ascii c.

Definition in_range (lo hi : N) (c : ascii) : bool :=
  ((lo <=? code c) && (code c <=? hi))%N.

(** [str.isspace] on one ASCII character, which is also the class [\s]:
    TAB, LF, VT, FF, CR, FS, GS, RS, US and the space. *)
Definition is_space (c : ascii) : bool :=
  in_range 9 13 c || in_range 28 32 c.

(** The line boundaries of [str.splitlines]: LF, VT, FF, CR, FS, GS, RS. *)
Definition is_linebreak (c : ascii) : bool :=
  in_range 10 13 c || in_range 28 30 c.

Definition is_digit (c : ascii) : bool := in_range 48 57 c.
Definition is_upper (c : ascii) : bool := in_range 65 90 c.
Definition is_lower (c : ascii) : bool := in_range 97 122 c.
Definition is_alpha (c : ascii) : bool := is_upper c || is_lower c.

(** The class [[A-Za-z0-9_]]. *)
Definition is_word (c : ascii) : bool :=
  is_alpha c || is_digit c || Ascii.eqb c "_".

Definition upper_char (c : ascii) : ascii :=
  if is_lower c then ascii_of_N (code c - 32) else c.
Definition lower_char (c : ascii) : ascii :=
  if is_upper c then ascii_of_N (code c + 32) else c.

Fixpoint map_chars (f : ascii -> ascii) (s : string) : string :=
  match s with
  | EmptyString => EmptyString
  | String c s' => String (f c) (map_chars f s')
  end.

Definition upper : string -> string := map_chars upper_char.
Definition lower : string -> string := map_chars lower_char.

Definition is_empty (s : string) : bool :=
  match s with EmptyString => true | _ => false end.

Fixpoint lstrip (s : string) : string :=
  match s with
  | String c s' => if is_space c then lstrip s' else s
  | EmptyString => EmptyString
  end.

Fixpoint rstrip (s : string) : string :=
  match s with
  | EmptyString => EmptyString
  | String c s' =>
      let r := rstrip s' in
      if is_empty r && is_space c then EmptyString else String c r
  end.

Definition strip (s : string) : string := rstrip (lstrip s).

(** [s.rstrip(chars)] for a one-character [chars]. *)
Fixpoint rstrip_char (x : ascii) (s : string) : string :=
  match s with
  | EmptyString => EmptyString
  | String c s' =>
      let r := rstrip_char x s' in
      if is_empty r && Ascii.eqb c x then EmptyString else String c r
  end.

(** [s.startswith(p)]. *)
Fixpoint startswith (p s : string) : bool :=
  match p, s with
  | EmptyString, _ => true
  | String a p', String b s' => Ascii.eqb a b && startswith p' s'
  | String _ _, EmptyString => false
  end.

Fixpoint last_char (s : string) : option ascii :=
  match s with
  | EmptyString => None
  | String c EmptyString => Some c
  | String _ s' => last_char s'
  end.

(** [s.endswith(x)] for a one-character [x]. *)
Definition endswith_char (x : ascii) (s : string) : bool :=
  match last_char s with
  | Some c => Ascii.eqb c x
  | None => false
  end.

Definition snoc (s : string) (c : ascii) : string := s ++ String c EmptyString.

(** [str.splitlines()]: [pending_cr] remembers that the previous character
    was a CR, so that CR LF counts as one boundary. *)
Fixpoint splitlines_go (pending_cr : bool) (acc : string) (s : string)
  : list string :=
  match s with
  | EmptyString => if is_empty acc then [] else [acc]
  | String c s' =>
      if pending_cr && Ascii.eqb c "010" then splitlines_go false acc s'
      else if is_linebreak c
           then acc :: splitlines_go (Ascii.eqb c "013") EmptyString s'
           else splitlines_go false (snoc acc c) s'
  end.

Definition splitlines (s : string) : list string :=
  splitlines_go false EmptyString s.

(** [str.split()]: maximal runs of non-space characters. *)
Fixpoint split_go (acc : string) (s : string) : list string :=
  match s with
  | EmptyString => if is_empty acc then [] else [acc]
  | String c s' =>
      if is_space c
      then (if is_empty acc then split_go EmptyString s'
            else acc :: split_go EmptyString s')
      else split_go (snoc acc c) s'
  end.

Definition split (s : string) : list string := split_go EmptyString s.

(** [str.split(None, 1)]: the first token and, when something follows the
    white space after it, the untouched remainder. *)
Fixpoint split1_go (acc : string) (s : string) : list string :=
  match s with
  | EmptyString => if is_empty acc then [] else [acc]
  | String c s' =>
      if is_space c
      then (if is_empty acc then split1_go EmptyString s'
            else let rest := lstrip s' in
                 if is_empty rest then [acc] else [acc; rest])
      else split1_go (snoc acc c) s'
  end.

Definition split1 (s : string) : list string := split1_go EmptyString s.

(** [t.split("=", 1)] when ["=" in t]: the text before and after the first
    equals sign; [None] when [t] has none. *)
Fixpoint split_eq (t : string) : option (string * string) :=
  match t with
  | EmptyString => None
  | String c t' =>
      if Ascii.eqb c "=" then Some (EmptyString, t')
      else match split_eq t' with
           | Some (k, v) => Some (String c k, v)
           | None => None
           end
  end.

(** [sep.join(l)]. *)
Fixpoint join (sep : string) (l : list string) : string :=
  match l with
  | [] => EmptyString
  | [x] => x
  | x :: l' => x ++ sep ++ join sep l'
  end.

(** [x in s] for strings: [x] occurs in [s]. *)
Fixpoint contains (x s : string) : bool :=
  startswith x s ||
  match s with
  | EmptyString => false
  | String _ s' => contains x s'
  end.

(** [str(n)] for an [int]. *)
Definition str_of_Z (n : Z) : string := NilZero.string_of_int (Z.to_int n).

End PyStr.

(** ** The regular expressions of the source, one matcher each

    Every pattern below is deterministic: each greedy piece is followed by
    a character class disjoint from its own, so the backtracking matcher of
    [re] finds a match exactly when the maximal-run matcher does, and the
    same one. *)

Module Re.
Import PyStr.

(** The longest prefix of [s] whose characters satisfy [p], and the rest. *)
Fixpoint span (p : ascii -> bool) (s : string) : string * string :=
  match s with
  | EmptyString => (EmptyString, EmptyString)
  | String c s' =>
      if p c then let '(a, r) := span p s' in (String c a, r)
      else (EmptyString, s)
  end.

(** [\d*\.?\d+] at the start of [s]: digits, a dot and digits when the dot
    is followed by a digit; otherwise the digits alone, at least one. *)
Definition match_unsigned (s : string) : option (string * string) :=
  let '(d1, r1) := span is_digit s in
  let plain := if is_empty d1 then None else Some (d1, r1) in
  match r1 with
  | String "." r2 =>
      let '(d2, r3) := span is_digit r2 in
      if is_empty d2 then plain else Some (d1 ++ "." ++ d2, r3)
  | _ => plain
  end.

(** [[-+]?\d*\.?\d+] at the start of [s]; when the sign is taken and the
    rest fails, the pattern is retried without the sign. *)
Definition match_number (s : string) : option (string * string) :=
  match s with
  | String c s' =>
      if Ascii.eqb c "-" || Ascii.eqb c "+"
      then match match_unsigned s' with
           | Some (m, r) => Some (String c m, r)
           | None => match_unsigned s
           end
      else match_unsigned s
  | EmptyString => None
  end.

(** [re.findall(r"[-+]?\d*\.?\d+", s)]: scan from the left; [skip] counts
    the characters of the last match still to step over. *)
Fixpoint findall_go (skip : nat) (s : string) : list string :=
  match s with
  | EmptyString => []
  | String _ s' =>
      match skip with
      | S k => findall_go k s'
      | O => match match_number s with
             | Some (m, _) => m :: findall_go (String.length m - 1) s'
             | None => findall_go 0 s'
             end
      end
  end.

Definition findall_numbers (s : string) : list string := findall_go 0 s.

(** [re.sub(r"[^A-Za-z0-9_]", "_", s)]. *)
Definition sub_nonword (s : string) : string :=
  map_chars (fun c => if is_word c then c else "_"%char) s.

(** [re.match(r"[A-Za-z_]", s)] as a truth value. *)
Definition match_ident_start (s : string) : bool :=
  match s with
  | String c _ => is_alpha c || Ascii.eqb c "_"
  | EmptyString => false
  end.

Definition nonempty_span (p : ascii -> bool) (s : string)
  : option (string * string) :=
  let '(a, r) := span p s in if is_empty a then None else Some (a, r).

(** The literal [AS] under [re.I]. *)
Definition match_AS (s : string) : option string :=
  match s with
  | String a (String b r) =>
      if Ascii.eqb (upper_char a) "A" && Ascii.eqb (upper_char b) "S"
      then Some r else None
  | _ => None
  end.

(** [re.match(r"\s*([A-Za-z0-9_]+)\s+([A-Za-z0-9_]+)\s+AS\s+([A-Za-z0-9_]+)",
    rest, flags=re.I)]: the three groups. *)
Definition match_boolean_decl (rest : string)
  : option (string * string * string) :=
  let '(_, s0) := span is_space rest in
  match nonempty_span is_word s0 with
  | None => None
  | Some (a, s1) =>
  match nonempty_span is_space s1 with
  | None => None
  | Some (_, s2) =>
  match nonempty_span is_word s2 with
  | None => None
  | Some (b, s3) =>
  match nonempty_span is_space s3 with
  | None => None
  | Some (_, s4) =>
  match match_AS s4 with
  | None => None
  | Some s5 =>
  match nonempty_span is_space s5 with
  | None => None
  | Some (_, s6) =>
  match nonempty_span is_word s6 with
  | None => None
  | Some (c, _) => Some (a, b, c)
  end end end end end end end.

End Re.

(** ** Python floats, as far as the compiler uses them *)

Class FloatOps (float : Type) : Type := {
  (** [float(s)] for a [str]; [None] is [ValueError]. *)
  float_of_str : string -> option float;
  (** [float(n)] for an [int], also the value of a literal such as [140.0]. *)
  float_of_int : Z -> float;
  (** [repr(x)], which [str] and f-strings use. *)
  float_repr : float -> string;
  (** [x == y]. *)
  float_eqb : float -> float -> bool;
  (** [x + y]. *)
  float_add : float -> float -> float;
}.

(** ** Values held by parameter dictionaries and transform fields *)

Section Values.
Context {float : Type} {FO : FloatOps float}.
Import PyStr.

Inductive num : Type :=
| NInt (n : Z)
| NFloat (x : float).

Inductive pyval : Type :=
| VNum (n : num)
| VStr (s : string)
| VTup (a b c : num).

Definition num_str (n : num) : string :=
  match n with
  | NInt z => str_of_Z z
  | NFloat x => float_repr x
  end.

(** [str(v)], the text an f-string field [{v}] produces. *)
Definition py_str (v : pyval) : string :=
  match v with
  | VNum n => num_str n
  | VStr s => s
  | VTup a b c => "(" ++ num_str a ++ ", " ++ num_str b ++ ", " ++ num_str c ++ ")"
  end.

(** [str(v)] for an optional value; [None] prints as [None]. *)
Definition py_str_opt (v : option pyval) : string :=
  match v with
  | Some v => py_str v
  | None => "None"
  end.

Definition num_float (n : num) : float :=
  match n with
  | NInt z => float_of_int z
  | NFloat x => x
  end.

(** [float(v)]; [None] stands for the [ValueError] or [TypeError]. *)
Definition py_float (v : pyval) : option float :=
  match v with
  | VNum n => Some (num_float n)
  | VStr s => float_of_str s
  | VTup _ _ _ => None
  end.

(** [x == 0] for a float. *)
Definition float_is_zero (x : float) : bool := float_eqb x (float_of_int 0).

Definition int_zero3 : pyval := VTup (NInt 0) (NInt 0) (NInt 0).

End Values.

(** ** [Model/dsl_v04_to_scad.py] *)

Module V04.
Import PyStr.

Section Compiler.
Context {float : Type} {FO : FloatOps float}.
Local Abbreviation pyval := (@pyval float).
Local Abbreviation num := (@num float).

(** *** Helpers *)

Definition float_zero : float := float_of_int 0.

(** The first attempt of [_safe_vec3]: [x, y, z = v] followed by three
    [float] conversions.  A tuple unpacks; so does a [str] of exactly three
    characters, into its characters; anything else raises, and so does a
    failing conversion. *)
Definition unpack_vec3 (v : pyval) : option (float * float * float) :=
  match v with
  | VTup a b c => Some (num_float a, num_float b, num_float c)
  | VStr (String x (String y (String z EmptyString))) =>
      match float_of_str (String x EmptyString),
            float_of_str (String y EmptyString),
            float_of_str (String z EmptyString) with
      | Some a, Some b, Some c => Some (a, b, c)
      | _, _, _ => None
      end
  | _ => None
  end.

(** The second attempt of [_safe_vec3]: the first three numerals found in
    [str(v)]. *)
Definition scan_vec3 (v : pyval) : option (float * float * float) :=
  match Re.findall_numbers (py_str v) with
  | n0 :: n1 :: n2 :: _ =>
      match float_of_str n0, float_of_str n1, float_of_str n2 with
      | Some a, Some b, Some c => Some (a, b, c)
      | _, _, _ => None
      end
  | _ => None
  end.

Definition _safe_vec3 (v : pyval) : float * float * float :=
  match unpack_vec3 v with
  | Some r => r
  | None =>
      match scan_vec3 v with
      | Some r => r
      | None => (float_zero, float_zero, float_zero)
      end
  end.

Definition vec3_val (r : float * float * float) : pyval :=
  let '(a, b, c) := r in VTup (NFloat a) (NFloat b) (NFloat c).

(** The value [_params] stores for the text [v] after the equals sign. *)
Definition param_value (v : string) : pyval :=
  if startswith "(" v || startswith "[" v
  then vec3_val (_safe_vec3 (VStr v))
  else match float_of_str v with
       | Some x => VNum (NFloat x)
       | None => VStr v
       end.

Definition params_step (out : gmap string pyval) (t : string)
  : gmap string pyval :=
  match split_eq t with
  | Some (k, v) => <[k := param_value (strip v)]> out
  | None => out
  end.

Definition _params (tokens : list string) : gmap string pyval :=
  fold_left params_step tokens ∅.

Definition _sanitize (name : string) : string :=
  let name := Re.sub_nonword (strip name) in
  if Re.match_ident_start name then name else "p_" ++ name.

Definition vec3_str (r : float * float * float) : string :=
  let '(x, y, z) := r in
  "[" ++ float_repr x ++ "," ++ float_repr y ++ "," ++ float_repr z ++ "]".

Definition _pos_str (v : pyval) : string := vec3_str (_safe_vec3 v).

(** *** AST *)

Record Prim : Type := MkPrim {
  prim_kind : string;
  prim_params : gmap string pyval;
}.

(** [Prim.__init__]. *)
Definition new_Prim (kind : string) (params : gmap string pyval) : Prim :=
  MkPrim (upper kind) params.

Record Use : Type := MkUse {
  use_name : string;
  use_translate : pyval;
  use_rotate : pyval;
  use_scale : option pyval;
}.

(** [Use.__init__]. *)
Definition new_Use (name : string) (translate rotate : pyval)
    (scale : option pyval) : Use :=
  MkUse (_sanitize name) translate rotate scale.

(** [Use(name)], all transforms at their defaults. *)
Definition default_Use (name : string) : Use :=
  new_Use name int_zero3 int_zero3 None.

Inductive Node : Type :=
| NPrim (p : Prim)
| NUse (u : Use)
| NExtrude (height : float) (child2d : Prim)
| NBoolean (op : string) (left right : Use)
| NMultiUnion (names : list string).

(** [MultiUnion.__init__]. *)
Definition new_MultiUnion (names : list string) : Node :=
  NMultiUnion (map _sanitize names).

Record Part : Type := MkPart {
  part_name : string;
  part_nodes : list Node;
  part_is_boolean : bool;
}.

(** [Part.__init__] with [is_boolean] left at [False]. *)
Definition new_Part (name : string) : Part :=
  MkPart (_sanitize name) [] false.

Record Instance : Type := MkInstance {
  inst_target : string;
  inst_translate : pyval;
  inst_rotate : pyval;
  inst_scale : option pyval;
  inst_label : string;
}.

(** [Instance.__init__]: [label or target] falls back to the target when
    the label is empty. *)
Definition new_Instance (target : string) (translate rotate : pyval)
    (scale : option pyval) (label : string) : Instance :=
  MkInstance (_sanitize target) translate rotate scale
             (if is_empty label then target else label).

Record Model : Type := MkModel {
  parts : list (string * Part);
  instances : list Instance;
}.

Definition empty_Model : Model := MkModel [] [].

(** [model.parts.get(key)]; [model.parts[key]] raises [KeyError] on [None]. *)
Fixpoint assoc_get (key : string) (l : list (string * Part)) : option Part :=
  match l with
  | [] => None
  | (k, p) :: l' => if String.eqb k key then Some p else assoc_get key l'
  end.

(** [model.parts[key] = p] on an existing key: the entry keeps its place. *)
Fixpoint assoc_set (key : string) (p : Part) (l : list (string * Part))
  : list (string * Part) :=
  match l with
  | [] => [(key, p)]
  | (k, q) :: l' =>
      if String.eqb k key then (k, p) :: l' else (k, q) :: assoc_set key p l'
  end.

Definition part_keys (m : Model) : list string := map fst (parts m).

(** [Model.get_or_create]: the model afterwards and the key of the part
    returned; the part object itself is [parts m] at that key. *)
Definition get_or_create (m : Model) (name : string) : Model * string :=
  let key := _sanitize name in
  match assoc_get key (parts m) with
  | Some _ => (m, key)
  | None => (MkModel (parts m ++ [(key, new_Part key)]) (instances m), key)
  end.

(** *** Emit *)

Definition _chamfer_wrap (obj_scad : string) (chamfer : option float)
  : string :=
  match chamfer with
  | None => obj_scad
  | Some c =>
      if float_is_zero c then obj_scad
      else "minkowski() { " ++ obj_scad ++ " cylinder(r=" ++ float_repr c
           ++ ", h=0.01, center=true); }"
  end.

(** [str(prm.get(key, dflt))]. *)
Definition get_str (prm : gmap string pyval) (key : string) (dflt : pyval)
  : string :=
  py_str (default dflt (prm !! key)).

Definition int_val (n : Z) : pyval := VNum (NInt n).

(** The chamfer of [_emit_primitive_scad]: absent, or present and not
    convertible by [float], gives [None]. *)
Definition prim_chamfer (prm : gmap string pyval) : option float :=
  match prm !! "chamfer" with
  | Some c => py_float c
  | None => None
  end.

Definition _emit_primitive_scad (p : Prim) : string :=
  let k := prim_kind p in
  let prm := prim_params p in
  let chamfer := prim_chamfer prm in
  let pos := _pos_str (default int_zero3 (prm !! "position")) in
  if String.eqb k "CUBE" then
    let w := get_str prm "width" (int_val 10) in
    let d := get_str prm "depth" (int_val 10) in
    let h := get_str prm "height" (int_val 10) in
    let base := "translate(" ++ pos ++ ") cube([" ++ w ++ "," ++ d ++ ","
                ++ h ++ "], center=true);" in
    _chamfer_wrap base chamfer
  else if String.eqb k "CYLINDER" then
    let r := get_str prm "radius" (int_val 5) in
    let h := get_str prm "height" (int_val 10) in
    let base := "translate(" ++ pos ++ ") cylinder(r=" ++ r ++ ", h=" ++ h
                ++ ", center=true);" in
    _chamfer_wrap base chamfer
  else if String.eqb k "SPHERE" then
    let r := get_str prm "radius" (int_val 5) in
    "translate(" ++ pos ++ ") sphere(r=" ++ r ++ ");"
  else if String.eqb k "ROD" then
    let r := get_str prm "radius" (int_val 3) in
    let len := get_str prm "length" (int_val 30) in
    let orient := lower (get_str prm "orientation" (VStr "z")) in
    let body := "cylinder(r=" ++ r ++ ", h=" ++ len ++ ", center=true);" in
    let body := if String.eqb orient "x" then "rotate([0,90,0]) " ++ body
                else if String.eqb orient "y" then "rotate([90,0,0]) " ++ body
                else body in
    "translate(" ++ pos ++ ") " ++ body
  else if String.eqb k "TORUS" then
    let R := get_str prm "major_radius" (int_val 20) in
    let r := get_str prm "minor_radius" (int_val 5) in
    let body := "rotate_extrude() translate([" ++ R ++ ",0,0]) circle(r="
                ++ r ++ ");" in
    "translate(" ++ pos ++ ") " ++ body
  else if String.eqb k "CIRCLE" then
    let r := get_str prm "radius" (int_val 10) in
    let '(x, y, _) := _safe_vec3 (default int_zero3 (prm !! "position")) in
    "translate([" ++ float_repr x ++ "," ++ float_repr y ++ "]) circle(r="
    ++ r ++ ");"
  else "// Unknown primitive " ++ k ++ ";".

(** [s if s.strip().endswith(";") else s + ";"]. *)
Definition ensure_semicolon (s : string) : string :=
  if endswith_char ";" (strip s) then s else s ++ ";".

Definition vec3_is_zero (r : float * float * float) : bool :=
  let '(x, y, z) := r in
  float_is_zero x && float_is_zero y && float_is_zero z.

Definition scale_wrap (scale : option pyval) (call : string) : string :=
  match scale with
  | Some s =>
      "scale([" ++ py_str s ++ "," ++ py_str s ++ "," ++ py_str s ++ "]) "
      ++ call
  | None => call
  end.

Definition rotate_wrap (rotate : pyval) (call : string) : string :=
  let r := _safe_vec3 rotate in
  if vec3_is_zero r then call else "rotate(" ++ vec3_str r ++ ") " ++ call.

(** The transform block of [_emit_use_scad] (the lines after the comment
    [# Apply transforms], up to the appended semicolon). *)
Definition use_transforms (u : Use) (call : string) : string :=
  let call := scale_wrap (use_scale u) call in
  let call := rotate_wrap (use_rotate u) call in
  let call := "translate(" ++ _pos_str (use_translate u) ++ ") " ++ call in
  ensure_semicolon call.

Definition ref_call (name : string) : string := name ++ "();".

Definition cycle_marker (name : string) : string :=
  "// Cycle detected: " ++ name.

(** The emitters thread the one mutable [visited] set: each returns the
    text and the set as it leaves it. *)
Definition emitted : Type := string * gset string.

Section Nodes.
(** [_emit_nodes], given the [_emit_use_scad] it calls. *)
Variable emit_use : Use -> bool -> gset string -> res emitted.

(** The list comprehension of the [MultiUnion] branch. *)
Fixpoint emit_names (names : list string) (visited : gset string)
  : res (list string * gset string) :=
  match names with
  | [] => Ok ([], visited)
  | name :: names' =>
      r <-- emit_use (default_Use name) true visited;
      rs <-- emit_names names' (snd r);
      Ok (fst r :: fst rs, snd rs)
  end.

Definition emit_node (n : Node) (inline : bool) (visited : gset string)
  : res emitted :=
  match n with
  | NPrim p => Ok (ensure_semicolon (_emit_primitive_scad p), visited)
  | NUse u => emit_use u inline visited
  | NExtrude h child =>
      Ok ("linear_extrude(height=" ++ float_repr h ++ ") { "
          ++ _emit_primitive_scad child ++ " };", visited)
  | NBoolean op l r =>
      a <-- emit_use l true visited;
      b <-- emit_use r true (snd a);
      Ok (op ++ "() { " ++ fst a ++ " " ++ fst b ++ " }", snd b)
  | NMultiUnion names =>
      rs <-- emit_names names visited;
      Ok ("union() {" ++ "
  " ++ join "
  " (fst rs) ++ "
}", snd rs)
  end.

Fixpoint emit_node_list (nodes : list Node) (inline : bool)
    (visited : gset string) : res (list string * gset string) :=
  match nodes with
  | [] => Ok ([], visited)
  | n :: nodes' =>
      r <-- emit_node n inline visited;
      rs <-- emit_node_list nodes' inline (snd r);
      Ok (fst r :: fst rs, snd rs)
  end.

Definition emit_nodes_with (nodes : list Node) (inline : bool)
    (visited : gset string) : res emitted :=
  rs <-- emit_node_list nodes inline visited;
  Ok (join "
  " (fst rs), snd rs).

End Nodes.

(** [_emit_use_scad]; one unit of [fuel] per nested call.  [fuel_ok] below
    shows that the number of parts plus one is always enough. *)
Fixpoint _emit_use_scad (fuel : nat) (model : Model) (u : Use)
    (inline : bool) (visited : gset string) {struct fuel} : res emitted :=
  match fuel with
  | O => OutOfFuel
  | S fuel' =>
      if decide (use_name u ∈ visited)
      then Ok (cycle_marker (use_name u), visited)
      else
        let visited := visited ∪ {[use_name u]} in
        r <-- (if inline
               then match assoc_get (use_name u) (parts model) with
                    | None => Raise (KeyError (use_name u))
                    | Some p =>
                        r <-- emit_nodes_with (_emit_use_scad fuel' model)
                                (part_nodes p) true visited;
                        Ok (if is_empty (strip (fst r))
                            then ref_call (use_name u) else fst r, snd r)
                    end
               else Ok (ref_call (use_name u), visited));
        Ok (use_transforms u (fst r), snd r ∖ {[use_name u]})
  end.

Definition _emit_nodes (fuel : nat) (model : Model) (nodes : list Node)
    (inline : bool) (visited : gset string) : res emitted :=
  emit_nodes_with (_emit_use_scad fuel model) nodes inline visited.

(** Fuel that always suffices for [model]. *)
Definition enough_fuel (model : Model) : nat := S (length (parts model)).

Definition module_scad (model : Model) (part : Part) : res string :=
  let inline := part_is_boolean part in
  r <-- _emit_nodes (enough_fuel model) model (part_nodes part) inline ∅;
  Ok ("module " ++ part_name part ++ "() {" ++ "
  " ++ fst r ++ "
}
").

(** The first loop of [to_scad]. *)
Fixpoint emit_modules (model : Model) (names : list string)
  : res (list string) :=
  match names with
  | [] => Ok []
  | name :: names' =>
      match assoc_get name (parts model) with
      | None => Raise (KeyError name)
      | Some p =>
          piece <-- module_scad model p;
          rest <-- emit_modules model names';
          Ok (piece :: rest)
      end
  end.

(** One round of the assembly loop of [to_scad]: the two pieces appended
    for the instance numbered [idx] at layout offset [x]. *)
Definition instance_call (inst : Instance) : string :=
  rotate_wrap (inst_rotate inst)
    (scale_wrap (inst_scale inst) (ref_call (inst_target inst))).

Definition instance_pieces (idx : Z) (x : float) (inst : Instance)
  : list string :=
  [ "  // Instance " ++ str_of_Z idx ++ ": " ++ inst_label inst;
    "  translate([" ++ float_repr x ++ ",0,0]) " ++ instance_call inst ].

Definition layout_step : float := float_of_int 140.

Fixpoint emit_instances (idx : Z) (x : float) (insts : list Instance)
  : list string :=
  match insts with
  | [] => []
  | inst :: insts' =>
      instance_pieces idx x inst
      ++ emit_instances (idx + 1) (float_add x layout_step) insts'
  end.

Definition to_scad (model : Model) : res string :=
  mods <-- emit_modules model (part_keys model);
  Ok (join "
" (["// Generated by DSL v0.4
$fn=72;
"] ++ mods ++ ["module assembly(){"]
       ++ emit_instances 1 float_zero (instances model)
       ++ ["}
assembly();"])).

(** *** Parser *)

(** The variables of [parse] that change from line to line.  [cur] holds a
    reference to a [Part] object owned by the model: it is the key of that
    part, and every write through [cur] is a write to the model's part. *)
Record PState : Type := MkPState {
  st_model : Model;
  st_cur : option string;
  st_pending_extrude : option float;
}.

Definition init_state : PState := MkPState empty_Model None None.

Definition end_part (st : PState) : PState :=
  MkPState (st_model st) None (st_pending_extrude st).

(** [cur.nodes.append(n)] for the part at [key]. *)
Definition append_node (m : Model) (key : string) (n : Node) : Model :=
  match assoc_get key (parts m) with
  | Some p =>
      MkModel (assoc_set key
                 (MkPart (part_name p) (part_nodes p ++ [n])
                         (part_is_boolean p))
                 (parts m))
              (instances m)
  | None => m
  end.

(** [m.instances.append(inst)]. *)
Definition append_instance (m : Model) (inst : Instance) : Model :=
  MkModel (parts m) (instances m ++ [inst]).

(** [p.is_boolean = True; p.nodes = [node]] for the part at [key]. *)
Definition set_boolean (m : Model) (key : string) (node : Node) : Model :=
  match assoc_get key (parts m) with
  | Some p =>
      MkModel (assoc_set key (MkPart (part_name p) [node] true) (parts m))
              (instances m)
  | None => m
  end.

Definition float_ten : float := float_of_int 10.

(** The height an [EXTRUDE] line leaves pending. *)
Definition extrude_height (prm : gmap string pyval) : float :=
  default float_ten (py_float (default (VNum (NFloat float_ten))
                                       (prm !! "height"))).

Definition boolean_op (head : string) : string :=
  if String.eqb head "UNION" then "union"
  else if String.eqb head "CUT" then "difference"
  else "intersection".

Definition head_in (head : string) (keywords : list string) : bool :=
  existsb (String.eqb head) keywords.

(** The body of the [while] loop of [parse] for the line [line], an element
    of [text.splitlines()]. *)
Definition parse_line (st : PState) (line : string) : res PState :=
  let raw := strip (rstrip line) in
  if is_empty raw || startswith "#" raw then Ok st
  else
    match split raw with
    | [] => Raise IndexError
    | tok0 :: args =>
        let head := upper tok0 in
        if head_in head ["PART"; "GROUP"] then
          let st := end_part st in
          match split1 raw with
          | _ :: rest :: _ =>
              let name := rstrip_char ":" (strip rest) in
              let '(m, key) := get_or_create (st_model st) name in
              Ok (MkPState m (Some key) (st_pending_extrude st))
          | _ => Raise IndexError
          end
        else if String.eqb head "USE" then
          let st := end_part st in
          match args with
          | [] => Raise IndexError
          | name :: ptoks =>
              let prm := _params ptoks in
              let pos := default int_zero3 (prm !! "position") in
              let rot := default int_zero3 (prm !! "rotate") in
              let scale := prm !! "scale" in
              match st_cur st with
              | Some key =>
                  Ok (MkPState
                        (append_node (st_model st) key
                           (NUse (new_Use name pos rot scale)))
                        (st_cur st) (st_pending_extrude st))
              | None =>
                  Ok (MkPState
                        (append_instance (st_model st)
                           (new_Instance name pos rot scale ("USE " ++ name)))
                        (st_cur st) (st_pending_extrude st))
              end
          end
        else if String.eqb head "MOVE" then
          let st := end_part st in
          match args with
          | [] => Raise IndexError
          | name :: ptoks =>
              let prm := _params ptoks in
              let by_ := default int_zero3 (prm !! "by") in
              Ok (MkPState
                    (append_instance (st_model st)
                       (new_Instance name by_ int_zero3 None
                                     ("MOVE " ++ name)))
                    (st_cur st) (st_pending_extrude st))
          end
        else if String.eqb head "ROTATE" then
          let st := end_part st in
          match args with
          | [] => Raise IndexError
          | name :: ptoks =>
              let prm := _params ptoks in
              let by_ := default int_zero3 (prm !! "by") in
              Ok (MkPState
                    (append_instance (st_model st)
                       (new_Instance name int_zero3 by_ None
                                     ("ROTATE " ++ name)))
                    (st_cur st) (st_pending_extrude st))
          end
        else if head_in head ["UNION"; "CUT"; "INTERSECT"] then
          match split1 raw with
          | _ :: rest :: _ =>
              match Re.match_boolean_decl rest with
              | Some (a, b, c) =>
                  let '(m, key) := get_or_create (st_model st) c in
                  Ok (MkPState
                        (set_boolean m key
                           (NBoolean (boolean_op head)
                                     (default_Use a) (default_Use b)))
                        (st_cur st) (st_pending_extrude st))
              | None => Ok st
              end
          | _ => Raise IndexError
          end
        else if String.eqb head "EXTRUDE" then
          let prm := _params args in
          Ok (MkPState (st_model st) (st_cur st) (Some (extrude_height prm)))
        else
          match st_cur st with
          | Some key =>
              let prim := new_Prim tok0 (_params args) in
              match st_pending_extrude st with
              | Some h =>
                  Ok (MkPState
                        (append_node (st_model st) key (NExtrude h prim))
                        (st_cur st) None)
              | None =>
                  Ok (MkPState
                        (append_node (st_model st) key (NPrim prim))
                        (st_cur st) (st_pending_extrude st))
              end
          | None => Ok st
          end
    end.

Fixpoint parse_lines (st : PState) (lines : list string) : res PState :=
  match lines with
  | [] => Ok st
  | line :: lines' =>
      st' <-- parse_line st line;
      parse_lines st' lines'
  end.

Definition parse (text : string) : res Model :=
  st <-- parse_lines init_state (splitlines text);
  Ok (st_model st).

(** [to_scad(parse(text))]. *)
Definition compile (text : string) : res string :=
  m <-- parse text;
  to_scad m.

End Compiler.
End V04.

(** ** [Model/dsl_v03_fixed.py]

    The predecessor keeps no AST: a part's body is a list of emitted
    lines. *)

Module V03.
Import PyStr.

Section Compiler.
Context {float : Type} {FO : FloatOps float}.
Local Abbreviation pyval := (@pyval float).
Local Abbreviation num := (@num float).

Definition float_zero : float := float_of_int 0.

(** [_vec3]: a tuple is returned as it is; otherwise the numerals of
    [str(v)] when there are exactly three.  Every match of the pattern is a
    float literal, so the three conversions cannot raise; an implementation
    of [float_of_str] that rejects one yields the zero vector here. *)
Definition _vec3 (v : pyval) : num * num * num :=
  let zero := (NFloat float_zero, NFloat float_zero, NFloat float_zero) in
  match v with
  | VTup a b c => (a, b, c)
  | _ =>
      match Re.findall_numbers (py_str v) with
      | [n0; n1; n2] =>
          match float_of_str n0, float_of_str n1, float_of_str n2 with
          | Some a, Some b, Some c => (NFloat a, NFloat b, NFloat c)
          | _, _, _ => zero
          end
      | _ => zero
      end
  end.

Definition vec3_val (r : num * num * num) : pyval :=
  let '(a, b, c) := r in VTup a b c.

Definition param_value (v : string) : pyval :=
  if startswith "(" v || startswith "[" v
  then vec3_val (_vec3 (VStr v))
  else match float_of_str v with
       | Some x => VNum (NFloat x)
       | None => VStr v
       end.

Definition params_step (out : gmap string pyval) (t : string)
  : gmap string pyval :=
  match split_eq t with
  | Some (k, v) => <[k := param_value (strip v)]> out
  | None => out
  end.

Definition _params (tokens : list string) : gmap string pyval :=
  fold_left params_step tokens ∅.

Definition _pos_str (v : pyval) : string :=
  let '(x, y, z) := _vec3 v in
  "[" ++ num_str x ++ "," ++ num_str y ++ "," ++ num_str z ++ "]".

Definition _rot_str (v : pyval) : string := _pos_str v.

Definition _sanitize (name : string) : string :=
  let name := Re.sub_nonword (strip name) in
  if Re.match_ident_start name then name else "p_" ++ name.

(** [n == 0] for a number. *)
Definition num_is_zero (n : num) : bool :=
  match n with
  | NInt z => (z =? 0)%Z
  | NFloat x => float_is_zero x
  end.

(** [v == 0]: a string or a tuple never equals a number. *)
Definition val_is_zero (v : pyval) : bool :=
  match v with
  | VNum n => num_is_zero n
  | _ => false
  end.

(** [v != (0,0,0)]. *)
Definition ne_zero3 (v : pyval) : bool :=
  match v with
  | VTup a b c => negb (num_is_zero a && num_is_zero b && num_is_zero c)
  | _ => true
  end.

(** *** Primitive emitters *)

Definition _chamfer_wrap (scad_obj : string) (chamfer : option pyval)
  : string :=
  match chamfer with
  | None => scad_obj
  | Some c =>
      if val_is_zero c then scad_obj
      else "minkowski(){ " ++ scad_obj ++ " cylinder(r=" ++ py_str c
           ++ ", h=0.01, center=true); }"
  end.

Definition get_str (prm : gmap string pyval) (key : string) (dflt : pyval)
  : string :=
  py_str (default dflt (prm !! key)).

Definition int_val (n : Z) : pyval := VNum (NInt n).

Definition _emit_primitive (kind : string) (params : gmap string pyval)
  : string :=
  let k := upper kind in
  let chamfer := params !! "chamfer" in
  let pos := _pos_str (default int_zero3 (params !! "position")) in
  if String.eqb k "CUBE" then
    let w := get_str params "width" (int_val 10) in
    let d := get_str params "depth" (int_val 10) in
    let h := get_str params "height" (int_val 10) in
    let base := "translate(" ++ pos ++ ") cube([" ++ w ++ "," ++ d ++ ","
                ++ h ++ "], center=true);" in
    _chamfer_wrap base chamfer
  else if String.eqb k "CYLINDER" then
    let r := get_str params "radius" (int_val 5) in
    let h := get_str params "height" (int_val 10) in
    let base := "translate(" ++ pos ++ ") cylinder(r=" ++ r ++ ", h=" ++ h
                ++ ", center=true);" in
    _chamfer_wrap base chamfer
  else if String.eqb k "SPHERE" then
    let r := get_str params "radius" (int_val 5) in
    "translate(" ++ pos ++ ") sphere(r=" ++ r ++ ");"
  else if String.eqb k "ROD" then
    let r := get_str params "radius" (int_val 3) in
    let len := get_str params "length" (int_val 30) in
    let orient := lower (get_str params "orientation" (VStr "z")) in
    let body := "cylinder(r=" ++ r ++ ", h=" ++ len ++ ", center=true);" in
    let body := if String.eqb orient "x" then "rotate([0,90,0]) " ++ body
                else if String.eqb orient "y" then "rotate([90,0,0]) " ++ body
                else body in
    "translate(" ++ pos ++ ") " ++ body ++ ";"
  else if String.eqb k "TORUS" then
    let R := get_str params "major_radius" (int_val 20) in
    let r := get_str params "minor_radius" (int_val 5) in
    let body := "rotate_extrude() translate([" ++ R ++ ",0,0]) circle(r="
                ++ r ++ ");" in
    "translate(" ++ pos ++ ") " ++ body
  else if String.eqb k "CIRCLE" then
    let r := get_str params "radius" (int_val 10) in
    let '(x, y, _) := _vec3 (default int_zero3 (params !! "position")) in
    "translate([" ++ num_str x ++ "," ++ num_str y ++ "]) circle(r="
    ++ r ++ ");"
  else "// Unknown primitive " ++ kind.

(** *** Model *)

Record Part : Type := MkPart {
  part_name : string;
  part_body : list string;
}.

Definition new_Part (name : string) : Part := MkPart (_sanitize name) [].

(** [Part.module_scad]. *)
Definition module_scad (p : Part) : string :=
  "module " ++ part_name p ++ "() {" ++ "
  " ++ join "
  " (part_body p) ++ "
}
".

Record Instance : Type := MkInstance {
  inst_target : string;
  inst_translate : pyval;
  inst_rotate : pyval;
  inst_scale : option pyval;
  inst_label : string;
}.

Definition new_Instance (target : string) (translate rotate : pyval)
    (scale : option pyval) (label : string) : Instance :=
  MkInstance (_sanitize target) translate rotate scale
             (if is_empty label then target else label).

(** [Instance.call_scad]. *)
Definition call_scad (self : Instance) : string :=
  let call := inst_target self ++ "();" in
  let call := match inst_scale self with
              | Some s => "scale([" ++ py_str s ++ "," ++ py_str s ++ ","
                          ++ py_str s ++ "]) " ++ call
              | None => call
              end in
  let call := if ne_zero3 (inst_rotate self)
              then "rotate(" ++ _rot_str (inst_rotate self) ++ ") " ++ call
              else call in
  if ne_zero3 (inst_translate self)
  then "translate(" ++ _pos_str (inst_translate self) ++ ") " ++ call
  else call.

Record Model : Type := MkModel {
  parts : list (string * Part);
  instances : list Instance;
}.

Definition empty_Model : Model := MkModel [] [].

Fixpoint assoc_get (key : string) (l : list (string * Part)) : option Part :=
  match l with
  | [] => None
  | (k, p) :: l' => if String.eqb k key then Some p else assoc_get key l'
  end.

Fixpoint assoc_set (key : string) (p : Part) (l : list (string * Part))
  : list (string * Part) :=
  match l with
  | [] => [(key, p)]
  | (k, q) :: l' =>
      if String.eqb k key then (k, p) :: l' else (k, q) :: assoc_set key p l'
  end.

(** [Model.get_or_create_part]. *)
Definition get_or_create_part (m : Model) (name : string) : Model * string :=
  let key := _sanitize name in
  match assoc_get key (parts m) with
  | Some _ => (m, key)
  | None => (MkModel (parts m ++ [(key, new_Part key)]) (instances m), key)
  end.

(** *** Parser *)

Record PState : Type := MkPState {
  st_model : Model;
  st_cur : option string;
  st_pending_extrude : option pyval;
}.

Definition init_state : PState := MkPState empty_Model None None.

Definition end_part (st : PState) : PState :=
  MkPState (st_model st) None (st_pending_extrude st).

(** [cur.add_line(scad)] for the part at [key]. *)
Definition add_line (m : Model) (key : string) (scad : string) : Model :=
  match assoc_get key (parts m) with
  | Some p =>
      MkModel (assoc_set key (MkPart (part_name p) (part_body p ++ [scad]))
                 (parts m))
              (instances m)
  | None => m
  end.

(** [part.body = body] for the part at [key]. *)
Definition set_body (m : Model) (key : string) (body : list string) : Model :=
  match assoc_get key (parts m) with
  | Some p =>
      MkModel (assoc_set key (MkPart (part_name p) body) (parts m))
              (instances m)
  | None => m
  end.

Definition append_instance (m : Model) (inst : Instance) : Model :=
  MkModel (parts m) (instances m ++ [inst]).

Definition boolean_op (head : string) : string :=
  if String.eqb head "UNION" then "union"
  else if String.eqb head "CUT" then "difference"
  else "intersection".

Definition head_in (head : string) (keywords : list string) : bool :=
  existsb (String.eqb head) keywords.

(** The line a [USE] inside a part adds to the part. *)
Definition use_line (target : string) (pos rot : pyval)
    (scale : option pyval) : string :=
  "translate(" ++ _pos_str pos ++ ") rotate(" ++ _rot_str rot ++ ") "
  ++ match scale with
     | Some s => "scale([" ++ py_str s ++ "," ++ py_str s ++ ","
                 ++ py_str s ++ "]) "
     | None => ""
     end
  ++ _sanitize target ++ "();".

Definition parse_line (st : PState) (line : string) : res PState :=
  let raw := strip (rstrip line) in
  if is_empty raw || startswith "#" raw then Ok st
  else
    match split raw with
    | [] => Raise IndexError
    | tok0 :: args =>
        let head := upper tok0 in
        if head_in head ["PART"; "GROUP"] then
          let st := end_part st in
          match split1 raw with
          | _ :: rest :: _ =>
              let name := rstrip_char ":" (strip rest) in
              let '(m, key) := get_or_create_part (st_model st) name in
              Ok (MkPState m (Some key) (st_pending_extrude st))
          | _ => Raise IndexError
          end
        else if String.eqb head "USE" then
          match args with
          | [] => Raise IndexError
          | target :: ptoks =>
              let params := _params ptoks in
              let pos := default int_zero3 (params !! "position") in
              let rot := default int_zero3 (params !! "rotate") in
              let scale := params !! "scale" in
              match st_cur st with
              | Some key =>
                  Ok (MkPState
                        (add_line (st_model st) key
                           (use_line target pos rot scale))
                        (st_cur st) (st_pending_extrude st))
              | None =>
                  Ok (MkPState
                        (append_instance (st_model st)
                           (new_Instance target pos rot scale
                                         ("USE " ++ target)))
                        (st_cur st) (st_pending_extrude st))
              end
          end
        else if String.eqb head "MOVE" then
          match args with
          | [] => Raise IndexError
          | target :: ptoks =>
              let params := _params ptoks in
              let by_ := default int_zero3 (params !! "by") in
              Ok (MkPState
                    (append_instance (st_model st)
                       (new_Instance target by_ int_zero3 None
                                     ("MOVE " ++ target)))
                    (st_cur st) (st_pending_extrude st))
          end
        else if String.eqb head "ROTATE" then
          match args with
          | [] => Raise IndexError
          | target :: ptoks =>
              let params := _params ptoks in
              let by_ := default int_zero3 (params !! "by") in
              Ok (MkPState
                    (append_instance (st_model st)
                       (new_Instance target int_zero3 by_ None
                                     ("ROTATE " ++ target)))
                    (st_cur st) (st_pending_extrude st))
          end
        else if head_in head ["UNION"; "CUT"; "INTERSECT"] then
          match split1 raw with
          | _ :: rest :: _ =>
              match Re.match_boolean_decl rest with
              | Some (a, b, c) =>
                  let '(m, key) :=
                    get_or_create_part (st_model st) (_sanitize c) in
                  Ok (MkPState
                        (set_body m key
                           [boolean_op head ++ "() { " ++ _sanitize a
                            ++ "(); " ++ _sanitize b ++ "(); }"])
                        (st_cur st) (st_pending_extrude st))
              | None => Ok st
              end
          | _ => Raise IndexError
          end
        else if String.eqb head "EXTRUDE" then
          let params := _params args in
          Ok (MkPState (st_model st) (st_cur st)
                (Some (default (VNum (NFloat (float_of_int 10)))
                               (params !! "height"))))
        else
          match st_cur st with
          | Some key =>
              let scad := _emit_primitive tok0 (_params args) in
              match st_pending_extrude st with
              | Some h =>
                  Ok (MkPState
                        (add_line (st_model st) key
                           ("linear_extrude(height=" ++ py_str h ++ ") { "
                            ++ scad ++ " }"))
                        (st_cur st) None)
              | None =>
                  Ok (MkPState (add_line (st_model st) key scad)
                        (st_cur st) (st_pending_extrude st))
              end
          | None => Ok st
          end
    end.

Fixpoint parse_lines (st : PState) (lines : list string) : res PState :=
  match lines with
  | [] => Ok st
  | line :: lines' =>
      st' <-- parse_line st line;
      parse_lines st' lines'
  end.

Definition parse (text : string) : res Model :=
  st <-- parse_lines init_state (splitlines text);
  Ok (st_model st).

(** *** SCAD emission *)

Definition layout_step : float := float_of_int 120.

Definition instance_pieces (idx : Z) (x : float) (inst : Instance)
  : list string :=
  [ "  // Instance " ++ str_of_Z idx ++ ": " ++ inst_label inst;
    "  translate([" ++ float_repr x ++ ",0,0]) " ++ call_scad inst ].

Fixpoint emit_instances (idx : Z) (x : float) (insts : list Instance)
  : list string :=
  match insts with
  | [] => []
  | inst :: insts' =>
      instance_pieces idx x inst
      ++ emit_instances (idx + 1) (float_add x layout_step) insts'
  end.

(** The first loop of [to_scad]; [model.parts[name]] is found for every
    key the loop visits. *)
Definition emit_modules (model : Model) : list string :=
  omap (fun name => module_scad <$> assoc_get name (parts model))
       (map fst (parts model)).

Definition to_scad (model : Model) : string :=
  join "
" (["// Generated by DSL v0.3 (fixed)
$fn=72;
"] ++ emit_modules model ++ ["module assembly(){"]
     ++ emit_instances 1 float_zero (instances model)
     ++ ["}"; "assembly();"]).

Definition compile (text : string) : res string :=
  m <-- parse text;
  Ok (to_scad m).

End Compiler.
End V03.

(** ** A decimal implementation of [FloatOps]

    A float is a sign, a decimal mantissa without trailing zeros and a
    power of ten.  It reads the decimal literals of Python ([12], [-.5],
    [3.], [1e3]) and prints them the way [repr] does (always a fraction
    digit, exponent form outside [1e-4, 1e16)).  It agrees with binary64 on
    numerals of at most 15 significant digits and on sums of such integers;
    the spellings [inf], [nan] and digit-group underscores are not read. *)

Module DecFloat.
Import PyStr.

Record dec : Type := MkDec {
  dec_neg : bool;
  dec_man : N;
  dec_exp : Z;
}.

(** Strip the trailing zeros of the mantissa; [fuel] bounds the number of
    digits removed. *)
Fixpoint normalize_go (fuel : nat) (m : N) (e : Z) : N * Z :=
  match fuel with
  | O => (m, e)
  | S fuel' =>
      if (m =? 0)%N then (0%N, 0%Z)
      else if (m mod 10 =? 0)%N then normalize_go fuel' (m / 10)%N (e + 1)%Z
      else (m, e)
  end.

Definition normalize (neg : bool) (m : N) (e : Z) : dec :=
  let '(m', e') := normalize_go (S (N.to_nat (N.log2 m))) m e in
  MkDec neg m' e'.

Definition digits_N (ds : string) : option N :=
  match NilZero.uint_of_string ds with
  | Some u => Some (N.of_uint u)
  | None => None
  end.

Definition is_sign (c : ascii) : bool := Ascii.eqb c "-" || Ascii.eqb c "+".

Definition split_sign (s : string) : bool * string :=
  match s with
  | String c s' => if is_sign c then (Ascii.eqb c "-", s') else (false, s)
  | EmptyString => (false, s)
  end.

(** The exponent part: empty, or [e] or [E], an optional sign and digits. *)
Definition parse_exponent (s : string) : option Z :=
  match s with
  | EmptyString => Some 0%Z
  | String c s' =>
      if Ascii.eqb (upper_char c) "E" then
        let '(neg, ds) := split_sign s' in
        let '(d, r) := Re.span is_digit ds in
        if is_empty d || negb (is_empty r) then None
        else match digits_N d with
             | Some n => Some (if neg then - Z.of_N n else Z.of_N n)%Z
             | None => None
             end
      else None
  end.

Definition of_str (s : string) : option dec :=
  let '(neg, s1) := split_sign (strip s) in
  let '(ip, r1) := Re.span is_digit s1 in
  let '(fp, r2) := match r1 with
                   | String "." r => Re.span is_digit r
                   | _ => (EmptyString, r1)
                   end in
  if is_empty ip && is_empty fp then None
  else match digits_N (ip ++ fp), parse_exponent r2 with
       | Some m, Some e =>
           Some (normalize neg m (e - Z.of_nat (String.length fp)))
       | _, _ => None
       end.

Definition of_int (z : Z) : dec := normalize (z <? 0)%Z (Z.abs_N z) 0.

Definition N_str (n : N) : string := NilZero.string_of_uint (N.to_uint n).

Fixpoint zeros (n : nat) : string :=
  match n with
  | O => EmptyString
  | S n' => String "0" (zeros n')
  end.

Definition two_digits (n : N) : string :=
  if (n <? 10)%N then "0" ++ N_str n else N_str n.

Definition repr (x : dec) : string :=
  let sign := if dec_neg x then "-" else "" in
  if (dec_man x =? 0)%N then sign ++ "0.0"
  else
    let ds := N_str (dec_man x) in
    let k := Z.of_nat (String.length ds) in
    let decpt := (k + dec_exp x)%Z in
    if ((-4 <? decpt) && (decpt <=? 16))%Z then
      if (decpt <=? 0)%Z then sign ++ "0." ++ zeros (Z.to_nat (- decpt)) ++ ds
      else if (k <=? decpt)%Z
           then sign ++ ds ++ zeros (Z.to_nat (decpt - k)) ++ ".0"
           else sign ++ String.substring 0 (Z.to_nat decpt) ds ++ "."
                ++ String.substring (Z.to_nat decpt)
                     (String.length ds - Z.to_nat decpt) ds
    else
      let frac := String.substring 1 (String.length ds - 1) ds in
      sign ++ String.substring 0 1 ds
      ++ (if is_empty frac then "" else "." ++ frac)
      ++ "e" ++ (if (decpt - 1 <? 0)%Z then "-" else "+")
      ++ two_digits (Z.abs_N (decpt - 1)).

Definition eqb (x y : dec) : bool :=
  if (dec_man x =? 0)%N then (dec_man y =? 0)%N
  else Bool.eqb (dec_neg x) (dec_neg y)
       && (dec_man x =? dec_man y)%N && (dec_exp x =? dec_exp y)%Z.

Definition signed (x : dec) (e : Z) : Z :=
  let m := (Z.of_N (dec_man x) * 10 ^ (dec_exp x - e))%Z in
  if dec_neg x then (- m)%Z else m.

Definition add (x y : dec) : dec :=
  let e := Z.min (dec_exp x) (dec_exp y) in
  let s := (signed x e + signed y e)%Z in
  if (s =? 0)%Z then MkDec (dec_neg x && dec_neg y) 0 0
  else normalize (s <? 0)%Z (Z.abs_N s) e.

Definition ops : FloatOps dec := {|
  float_of_str := of_str;
  float_of_int := of_int;
  float_repr := repr;
  float_eqb := eqb;
  float_add := add;
|}.

End DecFloat.

(** * Properties *)

(** ** Strings *)

Module PyStrFacts.
Import PyStr.

Lemma append_cons (x : ascii) (a b : string) :
  String x a ++ b = String x (a ++ b).
Proof. reflexivity. Qed.

Lemma append_nil_l (a : string) : "" ++ a = a.
Proof. reflexivity. Qed.

Lemma append_assoc (a b c : string) : (a ++ b) ++ c = a ++ (b ++ c).
Proof.
  induction a as [|x a IH]; [reflexivity |].
  now rewrite !append_cons, IH.
Qed.

Lemma append_nil_r (a : string) : a ++ "" = a.
Proof.
  induction a as [|x a IH]; [reflexivity |]. now rewrite append_cons, IH.
Qed.

Lemma is_empty_true (s : string) : is_empty s = true -> s = "".
Proof. destruct s; [reflexivity | discriminate]. Qed.

Lemma lstrip_head (s : string) (c : ascii) (r : string) :
  lstrip s = String c r -> is_space c = false.
Proof.
  induction s as [|x s IH]; simpl; [discriminate |].
  destruct (is_space x) eqn:Hx; [exact IH |].
  intros [= -> _]. exact Hx.
Qed.

Lemma rstrip_head (c : ascii) (s : string) :
  rstrip (String c s) = "" \/ exists r, rstrip (String c s) = String c r.
Proof.
  simpl. destruct (is_empty (rstrip s) && is_space c); [left | right; eexists];
    reflexivity.
Qed.

(** A stripped string is empty or starts with a character that is not
    white space. *)
Lemma strip_head (s : string) :
  strip s = "" \/ exists c r, strip s = String c r /\ is_space c = false.
Proof.
  unfold strip. destruct (lstrip s) as [|c l] eqn:Hl; [left; reflexivity |].
  destruct (rstrip_head c l) as [-> | [r ->]]; [left; reflexivity |].
  right. exists c, r. split; [reflexivity | exact (lstrip_head _ _ _ Hl)].
Qed.

Lemma snoc_not_empty (acc : string) (c : ascii) : is_empty (snoc acc c) = false.
Proof. destruct acc; reflexivity. Qed.

Lemma split_go_prefix (s acc : string) :
  is_empty acc = false ->
  exists t rest, split_go acc s = (acc ++ t) :: rest.
Proof.
  revert acc. induction s as [|c s IH]; intros acc Hacc; simpl.
  - rewrite Hacc. exists "", []. now rewrite append_nil_r.
  - destruct (is_space c).
    + rewrite Hacc. exists "", (split_go "" s). now rewrite append_nil_r.
    + destruct (IH (snoc acc c) (snoc_not_empty acc c)) as (t & rest & ->).
      exists (String c t), rest. unfold snoc. now rewrite append_assoc.
Qed.

(** The first token of a string that starts with a non-space character
    starts with that character. *)
Lemma split_head (c : ascii) (s : string) :
  is_space c = false ->
  exists t rest, split (String c s) = String c t :: rest.
Proof.
  intros Hc. unfold split. simpl. rewrite Hc.
  destruct (split_go_prefix s (snoc "" c) eq_refl) as (t & rest & ->).
  now exists t, rest.
Qed.

(** What [parse] knows of a stripped line with a first token. *)
Lemma stripped_line_head (x tok : string) (args : list string) :
  split (strip x) = tok :: args ->
  exists c r t, strip x = String c r /\ tok = String c t.
Proof.
  intros Hs. destruct (strip_head x) as [E | (c & r & E & Hc)].
  - rewrite E in Hs. discriminate.
  - destruct (split_head c r Hc) as (t & rest & Ht).
    rewrite E, Ht in Hs. injection Hs as <- _. now exists c, r, t.
Qed.

Lemma snoc_cons (s : string) (c : ascii) :
  exists x r, s ++ String c "" = String x r.
Proof. destruct s as [|x s]; [now exists c, "" | now exists x, (s ++ String c "")]. Qed.

Lemma last_char_snoc (s : string) (c : ascii) : last_char (s ++ String c "") = Some c.
Proof.
  induction s as [|x s IH]; [reflexivity |].
  rewrite append_cons. destruct (snoc_cons s c) as (y & r & E).
  rewrite E in IH |- *. exact IH.
Qed.

Lemma rstrip_snoc (s : string) (c : ascii) :
  is_space c = false -> rstrip (s ++ String c "") = s ++ String c "".
Proof.
  intros Hc. induction s as [|x s IH].
  - simpl. now rewrite Hc.
  - rewrite append_cons. simpl. rewrite IH.
    destruct (snoc_cons s c) as (y & r & ->). reflexivity.
Qed.

Lemma lstrip_snoc (s : string) (c : ascii) :
  is_space c = false -> exists s', lstrip (s ++ String c "") = s' ++ String c "".
Proof.
  intros Hc. induction s as [|x s IH].
  - simpl. rewrite Hc. now exists "".
  - rewrite append_cons. simpl. destruct (is_space x); [exact IH |].
    now exists (String x s).
Qed.

(** Text that ends with a semicolon is left as it is. *)
Lemma ensure_semicolon_id (s : string) :
  V04.ensure_semicolon (s ++ ";") = s ++ ";".
Proof.
  unfold V04.ensure_semicolon, endswith_char, strip.
  destruct (lstrip_snoc s ";" eq_refl) as [s' ->].
  rewrite rstrip_snoc by reflexivity. now rewrite last_char_snoc.
Qed.

End PyStrFacts.

(** ** The emitter of v0.4: termination and the [visited] discipline *)

Module V04Facts.
Import PyStr V04.

Section Emitter.
Context {float : Type} {FO : FloatOps float}.
Local Abbreviation Model := (@Model float).
Local Abbreviation Part := (@Part float).
Local Abbreviation Node := (@Node float).
Local Abbreviation Use := (@Use float).

Definition keys (m : Model) : gset string := list_to_set (part_keys m).

(** The declared parts that are not being expanded: the recursion measure. *)
Definition unvisited (m : Model) (v : gset string) : nat := size (keys m ∖ v).

(** A call has returned or raised, and a returning call has left the
    [visited] set as it found it. *)
Definition settles {A : Type} (r : res (A * gset string)) (v : gset string)
  : Prop :=
  match r with
  | Ok (_, v') => v' = v
  | Raise _ => True
  | OutOfFuel => False
  end.

Lemma assoc_get_keys (m : Model) (k : string) (p : Part) :
  assoc_get k (parts m) = Some p -> k ∈ keys m.
Proof.
  unfold keys, part_keys. induction (parts m) as [|[k' q] l IH].
  - discriminate.
  - cbn [assoc_get map fst]. rewrite list_to_set_cons.
    destruct (String.eqb_spec k' k) as [E | _]; intros H.
    + subst k'. set_solver.
    + specialize (IH H). set_solver.
Qed.

Lemma size_list_to_set_le (l : list string) :
  size (list_to_set l : gset string) <= length l.
Proof.
  induction l as [|k l IH].
  - rewrite list_to_set_nil, size_empty. simpl. lia.
  - rewrite list_to_set_cons. simpl.
    pose proof (size_union_alt ({[k]} : gset string) (list_to_set l)) as H.
    rewrite size_singleton in H.
    assert (size (list_to_set l ∖ ({[k]} : gset string))
            <= size (list_to_set l : gset string)).
    { apply subseteq_size. set_solver. }
    lia.
Qed.

Lemma keys_size (m : Model) : size (keys m) <= length (parts m).
Proof.
  unfold keys, part_keys.
  etransitivity; [apply size_list_to_set_le |]. now rewrite length_map.
Qed.

Lemma unvisited_enough (m : Model) (v : gset string) :
  unvisited m v < enough_fuel m.
Proof.
  unfold unvisited, enough_fuel.
  assert (size (keys m ∖ v) <= size (keys m)) by (apply subseteq_size; set_solver).
  pose proof (keys_size m). lia.
Qed.

Lemma unvisited_add (m : Model) (v : gset string) (k : string) :
  k ∈ keys m -> k ∉ v -> unvisited m (v ∪ {[k]}) < unvisited m v.
Proof.
  intros Hk Hv. unfold unvisited. apply subset_size.
  apply strict_spec_alt. split; [set_solver |].
  intros E. assert (k ∈ keys m ∖ v) as Hin by set_solver.
  rewrite <- E in Hin. set_solver.
Qed.

Section Callback.
Variable eu : Use -> bool -> gset string -> res emitted.
Variable v : gset string.
Hypothesis eu_settles : forall u i, settles (eu u i v) v.

Lemma emit_names_settles (names : list string) :
  settles (emit_names eu names v) v.
Proof.
  induction names as [|n names IH]; simpl; [reflexivity |].
  pose proof (eu_settles (default_Use n) true) as H.
  destruct (eu (default_Use n) true v) as [[s v']| |]; simpl in *; try easy.
  subst v'. destruct (emit_names eu names v) as [[l v']| |]; simpl in *; easy.
Qed.

Lemma emit_node_settles (n : Node) (i : bool) : settles (emit_node eu n i v) v.
Proof.
  destruct n as [p|u|h c|op l r|names]; simpl; try reflexivity.
  - apply eu_settles.
  - pose proof (eu_settles l true) as Hl.
    destruct (eu l true v) as [[a v']| |]; simpl in *; try easy. subst v'.
    pose proof (eu_settles r true) as Hr.
    destruct (eu r true v) as [[b v']| |]; simpl in *; easy.
  - pose proof (emit_names_settles names) as H.
    destruct (emit_names eu names v) as [[l v']| |]; simpl in *; easy.
Qed.

Lemma emit_node_list_settles (nodes : list Node) (i : bool) :
  settles (emit_node_list eu nodes i v) v.
Proof.
  induction nodes as [|n nodes IH]; simpl; [reflexivity |].
  pose proof (emit_node_settles n i) as H.
  destruct (emit_node eu n i v) as [[s v']| |]; simpl in *; try easy.
  subst v'. destruct (emit_node_list eu nodes i v) as [[l v']| |]; simpl in *; easy.
Qed.

Lemma emit_nodes_with_settles (nodes : list Node) (i : bool) :
  settles (emit_nodes_with eu nodes i v) v.
Proof.
  unfold emit_nodes_with. pose proof (emit_node_list_settles nodes i) as H.
  destruct (emit_node_list eu nodes i v) as [[l v']| |]; simpl in *; easy.
Qed.

(** Two callbacks that agree on [v] give the same emission from [v]. *)
Variable eu' : Use -> bool -> gset string -> res emitted.
Hypothesis eu_agree : forall u i, eu' u i v = eu u i v.

Lemma emit_names_agree (names : list string) :
  emit_names eu' names v = emit_names eu names v.
Proof.
  induction names as [|n names IH]; simpl; [reflexivity |].
  rewrite eu_agree. pose proof (eu_settles (default_Use n) true) as H.
  destruct (eu (default_Use n) true v) as [[s v']| |]; simpl in *; try easy.
  subst v'. now rewrite IH.
Qed.

Lemma emit_node_agree (n : Node) (i : bool) :
  emit_node eu' n i v = emit_node eu n i v.
Proof.
  destruct n as [p|u|h c|op l r|names]; simpl; try reflexivity.
  - apply eu_agree.
  - rewrite eu_agree. pose proof (eu_settles l true) as Hl.
    destruct (eu l true v) as [[a v']| |]; simpl in *; try easy. subst v'.
    now rewrite eu_agree.
  - now rewrite emit_names_agree.
Qed.

Lemma emit_node_list_agree (nodes : list Node) (i : bool) :
  emit_node_list eu' nodes i v = emit_node_list eu nodes i v.
Proof.
  induction nodes as [|n nodes IH]; simpl; [reflexivity |].
  rewrite emit_node_agree. pose proof (emit_node_settles n i) as H.
  destruct (emit_node eu n i v) as [[s v']| |]; simpl in *; try easy.
  subst v'. now rewrite IH.
Qed.

Lemma emit_nodes_with_agree (nodes : list Node) (i : bool) :
  emit_nodes_with eu' nodes i v = emit_nodes_with eu nodes i v.
Proof. unfold emit_nodes_with. now rewrite emit_node_list_agree. Qed.

End Callback.

(** With more fuel than there are unvisited parts, [_emit_use_scad] returns
    or raises [KeyError], and restores [visited]. *)
Lemma emit_use_settles (m : Model) (fuel : nat) :
  forall (u : Use) (i : bool) (v : gset string),
    unvisited m v < fuel -> settles (_emit_use_scad fuel m u i v) v.
Proof.
  induction fuel as [|fuel IH]; intros u i v Hf; [lia |].
  simpl. destruct (decide (use_name u ∈ v)) as [Hin | Hout]; [reflexivity |].
  destruct i; simpl; [| set_solver].
  destruct (assoc_get (use_name u) (parts m)) as [p|] eqn:Hp; simpl; [| exact I].
  apply assoc_get_keys in Hp.
  pose proof (unvisited_add m v _ Hp Hout) as Hlt.
  pose proof (emit_nodes_with_settles (_emit_use_scad fuel m) (v ∪ {[use_name u]})
                (fun u' i' => IH u' i' (v ∪ {[use_name u]}) ltac:(lia)) (part_nodes p) true) as H.
  destruct (emit_nodes_with _ _ _ _) as [[s v']| |]; simpl in *; try easy.
  subst v'. set_solver.
Qed.

(** Beyond that amount, fuel does not matter. *)
Lemma emit_use_fuel_S (m : Model) (fuel : nat) :
  forall (u : Use) (i : bool) (v : gset string),
    unvisited m v < fuel ->
    _emit_use_scad (S fuel) m u i v = _emit_use_scad fuel m u i v.
Proof.
  induction fuel as [|fuel IH]; intros u i v Hf; [lia |].
  change (_emit_use_scad (S (S fuel)) m u i v) with
    (if decide (use_name u ∈ v) then Ok (cycle_marker (use_name u), v)
     else
       let visited := v ∪ {[use_name u]} in
       r <-- (if i
              then match assoc_get (use_name u) (parts m) with
                   | None => Raise (KeyError (use_name u))
                   | Some p =>
                       r <-- emit_nodes_with (_emit_use_scad (S fuel) m)
                               (part_nodes p) true visited;
                       Ok (if is_empty (strip (fst r))
                           then ref_call (use_name u) else fst r, snd r)
                   end
              else Ok (ref_call (use_name u), visited));
       Ok (use_transforms u (fst r), snd r ∖ {[use_name u]})).
  simpl. destruct (decide (use_name u ∈ v)) as [Hin | Hout]; [reflexivity |].
  destruct i; [| reflexivity].
  destruct (assoc_get (use_name u) (parts m)) as [p|] eqn:Hp; [| reflexivity].
  apply assoc_get_keys in Hp.
  pose proof (unvisited_add m v _ Hp Hout) as Hlt.
  rewrite (emit_nodes_with_agree (_emit_use_scad fuel m) (v ∪ {[use_name u]})
             (fun u' i' => emit_use_settles m fuel u' i' (v ∪ {[use_name u]}) ltac:(lia))
             (_emit_use_scad (S fuel) m)
             (fun u' i' => IH u' i' (v ∪ {[use_name u]}) ltac:(lia))).
  reflexivity.
Qed.

Lemma emit_use_fuel (m : Model) (fuel fuel' : nat) (u : Use) (i : bool)
    (v : gset string) :
  unvisited m v < fuel -> fuel <= fuel' ->
  _emit_use_scad fuel' m u i v = _emit_use_scad fuel m u i v.
Proof.
  intros Hf Hle. induction Hle as [|n Hle IH]; [reflexivity |].
  rewrite emit_use_fuel_S by lia. exact IH.
Qed.

Lemma emit_nodes_settles (m : Model) (fuel : nat) (nodes : list Node)
    (i : bool) (v : gset string) :
  unvisited m v < fuel -> settles (_emit_nodes fuel m nodes i v) v.
Proof.
  intros Hf. apply emit_nodes_with_settles.
  intros u i'. now apply emit_use_settles.
Qed.

Lemma emit_nodes_fuel (m : Model) (fuel fuel' : nat) (nodes : list Node)
    (i : bool) (v : gset string) :
  unvisited m v < fuel -> fuel <= fuel' ->
  _emit_nodes fuel' m nodes i v = _emit_nodes fuel m nodes i v.
Proof.
  intros Hf Hle. unfold _emit_nodes.
  apply (emit_nodes_with_agree (_emit_use_scad fuel m) v).
  - intros u i'. now apply emit_use_settles.
  - intros u i'. now apply emit_use_fuel.
Qed.

Lemma module_scad_settled (m : Model) (p : Part) : module_scad m p <> OutOfFuel.
Proof.
  unfold module_scad.
  pose proof (emit_nodes_settles m (enough_fuel m) (part_nodes p)
                (part_is_boolean p) ∅ (unvisited_enough m ∅)) as H.
  destruct (_emit_nodes _ _ _ _ _) as [[s v]| |]; simpl in *; easy.
Qed.

Lemma emit_modules_settled (m : Model) (names : list string) :
  emit_modules m names <> OutOfFuel.
Proof.
  induction names as [|n names IH]; simpl; [easy |].
  destruct (assoc_get n (parts m)) as [p|]; [| easy].
  pose proof (module_scad_settled m p) as H.
  destruct (module_scad m p); simpl; try easy.
  destruct (emit_modules m names); simpl; easy.
Qed.

Lemma to_scad_settled (m : Model) : to_scad m <> OutOfFuel.
Proof.
  unfold to_scad. pose proof (emit_modules_settled m (part_keys m)) as H.
  destruct (emit_modules m (part_keys m)); simpl; easy.
Qed.

(** The model [parse] builds for [UNION a a AS a]. *)
Definition self_union_part : Part :=
  MkPart "a" [NBoolean "union" (default_Use "a") (default_Use "a")] true.

Definition self_union_model : Model := MkModel [("a", self_union_part)] [].

End Emitter.

(** C2.  Cycle handling of the resolver.
    - [UNION a a AS a] parses to a part [a] whose body unions [a] with
      itself; emitting it returns, and the text carries the marker
      [// Cycle detected: a] where the self-reference would be expanded
      again.
    - For every model: when the target of a [Use] is already in the set of
      identifiers being expanded, [_emit_use_scad] answers with the marker
      and leaves the set alone, whether or not it was asked to inline.
    - For every model, [module_scad] and [to_scad] return or raise
      [KeyError]; they never run out of fuel, and fuel beyond
      [enough_fuel] changes nothing. *)
Theorem C2_cycle_marker_and_termination :
  (@parse _ DecFloat.ops "UNION a a AS a" = Ok (@self_union_model DecFloat.dec)
   /\ @module_scad _ DecFloat.ops self_union_model self_union_part
      = Ok "module a() {
  union() { translate([0.0,0.0,0.0]) union() { // Cycle detected: a // Cycle detected: a }; translate([0.0,0.0,0.0]) union() { // Cycle detected: a // Cycle detected: a }; }
}
")
  /\ (forall (float : Type) (FO : FloatOps float) (m : Model) (fuel : nat) (u : Use)
             (inline : bool) (visited : gset string),
        _emit_use_scad (S fuel) m u inline (visited ∪ {[use_name u]})
        = Ok (cycle_marker (use_name u), visited ∪ {[use_name u]}))
  /\ (forall (float : Type) (FO : FloatOps float) (m : Model) (p : Part),
        module_scad m p <> OutOfFuel)
  /\ (forall (float : Type) (FO : FloatOps float) (m : Model), to_scad m <> OutOfFuel)
  /\ (forall (float : Type) (FO : FloatOps float) (m : Model) (nodes : list Node) (inline : bool)
             (extra : nat),
        _emit_nodes (enough_fuel m + extra) m nodes inline ∅
        = _emit_nodes (enough_fuel m) m nodes inline ∅).
Proof.
  split; [split; vm_compute; reflexivity |].
  split.
  { intros float FO m fuel u inline visited. simpl.
    destruct (decide (use_name u ∈ visited ∪ {[use_name u]})) as [_ | Hn];
      [reflexivity | set_solver]. }
  split; [exact @module_scad_settled |].
  split; [exact @to_scad_settled |].
  intros float FO m nodes inline extra.
  apply emit_nodes_fuel; [apply unvisited_enough | lia].
Qed.

End V04Facts.

(** ** The parser of v0.4 *)

Module V04Parse.
Import PyStr PyStrFacts V04 DecFloat.

Section Parser.
Context {float : Type} {FO : FloatOps float}.
Local Abbreviation Model := (@Model float).
Local Abbreviation Part := (@Part float).
Local Abbreviation Node := (@Node float).
Local Abbreviation PState := (@PState float).

(** The stripped text [parse] looks at for a line of [text.splitlines()]. *)
Definition raw_of (line : string) : string := strip (rstrip line).

Lemma startswith_hash_cons (c : ascii) (s : string) :
  startswith "#" (String c s) = Ascii.eqb c "#".
Proof. simpl. now rewrite andb_true_r, Ascii.eqb_sym. Qed.

(** A line with a first token that does not start a comment is not
    skipped. *)
Lemma line_not_skipped (line tok : string) (args : list string) :
  split (raw_of line) = tok :: args ->
  startswith "#" tok = false ->
  is_empty (raw_of line) || startswith "#" (raw_of line) = false.
Proof.
  unfold raw_of. intros Hs Hh.
  destruct (stripped_line_head _ _ _ Hs) as (c & r & t & -> & ->).
  rewrite startswith_hash_cons in *. now rewrite Hh.
Qed.

(** A token that upper-cases to a keyword does not start a comment. *)
Lemma keyword_not_hash (tok kw : string) :
  upper tok = kw -> startswith "#" kw = false -> startswith "#" tok = false.
Proof.
  destruct tok as [|c t]; [reflexivity |].
  intros <-. unfold upper. simpl map_chars.
  rewrite !startswith_hash_cons.
  destruct (Ascii.eqb_spec c "#") as [-> | _]; [trivial | reflexivity].
Qed.

(** A [USE] line with a target, in any state: the open part is closed and
    an instance is appended. *)
Lemma parse_line_USE (st : PState) (line tok name : string)
    (ptoks : list string) :
  split (raw_of line) = tok :: name :: ptoks ->
  upper tok = "USE" ->
  parse_line st line
  = Ok (MkPState
          (append_instance (st_model st)
             (new_Instance name
                (default int_zero3 (_params ptoks !! "position"))
                (default int_zero3 (_params ptoks !! "rotate"))
                (_params ptoks !! "scale") ("USE " ++ name)))
          None (st_pending_extrude st)).
Proof.
  intros Hs Hu. unfold parse_line. fold (raw_of line).
  rewrite (line_not_skipped _ _ _ Hs (keyword_not_hash _ _ Hu eq_refl)).
  rewrite Hs, Hu. reflexivity.
Qed.

Definition keywords : list string :=
  ["PART"; "GROUP"; "USE"; "MOVE"; "ROTATE"; "UNION"; "CUT"; "INTERSECT";
   "EXTRUDE"].

Definition is_keyword (head : string) : bool := head_in head keywords.

(** The upper-cased first token of a line that is not skipped. *)
Definition line_head (line : string) : option string :=
  if is_empty (raw_of line) || startswith "#" (raw_of line) then None
  else match split (raw_of line) with
       | [] => None
       | tok :: _ => Some (upper tok)
       end.

Lemma head_in_hash (tok : string) (kws : list string) :
  head_in (upper tok) kws = true ->
  forallb (fun kw => negb (startswith "#" kw)) kws = true ->
  startswith "#" tok = false.
Proof.
  unfold head_in. induction kws as [|kw kws IH]; simpl; [discriminate |].
  intros H1 H2. apply andb_prop in H2 as [Hk Hks].
  apply orb_prop in H1 as [H1 | H1]; [| now apply IH].
  apply String.eqb_eq in H1. apply (keyword_not_hash _ _ H1).
  now apply negb_true_iff in Hk.
Qed.

(** An [EXTRUDE] line, in any state, whether or not a part is open. *)
Lemma parse_line_EXTRUDE (st : PState) (line tok : string)
    (args : list string) :
  split (raw_of line) = tok :: args ->
  upper tok = "EXTRUDE" ->
  parse_line st line
  = Ok (MkPState (st_model st) (st_cur st)
          (Some (extrude_height (_params args)))).
Proof.
  intros Hs Hu. unfold parse_line. fold (raw_of line).
  rewrite (line_not_skipped _ _ _ Hs (keyword_not_hash _ _ Hu eq_refl)).
  rewrite Hs, Hu. reflexivity.
Qed.

Lemma get_or_create_key (m : Model) (name : string) :
  snd (get_or_create m name) = _sanitize name.
Proof.
  unfold get_or_create. now destruct (assoc_get (_sanitize name) (parts m)).
Qed.

(** A [PART] or [GROUP] line with a name. *)
Lemma parse_line_PART (st : PState) (line tok tok' rest : string)
    (args more : list string) :
  split (raw_of line) = tok :: args ->
  head_in (upper tok) ["PART"; "GROUP"] = true ->
  split1 (raw_of line) = tok' :: rest :: more ->
  parse_line st line
  = Ok (MkPState
          (fst (get_or_create (st_model st) (rstrip_char ":" (strip rest))))
          (Some (_sanitize (rstrip_char ":" (strip rest))))
          (st_pending_extrude st)).
Proof.
  intros Hs Hh H1. unfold parse_line. fold (raw_of line).
  rewrite (line_not_skipped _ _ _ Hs (head_in_hash _ _ Hh eq_refl)).
  rewrite Hs, Hh, H1. simpl st_model.
  rewrite <- get_or_create_key with (m := st_model st).
  now destruct (get_or_create (st_model st) (rstrip_char ":" (strip rest))).
Qed.

Lemma not_keyword (head : string) :
  is_keyword head = false ->
  head_in head ["PART"; "GROUP"] = false
  /\ String.eqb head "USE" = false /\ String.eqb head "MOVE" = false
  /\ String.eqb head "ROTATE" = false
  /\ head_in head ["UNION"; "CUT"; "INTERSECT"] = false
  /\ String.eqb head "EXTRUDE" = false.
Proof.
  unfold is_keyword, head_in, keywords. simpl. intros H.
  repeat (apply orb_false_elim in H as [? H]).
  repeat split; repeat (apply orb_false_intro); assumption.
Qed.

(** Any other line while a part is open: a primitive, wrapped in an
    extrusion when a height is pending. *)
Lemma parse_line_primitive (st : PState) (line tok key : string)
    (args : list string) :
  split (raw_of line) = tok :: args ->
  is_keyword (upper tok) = false ->
  startswith "#" tok = false ->
  st_cur st = Some key ->
  parse_line st line
  = Ok match st_pending_extrude st with
       | Some h =>
           MkPState (append_node (st_model st) key
                       (NExtrude h (new_Prim tok (_params args))))
                    (Some key) None
       | None =>
           MkPState (append_node (st_model st) key
                       (NPrim (new_Prim tok (_params args))))
                    (Some key) None
       end.
Proof.
  intros Hs Hk Hh Hc. unfold parse_line. fold (raw_of line).
  rewrite (line_not_skipped _ _ _ Hs Hh), Hs.
  destruct (not_keyword _ Hk) as (-> & -> & -> & -> & -> & ->).
  rewrite Hc. now destruct (st_pending_extrude st).
Qed.

(** Only an [EXTRUDE] line and a primitive line inside an open part touch
    the pending height. *)
Lemma parse_line_keeps_pending (st st' : PState) (line : string) :
  parse_line st line = Ok st' ->
  line_head line <> Some "EXTRUDE" ->
  (line_head line = None
   \/ (exists h, line_head line = Some h /\ is_keyword h = true)
   \/ st_cur st = None) ->
  st_pending_extrude st' = st_pending_extrude st.
Proof.
  unfold parse_line, line_head. fold (raw_of line).
  destruct (is_empty (raw_of line) || startswith "#" (raw_of line));
    [now intros [= <-] |].
  destruct (split (raw_of line)) as [|tok args]; [discriminate |].
  destruct (head_in (upper tok) ["PART"; "GROUP"]) eqn:E1.
  { destruct (split1 (raw_of line)) as [|? [|rest ?]]; try discriminate.
    simpl st_model.
    destruct (get_or_create (st_model st) (rstrip_char ":" (strip rest))).
    now intros [= <-]. }
  destruct (String.eqb (upper tok) "USE") eqn:E2.
  { destruct args; [discriminate | now intros [= <-]]. }
  destruct (String.eqb (upper tok) "MOVE") eqn:E3.
  { destruct args; [discriminate | now intros [= <-]]. }
  destruct (String.eqb (upper tok) "ROTATE") eqn:E4.
  { destruct args; [discriminate | now intros [= <-]]. }
  destruct (head_in (upper tok) ["UNION"; "CUT"; "INTERSECT"]) eqn:E5.
  { destruct (split1 (raw_of line)) as [|? [|rest ?]]; try discriminate.
    destruct (Re.match_boolean_decl rest) as [[[a b] c]|];
      [| now intros [= <-]].
    destruct (get_or_create (st_model st) c). now intros [= <-]. }
  destruct (String.eqb_spec (upper tok) "EXTRUDE") as [-> | E6];
    [now intros _ [] |].
  intros H _ [Hn | [(h & [= <-] & Hk) | Hn]]; [discriminate | |].
  - exfalso. revert Hk. unfold is_keyword, head_in, keywords. simpl.
    unfold head_in in E1, E5. simpl in E1, E5.
    apply orb_false_elim in E1 as [-> E1].
    apply orb_false_elim in E1 as [-> _].
    apply orb_false_elim in E5 as [-> E5].
    apply orb_false_elim in E5 as [-> E5].
    apply orb_false_elim in E5 as [-> _].
    rewrite E2, E3, E4. simpl.
    destruct (String.eqb_spec (upper tok) "EXTRUDE"); [contradiction | discriminate].
  - rewrite Hn in H. now injection H as <-.
Qed.

Lemma assoc_get_app_new (k : string) (p : Part) (l : list (string * Part)) :
  assoc_get k l = None -> assoc_get k (l ++ [(k, p)]) = Some p.
Proof.
  induction l as [|[k' q] l IH]; simpl.
  - now rewrite String.eqb_refl.
  - destruct (String.eqb k' k); [discriminate | exact IH].
Qed.

Lemma assoc_get_set (k : string) (p : Part) (l : list (string * Part)) :
  assoc_get k (assoc_set k p l) = Some p.
Proof.
  induction l as [|[k' q] l IH]; simpl.
  - now rewrite String.eqb_refl.
  - destruct (String.eqb k' k) eqn:E; simpl; now rewrite E.
Qed.

(** The nodes of the part stored at [key], none when there is no part. *)
Definition nodes_at (m : Model) (key : string) : list Node :=
  match assoc_get key (parts m) with
  | Some p => part_nodes p
  | None => []
  end.

Lemma get_or_create_nodes (m : Model) (name : string) :
  exists p,
    assoc_get (_sanitize name) (parts (fst (get_or_create m name))) = Some p
    /\ part_nodes p = nodes_at m (_sanitize name).
Proof.
  unfold get_or_create, nodes_at.
  destruct (assoc_get (_sanitize name) (parts m)) as [q|] eqn:E; simpl.
  - exists q. now rewrite E.
  - exists (new_Part (_sanitize name)). split; [| reflexivity].
    now apply assoc_get_app_new.
Qed.

Lemma append_node_nodes (m : Model) (key : string) (n : Node) (p : Part) :
  assoc_get key (parts m) = Some p ->
  nodes_at (append_node m key n) key = (part_nodes p ++ [n])%list.
Proof.
  intros E. unfold nodes_at, append_node. rewrite E. simpl.
  now rewrite assoc_get_set.
Qed.

End Parser.

End V04Parse.

(** ** The parser of v0.3 *)

Module V03Parse.
Import PyStr PyStrFacts V04Parse.

Section Parser.
Context {float : Type} {FO : FloatOps float}.

(** A [USE] line with a target: a reference line goes to the open part
    when there is one, an instance to the top level otherwise. *)
Lemma v03_parse_line_USE (st : @V03.PState float) (line tok target : string)
    (ptoks : list string) :
  split (raw_of line) = tok :: target :: ptoks ->
  upper tok = "USE" ->
  let pos := default int_zero3 (V03._params ptoks !! "position") in
  let rot := default int_zero3 (V03._params ptoks !! "rotate") in
  let scale := V03._params ptoks !! "scale" in
  V03.parse_line st line
  = Ok (V03.MkPState
          match V03.st_cur st with
          | Some key =>
              V03.add_line (V03.st_model st) key
                (V03.use_line target pos rot scale)
          | None =>
              V03.append_instance (V03.st_model st)
                (V03.new_Instance target pos rot scale ("USE " ++ target))
          end
          (V03.st_cur st) (V03.st_pending_extrude st)).
Proof.
  intros Hs Hu. unfold V03.parse_line. fold (raw_of line).
  rewrite (line_not_skipped _ _ _ Hs (keyword_not_hash _ _ Hu eq_refl)).
  rewrite Hs, Hu. cbn -[V03._params]. now destruct (V03.st_cur st).
Qed.

End Parser.
End V03Parse.

(** ** Where a [USE] line goes, and lines without their argument *)

Module ParserClaims.
Import PyStr V04Parse.

(** C1, as the code has it.  In v0.4 a [USE] line with a target closes
    whatever part is open and appends a top-level instance, in every
    parser state; no [USE] line adds a node to a part.  In v0.3 the sink
    depends on the state alone: with a part open the reference line is
    added to that part, with none open an instance is appended. *)
Theorem C1_use_line_sink
    (float : Type) (FO : FloatOps float) (line tok name : string)
    (ptoks : list string) :
  split (raw_of line) = tok :: name :: ptoks ->
  upper tok = "USE" ->
  (forall st : @V04.PState float,
     V04.parse_line st line
     = Ok (V04.MkPState
             (V04.append_instance (V04.st_model st)
                (V04.new_Instance name
                   (default int_zero3 (V04._params ptoks !! "position"))
                   (default int_zero3 (V04._params ptoks !! "rotate"))
                   (V04._params ptoks !! "scale") ("USE " ++ name)))
             None (V04.st_pending_extrude st)))
  /\ (forall st : @V03.PState float,
        V03.parse_line st line
        = Ok (V03.MkPState
                match V03.st_cur st with
                | Some key =>
                    V03.add_line (V03.st_model st) key
                      (V03.use_line name
                         (default int_zero3 (V03._params ptoks !! "position"))
                         (default int_zero3 (V03._params ptoks !! "rotate"))
                         (V03._params ptoks !! "scale"))
                | None =>
                    V03.append_instance (V03.st_model st)
                      (V03.new_Instance name
                         (default int_zero3 (V03._params ptoks !! "position"))
                         (default int_zero3 (V03._params ptoks !! "rotate"))
                         (V03._params ptoks !! "scale") ("USE " ++ name))
                end
                (V03.st_cur st) (V03.st_pending_extrude st))).
Proof.
  intros Hs Hu. split; intros st.
  - now apply V04Parse.parse_line_USE with (tok := tok).
  - now apply V03Parse.v03_parse_line_USE with (tok := tok).
Qed.

Lemma C1_witness :
  split (raw_of "    USE a") = ["USE"; "a"]
  /\ upper "USE" = "USE"
  /\ @V04.parse_line _ DecFloat.ops
       (V04.MkPState (V04.MkModel [("g", V04.MkPart "g" [] false)] [])
                     (Some "g") None)
       "    USE a"
     = Ok (V04.MkPState
             (V04.MkModel [("g", V04.MkPart "g" [] false)]
                [V04.MkInstance "a" int_zero3 int_zero3 None "USE a"])
             None None)
  /\ @V03.parse_line _ DecFloat.ops
       (V03.MkPState (V03.MkModel [("g", V03.MkPart "g" [])] [])
                     (Some "g") None)
       "    USE a"
     = Ok (V03.MkPState
             (V03.MkModel
                [("g", V03.MkPart "g"
                         ["translate([0,0,0]) rotate([0,0,0]) a();"])] [])
             (Some "g") None).
Proof.
  split; [reflexivity |]. split; [reflexivity |].
  pose proof (C1_use_line_sink DecFloat.dec DecFloat.ops
                "    USE a" "USE" "a" [] eq_refl eq_refl) as [H4 H3].
  split.
  - exact (H4 (V04.MkPState
                 (V04.MkModel [("g", V04.MkPart "g" [] false)] [])
                 (Some "g") None)).
  - exact (H3 (V03.MkPState (V03.MkModel [("g", V03.MkPart "g" [])] [])
                 (Some "g") None)).
Defined.

(** C1 as stated fails on v0.4: after [PART g:] the part [g] is open, yet
    the [USE a] line that follows leaves the body of [g] empty and appends
    a top-level instance. *)
Lemma C1_counterexample :
  @V04.parse_lines _ DecFloat.ops V04.init_state ["PART g:"]
  = Ok (V04.MkPState (V04.MkModel [("g", V04.MkPart "g" [] false)] [])
                     (Some "g") None)
  /\ @V04.parse _ DecFloat.ops "PART g:
    USE a"
     = Ok (V04.MkModel [("g", V04.MkPart "g" [] false)]
             [V04.MkInstance "a" int_zero3 int_zero3 None "USE a"]).
Proof. split; vm_compute; reflexivity. Qed.

(** C7 fails on the code: a keyword line without its argument makes
    [parse] raise [IndexError] ([toks[1]] for [USE], [MOVE] and [ROTATE];
    [raw.split(None, 1)[1]] for [PART], [GROUP], [UNION], [CUT] and
    [INTERSECT]).  A [UNION] line that has an argument but not the
    [A B AS C] shape, and a malformed parameter, are let through as the
    claim says. *)
Theorem C7_keyword_without_argument_raises
    (float : Type) (FO : FloatOps float) :
  (@V04.parse float FO "USE" = Raise IndexError
   /\ @V04.parse float FO "MOVE" = Raise IndexError
   /\ @V04.parse float FO "ROTATE" = Raise IndexError
   /\ @V04.parse float FO "UNION" = Raise IndexError
   /\ @V04.parse float FO "CUT" = Raise IndexError
   /\ @V04.parse float FO "INTERSECT" = Raise IndexError
   /\ @V04.parse float FO "PART" = Raise IndexError
   /\ @V04.parse float FO "GROUP" = Raise IndexError)
  /\ @V04.parse float FO "PART a:
CUBE width=10
USE" = Raise IndexError
  /\ @V04.parse float FO "UNION a b" = Ok V04.empty_Model
  /\ @V04.parse _ DecFloat.ops "USE a position=(1,x scale=big"
     = Ok (V04.MkModel []
             [V04.MkInstance "a"
                (VTup (NFloat (DecFloat.of_int 0)) (NFloat (DecFloat.of_int 0))
                      (NFloat (DecFloat.of_int 0)))
                int_zero3 (Some (VStr "big")) "USE a"]).
Proof.
  split; [repeat split; reflexivity |].
  split; [| split; [reflexivity | vm_compute; reflexivity]].
  unfold V04.parse.
  change (V04.parse_lines V04.init_state (splitlines "PART a:
CUBE width=10
USE"))
    with (V04.parse_lines V04.init_state ["PART a:"; "CUBE width=10"; "USE"]).
  unfold V04.parse_lines.
  rewrite (parse_line_PART _ "PART a:" "PART" "PART" "a:" ["a:"] []
             eq_refl eq_refl eq_refl).
  cbn [rbind].
  erewrite parse_line_primitive with (tok := "CUBE") (args := ["width=10"]);
    [| reflexivity | reflexivity | reflexivity | reflexivity].
  cbn [rbind]. reflexivity.
Qed.

End ParserClaims.

(** ** Primitives: the chamfer parameter *)

Module ChamferClaims.
Import PyStr.

Section Chamfer.
Context {float : Type} {FO : FloatOps float}.
Local Abbreviation pyval := (@pyval float).

(** The token [t] assigns to the key [key]. *)
Definition has_key (key t : string) : bool :=
  match split_eq t with
  | Some (k, _) => String.eqb k key
  | None => false
  end.

Definition no_key (key : string) (toks : list string) : bool :=
  forallb (fun t => negb (has_key key t)) toks.

Lemma v04_fold_insert (key : string) (x : pyval) (toks : list string) :
  no_key key toks = true ->
  forall m : gmap string pyval,
    fold_left V04.params_step toks (<[key := x]> m)
    = <[key := x]> (fold_left V04.params_step toks m).
Proof.
  induction toks as [|t toks IH]; intros Hk m; [reflexivity |].
  simpl in Hk. apply andb_prop in Hk as [Ht Hk]. simpl.
  unfold V04.params_step at 2 4. unfold has_key in Ht.
  destruct (split_eq t) as [[k v]|]; [| now apply IH].
  apply negb_true_iff, String.eqb_neq in Ht.
  rewrite <- IH by assumption. f_equal. now apply insert_insert_ne.
Qed.

Lemma v04_fold_none (key : string) (toks : list string) :
  no_key key toks = true ->
  forall m : gmap string pyval,
    m !! key = None -> fold_left V04.params_step toks m !! key = None.
Proof.
  induction toks as [|t toks IH]; intros Hk m Hm; [exact Hm |].
  simpl in Hk. apply andb_prop in Hk as [Ht Hk]. simpl.
  apply IH; [assumption |]. unfold V04.params_step. unfold has_key in Ht.
  destruct (split_eq t) as [[k v]|]; [| exact Hm].
  apply negb_true_iff, String.eqb_neq in Ht. now rewrite lookup_insert_ne.
Qed.

Lemma v03_fold_insert (key : string) (x : pyval) (toks : list string) :
  no_key key toks = true ->
  forall m : gmap string pyval,
    fold_left V03.params_step toks (<[key := x]> m)
    = <[key := x]> (fold_left V03.params_step toks m).
Proof.
  induction toks as [|t toks IH]; intros Hk m; [reflexivity |].
  simpl in Hk. apply andb_prop in Hk as [Ht Hk]. simpl.
  unfold V03.params_step at 2 4. unfold has_key in Ht.
  destruct (split_eq t) as [[k v]|]; [| now apply IH].
  apply negb_true_iff, String.eqb_neq in Ht.
  rewrite <- IH by assumption. f_equal. now apply insert_insert_ne.
Qed.

Lemma v03_fold_none (key : string) (toks : list string) :
  no_key key toks = true ->
  forall m : gmap string pyval,
    m !! key = None -> fold_left V03.params_step toks m !! key = None.
Proof.
  induction toks as [|t toks IH]; intros Hk m Hm; [exact Hm |].
  simpl in Hk. apply andb_prop in Hk as [Ht Hk]. simpl.
  apply IH; [assumption |]. unfold V03.params_step. unfold has_key in Ht.
  destruct (split_eq t) as [[k v]|]; [| exact Hm].
  apply negb_true_iff, String.eqb_neq in Ht. now rewrite lookup_insert_ne.
Qed.

Lemma no_key_app (key : string) (l1 l2 : list string) :
  no_key key (l1 ++ l2) = true ->
  no_key key l1 = true /\ no_key key l2 = true.
Proof. unfold no_key. rewrite forallb_app. apply andb_prop. Qed.

Section Zero.
Variable z : float.
Hypothesis float_of_zero : float_of_str "0" = Some z.
Hypothesis zero_is_zero : float_is_zero z = true.

(** The dictionary of a line with the token [chamfer=0] is the dictionary
    of the line without it, plus the entry [chamfer: 0.0]. *)
Lemma v04_params_chamfer (toks1 toks2 : list string) :
  no_key "chamfer" (toks1 ++ toks2) = true ->
  V04._params (toks1 ++ "chamfer=0" :: toks2)
  = <["chamfer" := VNum (NFloat z)]> (V04._params (toks1 ++ toks2))
  /\ V04._params (toks1 ++ toks2) !! "chamfer" = None.
Proof.
  intros Hk. destruct (no_key_app _ _ _ Hk) as [H1 H2].
  unfold V04._params. rewrite !fold_left_app. split.
  - simpl. unfold V04.params_step at 2. simpl split_eq. cbn iota beta.
    change (strip "0") with "0". unfold V04.param_value.
    change (startswith "(" "0" || startswith "[" "0") with false.
    cbn iota. rewrite float_of_zero. now apply v04_fold_insert.
  - apply v04_fold_none; [assumption |].
    apply v04_fold_none; [assumption | apply lookup_empty].
Qed.

Lemma v03_params_chamfer (toks1 toks2 : list string) :
  no_key "chamfer" (toks1 ++ toks2) = true ->
  V03._params (toks1 ++ "chamfer=0" :: toks2)
  = <["chamfer" := VNum (NFloat z)]> (V03._params (toks1 ++ toks2))
  /\ V03._params (toks1 ++ toks2) !! "chamfer" = None.
Proof.
  intros Hk. destruct (no_key_app _ _ _ Hk) as [H1 H2].
  unfold V03._params. rewrite !fold_left_app. split.
  - simpl. unfold V03.params_step at 2. simpl split_eq. cbn iota beta.
    change (strip "0") with "0". unfold V03.param_value.
    change (startswith "(" "0" || startswith "[" "0") with false.
    cbn iota. rewrite float_of_zero. now apply v03_fold_insert.
  - apply v03_fold_none; [assumption |].
    apply v03_fold_none; [assumption | apply lookup_empty].
Qed.

Ltac other_keys :=
  repeat (rewrite lookup_insert_ne by discriminate).

Lemma v04_emit_chamfer_zero (kind : string) (prm : gmap string pyval) :
  prm !! "chamfer" = None ->
  V04._emit_primitive_scad
    (V04.new_Prim kind (<["chamfer" := VNum (NFloat z)]> prm))
  = V04._emit_primitive_scad (V04.new_Prim kind prm).
Proof.
  intros Hn.
  unfold V04._emit_primitive_scad, V04.new_Prim, V04.prim_chamfer, V04.get_str.
  cbn [V04.prim_kind V04.prim_params].
  rewrite lookup_insert_eq, Hn. other_keys.
  unfold py_float, num_float, V04._chamfer_wrap. now rewrite zero_is_zero.
Qed.

Lemma v03_emit_chamfer_zero (kind : string) (prm : gmap string pyval) :
  prm !! "chamfer" = None ->
  V03._emit_primitive kind (<["chamfer" := VNum (NFloat z)]> prm)
  = V03._emit_primitive kind prm.
Proof.
  intros Hn. unfold V03._emit_primitive, V03.get_str.
  rewrite lookup_insert_eq, Hn. other_keys.
  unfold V03._chamfer_wrap, V03.val_is_zero, V03.num_is_zero.
  now rewrite zero_is_zero.
Qed.

End Zero.
End Chamfer.

(** C9.  A primitive line with the token [chamfer=0] and the same line
    without it emit the same text, for [CUBE], [CYLINDER] and every other
    kind, in v0.4 and in v0.3: the Minkowski wrapping is skipped in both
    cases.  The line carries no other [chamfer] token, and [float("0")] is
    a float equal to zero. *)
Theorem C9_chamfer_zero_same_as_absent
    (float : Type) (FO : FloatOps float) (z : float) (kind : string)
    (toks1 toks2 : list string) :
  float_of_str "0" = Some z -> float_is_zero z = true ->
  no_key "chamfer" (toks1 ++ toks2) = true ->
  V04._emit_primitive_scad
    (V04.new_Prim kind (V04._params (toks1 ++ "chamfer=0" :: toks2)))
  = V04._emit_primitive_scad
      (V04.new_Prim kind (V04._params (toks1 ++ toks2)))
  /\ V03._emit_primitive kind (V03._params (toks1 ++ "chamfer=0" :: toks2))
     = V03._emit_primitive kind (V03._params (toks1 ++ toks2)).
Proof.
  intros Hz Hz0 Hk. split.
  - destruct (v04_params_chamfer z Hz toks1 toks2 Hk) as [-> Hn].
    now apply v04_emit_chamfer_zero.
  - destruct (v03_params_chamfer z Hz toks1 toks2 Hk) as [-> Hn].
    now apply v03_emit_chamfer_zero.
Qed.

Lemma C9_witness :
  @V04._emit_primitive_scad _ DecFloat.ops
    (V04.new_Prim "CUBE"
       (@V04._params _ DecFloat.ops ["width=20"; "chamfer=0"; "height=3"]))
  = "translate([0.0,0.0,0.0]) cube([20.0,10,3.0], center=true);"
  /\ @V04._emit_primitive_scad _ DecFloat.ops
       (V04.new_Prim "CUBE"
          (@V04._params _ DecFloat.ops ["width=20"; "chamfer=0"; "height=3"]))
     = @V04._emit_primitive_scad _ DecFloat.ops
         (V04.new_Prim "CUBE"
            (@V04._params _ DecFloat.ops ["width=20"; "height=3"]))
  /\ @V03._emit_primitive _ DecFloat.ops "CUBE"
       (@V03._params _ DecFloat.ops ["width=20"; "chamfer=0"; "height=3"])
     = @V03._emit_primitive _ DecFloat.ops "CUBE"
         (@V03._params _ DecFloat.ops ["width=20"; "height=3"]).
Proof.
  split; [vm_compute; reflexivity |].
  exact (C9_chamfer_zero_same_as_absent DecFloat.dec DecFloat.ops
           (DecFloat.of_int 0) "CUBE" ["width=20"] ["height=3"]
           eq_refl eq_refl eq_refl).
Defined.

End ChamferClaims.

(** ** Transforms, inlining and references in the emitter of v0.4 *)

Module EmitClaims.
Import PyStr PyStrFacts V04 V04Facts.

Section Transforms.
Context {float : Type} {FO : FloatOps float}.
Local Abbreviation Model := (@Model float).
Local Abbreviation Use := (@Use float).
Local Abbreviation Instance := (@Instance float).
Local Abbreviation pyval := (@pyval float).

(** The three wrappers as text. *)
Definition translate_text (v : pyval) : string :=
  "translate(" ++ _pos_str v ++ ") ".

Definition rotate_text (v : pyval) : string :=
  "rotate(" ++ vec3_str (_safe_vec3 v) ++ ") ".

Definition scale_text (s : pyval) : string :=
  "scale([" ++ py_str s ++ "," ++ py_str s ++ "," ++ py_str s ++ "]) ".

Lemma scale_wrap_some (s : pyval) (call : string) :
  scale_wrap (Some s) call = scale_text s ++ call.
Proof. unfold scale_wrap, scale_text. now rewrite !append_assoc. Qed.

Lemma rotate_wrap_zero (v : pyval) (call : string) :
  vec3_is_zero (_safe_vec3 v) = true -> rotate_wrap v call = call.
Proof. unfold rotate_wrap. now intros ->. Qed.

Lemma rotate_wrap_nonzero (v : pyval) (call : string) :
  vec3_is_zero (_safe_vec3 v) = false ->
  rotate_wrap v call = rotate_text v ++ call.
Proof.
  unfold rotate_wrap, rotate_text. intros ->. now rewrite !append_assoc.
Qed.

(** The wrappers [_emit_use_scad] puts around [call], innermost last. *)
Definition use_wrappers (u : Use) : string :=
  translate_text (use_translate u)
  ++ (if vec3_is_zero (_safe_vec3 (use_rotate u)) then ""
      else rotate_text (use_rotate u))
  ++ match use_scale u with Some s => scale_text s | None => "" end.

Lemma wrap_rotate_scale (r : pyval) (s : option pyval) (call : string) :
  rotate_wrap r (scale_wrap s call)
  = (if vec3_is_zero (_safe_vec3 r) then "" else rotate_text r)
    ++ match s with Some s => scale_text s | None => "" end ++ call.
Proof.
  destruct (vec3_is_zero (_safe_vec3 r)) eqn:E.
  - rewrite rotate_wrap_zero by assumption. rewrite append_nil_l.
    destruct s; [apply scale_wrap_some | reflexivity].
  - rewrite rotate_wrap_nonzero by assumption. f_equal.
    destruct s; [apply scale_wrap_some | reflexivity].
Qed.

Lemma use_transforms_wrappers (u : Use) (call : string) :
  use_transforms u call = ensure_semicolon (use_wrappers u ++ call).
Proof.
  unfold use_transforms, use_wrappers, translate_text.
  rewrite wrap_rotate_scale. now rewrite !append_assoc.
Qed.

Lemma ref_call_semicolon (pre name : string) :
  ensure_semicolon (pre ++ ref_call name) = pre ++ ref_call name.
Proof.
  unfold ref_call.
  replace (pre ++ name ++ "();") with ((pre ++ name ++ "()") ++ ";")
    by now rewrite !append_assoc.
  apply ensure_semicolon_id.
Qed.

(** A [Use] emitted as a reference: the wrappers and the call. *)
Lemma emit_use_reference (m : Model) (fuel : nat) (u : Use)
    (visited : gset string) :
  use_name u ∉ visited ->
  _emit_use_scad (S fuel) m u false visited
  = Ok (use_wrappers u ++ ref_call (use_name u), visited).
Proof.
  intros Hn. simpl. destruct (decide (use_name u ∈ visited)); [contradiction |].
  simpl. rewrite use_transforms_wrappers, ref_call_semicolon.
  do 2 f_equal. set_solver.
Qed.

(** A [Use] that is emitted at all and is not a cycle: the wrappers around
    some call text. *)
Lemma emit_use_wrapped (m : Model) (fuel : nat) (u : Use) (inline : bool)
    (visited v' : gset string) (out : string) :
  use_name u ∉ visited ->
  _emit_use_scad fuel m u inline visited = Ok (out, v') ->
  exists call, out = ensure_semicolon (use_wrappers u ++ call).
Proof.
  intros Hn. destruct fuel as [|fuel]; [discriminate |]. simpl.
  destruct (decide (use_name u ∈ visited)); [contradiction |].
  destruct inline.
  - destruct (assoc_get (use_name u) (parts m)) as [p|]; [| discriminate].
    destruct (emit_nodes_with _ _ _ _) as [[s w]| |]; try discriminate.
    simpl. intros [= <- _]. rewrite use_transforms_wrappers. eauto.
  - simpl. intros [= <- _]. rewrite use_transforms_wrappers. eauto.
Qed.

(** The call text of an inlined reference: the target's emitted body, or
    the reference call when that body is blank. *)
Definition inlined_call (u : Use) (body : string) : string :=
  if is_empty (strip body) then ref_call (use_name u) else body.

(** A [Use] emitted inline, its target declared and not on the stack: the
    wrappers around the target's body. *)
Lemma emit_use_inlined (m : Model) (fuel : nat) (u : Use) (q : @Part float)
    (body : string) (visited v' : gset string) :
  use_name u ∉ visited ->
  assoc_get (use_name u) (parts m) = Some q ->
  _emit_nodes fuel m (part_nodes q) true (visited ∪ {[use_name u]})
  = Ok (body, v') ->
  _emit_use_scad (S fuel) m u true visited
  = Ok (ensure_semicolon (use_wrappers u ++ inlined_call u body),
        v' ∖ {[use_name u]}).
Proof.
  intros Hn Hq Hb. simpl.
  destruct (decide (use_name u ∈ visited)); [contradiction |].
  rewrite Hq. unfold _emit_nodes in Hb. rewrite Hb. simpl.
  now rewrite use_transforms_wrappers.
Qed.

(** A [Use] whose target is on the stack: the marker, and no wrapper. *)
Lemma emit_use_on_stack (m : Model) (fuel : nat) (u : Use) (inline : bool)
    (visited : gset string) :
  use_name u ∈ visited ->
  _emit_use_scad (S fuel) m u inline visited
  = Ok (cycle_marker (use_name u), visited).
Proof.
  intros Hin. simpl.
  now destruct (decide (use_name u ∈ visited)); [| contradiction].
Qed.

(** The instance with its translate replaced. *)
Definition with_translate (t : pyval) (inst : Instance) : Instance :=
  MkInstance (inst_target inst) t (inst_rotate inst) (inst_scale inst)
             (inst_label inst).

(** The wrappers the assembly loop puts around an instance's call; the
    translate is the layout offset [x]. *)
Definition instance_wrappers (x : float) (inst : Instance) : string :=
  "translate([" ++ float_repr x ++ ",0,0]) "
  ++ (if vec3_is_zero (_safe_vec3 (inst_rotate inst)) then ""
      else rotate_text (inst_rotate inst))
  ++ match inst_scale inst with Some s => scale_text s | None => "" end.

Lemma instance_pieces_wrappers (idx : Z) (x : float) (inst : Instance) :
  instance_pieces idx x inst
  = [ "  // Instance " ++ str_of_Z idx ++ ": " ++ inst_label inst;
      "  " ++ instance_wrappers x inst ++ ref_call (inst_target inst) ].
Proof.
  unfold instance_pieces, instance_call, instance_wrappers.
  rewrite wrap_rotate_scale. now rewrite !append_assoc.
Qed.

Lemma emit_instances_cons (idx : Z) (x : float) (inst : Instance)
    (rest : list Instance) :
  emit_instances idx x (inst :: rest)
  = ("  // Instance " ++ str_of_Z idx ++ ": " ++ inst_label inst)
    :: ("  " ++ instance_wrappers x inst ++ ref_call (inst_target inst))
    :: emit_instances (idx + 1) (float_add x layout_step) rest.
Proof. cbn [emit_instances]. now rewrite instance_pieces_wrappers. Qed.

(** The scene of a model without parts and with one instance. *)
Lemma to_scad_one_instance (inst : Instance) :
  to_scad (MkModel [] [inst])
  = Ok (join "
" [ "// Generated by DSL v0.4
$fn=72;
"; "module assembly(){";
    "  // Instance 1: " ++ inst_label inst;
    "  " ++ instance_wrappers float_zero inst ++ ref_call (inst_target inst);
    "}
assembly();" ]).
Proof.
  unfold to_scad. cbn [part_keys parts map emit_modules rbind instances].
  now rewrite emit_instances_cons.
Qed.

End Transforms.

(** C5 holds for [Use] nodes and fails for instances on v0.4.

    A [Use] node with a scale and a rotation that is not zero, whose target
    is not already being expanded, is emitted as
    [translate(..) rotate(..) scale(..)] followed by the body, with its own
    translate outermost: as a reference the body is the call [name();],
    inlined it is the text of the target's nodes (the call when that text
    is blank).

    An instance with a scale and a rotation that is not zero is written by
    the assembly loop as the layout offset, the rotate wrapper, the scale
    wrapper and the call.  The instance's own translate is no part of that
    line: the line is the same for every translate [t].  So the instance of
    [USE a position=(1,2,3) rotate=(0,0,45) scale=2] has no
    [translate([1.0,2.0,3.0])] around its rotate wrapper, where the sibling
    [Instance.call_scad] of v0.3 writes one. *)
Theorem C5_transform_nesting_order
    (float : Type) (FO : FloatOps float) (u : @Use float)
    (inst : @Instance float) (su si : @pyval float) :
  use_scale u = Some su ->
  vec3_is_zero (_safe_vec3 (use_rotate u)) = false ->
  inst_scale inst = Some si ->
  vec3_is_zero (_safe_vec3 (inst_rotate inst)) = false ->
  (forall (m : @Model float) (fuel : nat) (visited : gset string),
     use_name u ∉ visited ->
     _emit_use_scad (S fuel) m u false visited
     = Ok (translate_text (use_translate u) ++ rotate_text (use_rotate u)
           ++ scale_text su ++ ref_call (use_name u), visited))
  /\ (forall (m : @Model float) (fuel : nat) (q : @Part float)
             (body : string) (visited v' : gset string),
        use_name u ∉ visited ->
        assoc_get (use_name u) (parts m) = Some q ->
        _emit_nodes fuel m (part_nodes q) true (visited ∪ {[use_name u]})
        = Ok (body, v') ->
        _emit_use_scad (S fuel) m u true visited
        = Ok (ensure_semicolon
                (translate_text (use_translate u)
                 ++ rotate_text (use_rotate u) ++ scale_text su
                 ++ inlined_call u body),
              v' ∖ {[use_name u]}))
  /\ (forall (t : @pyval float) (idx : Z) (x : float)
             (rest : list (@Instance float)),
        emit_instances idx x (with_translate t inst :: rest)
        = ("  // Instance " ++ str_of_Z idx ++ ": " ++ inst_label inst)
          :: ("  translate([" ++ float_repr x ++ ",0,0]) "
              ++ rotate_text (inst_rotate inst) ++ scale_text si
              ++ ref_call (inst_target inst))
          :: emit_instances (idx + 1) (float_add x layout_step) rest)
  /\ @compile _ DecFloat.ops "USE a position=(1,2,3) rotate=(0,0,45) scale=2"
     = Ok "// Generated by DSL v0.4
$fn=72;

module assembly(){
  // Instance 1: USE a
  translate([0.0,0,0]) rotate([0.0,0.0,45.0]) scale([2.0,2.0,2.0]) a();
}
assembly();"
  /\ @V03.compile _ DecFloat.ops
       "USE a position=(1,2,3) rotate=(0,0,45) scale=2"
     = Ok "// Generated by DSL v0.3 (fixed)
$fn=72;

module assembly(){
  // Instance 1: USE a
  translate([0.0,0,0]) translate([1.0,2.0,3.0]) rotate([0.0,0.0,45.0]) scale([2.0,2.0,2.0]) a();
}
assembly();".
Proof.
  intros Hsu Hru Hsi Hri.
  assert (use_wrappers u
          = translate_text (use_translate u) ++ rotate_text (use_rotate u)
            ++ scale_text su) as Hu.
  { unfold use_wrappers. now rewrite Hsu, Hru. }
  assert (forall x, instance_wrappers x inst
          = "translate([" ++ float_repr x ++ ",0,0]) "
            ++ rotate_text (inst_rotate inst) ++ scale_text si) as Hi.
  { intros x. unfold instance_wrappers. now rewrite Hsi, Hri. }
  split; [| split; [| split; [| split]]].
  - intros m fuel visited Hn. rewrite (emit_use_reference m fuel u visited Hn).
    rewrite Hu. now rewrite !append_assoc.
  - intros m fuel q body visited v' Hn Hq Hb.
    rewrite (emit_use_inlined m fuel u q body visited v' Hn Hq Hb).
    rewrite Hu. now rewrite !append_assoc.
  - intros t idx x rest. rewrite emit_instances_cons.
    change (instance_wrappers x (with_translate t inst))
      with (instance_wrappers x inst).
    cbn [with_translate inst_label inst_target]. rewrite Hi.
    now rewrite !append_assoc.
  - vm_compute. reflexivity.
  - vm_compute. reflexivity.
Qed.

Definition sample_use : @Use DecFloat.dec :=
  MkUse "a"
    (VTup (NInt 1) (NInt 2) (NInt 3)) (VTup (NInt 0) (NInt 0) (NInt 45))
    (Some (VNum (NInt 2))).

Definition sample_instance : @Instance DecFloat.dec :=
  MkInstance "a"
    (VTup (NInt 1) (NInt 2) (NInt 3)) (VTup (NInt 0) (NInt 0) (NInt 45))
    (Some (VNum (NInt 2))) "USE a".

Lemma C5_witness :
  @_emit_use_scad _ DecFloat.ops 1 empty_Model sample_use false ∅
  = Ok ("translate([1.0,2.0,3.0]) rotate([0.0,0.0,45.0]) scale([2,2,2]) a();",
        ∅)
  /\ @emit_instances _ DecFloat.ops 1 (DecFloat.of_int 0) [sample_instance]
     = [ "  // Instance 1: USE a";
         "  translate([0.0,0,0]) rotate([0.0,0.0,45.0]) scale([2,2,2]) a();" ].
Proof.
  pose proof (C5_transform_nesting_order DecFloat.dec DecFloat.ops
                sample_use sample_instance (VNum (NInt 2)) (VNum (NInt 2))
                eq_refl eq_refl eq_refl eq_refl) as (H1 & _ & H3 & _).
  split.
  - exact (H1 empty_Model 0%nat ∅ (not_elem_of_empty _)).
  - exact (H3 (VTup (NInt 1) (NInt 2) (NInt 3)) 1%Z (DecFloat.of_int 0) []).
Defined.

(** C6, as the code has it.  Take a [Use] node whose target is not on the
    stack of parts being expanded.  Emitted as a reference and emitted
    inline (the mode of the operands of a boolean part) alike, the rotate
    wrapper is written exactly when the rotation is not zero and the scale
    wrapper exactly when a scale is present, whatever its value; the
    translate wrapper is always written, a zero vector included.  Inline,
    the wrappers stand around the target's body, or around the reference
    call when that body is blank.  A [Use] node whose target is on the
    stack is replaced by the cycle comment and gets no wrapper.  Around an
    instance's call in the assembly the rotate and scale wrappers are
    written by the same tests, and the translate wrapper of the layout
    offset is always written. *)
Theorem C6_which_wrappers_are_written
    (float : Type) (FO : FloatOps float) (u : @Use float)
    (inst : @Instance float) :
  (forall (m : @Model float) (fuel : nat) (visited : gset string),
     use_name u ∉ visited ->
     _emit_use_scad (S fuel) m u false visited
     = Ok (translate_text (use_translate u)
           ++ (if vec3_is_zero (_safe_vec3 (use_rotate u)) then ""
               else rotate_text (use_rotate u))
           ++ match use_scale u with
              | Some s => scale_text s
              | None => ""
              end
           ++ ref_call (use_name u), visited))
  /\ (forall (m : @Model float) (fuel : nat) (q : @Part float)
             (body : string) (visited v' : gset string),
        use_name u ∉ visited ->
        assoc_get (use_name u) (parts m) = Some q ->
        _emit_nodes fuel m (part_nodes q) true (visited ∪ {[use_name u]})
        = Ok (body, v') ->
        _emit_use_scad (S fuel) m u true visited
        = Ok (ensure_semicolon
                (translate_text (use_translate u)
                 ++ (if vec3_is_zero (_safe_vec3 (use_rotate u)) then ""
                     else rotate_text (use_rotate u))
                 ++ match use_scale u with
                    | Some s => scale_text s
                    | None => ""
                    end
                 ++ (if is_empty (strip body) then ref_call (use_name u)
                     else body)),
              v' ∖ {[use_name u]}))
  /\ (forall (m : @Model float) (fuel : nat) (inline : bool)
             (visited : gset string),
        use_name u ∈ visited ->
        _emit_use_scad (S fuel) m u inline visited
        = Ok ("// Cycle detected: " ++ use_name u, visited))
  /\ (forall (idx : Z) (x : float) (rest : list (@Instance float)),
        emit_instances idx x (inst :: rest)
        = ("  // Instance " ++ str_of_Z idx ++ ": " ++ inst_label inst)
          :: ("  translate([" ++ float_repr x ++ ",0,0]) "
              ++ (if vec3_is_zero (_safe_vec3 (inst_rotate inst)) then ""
                  else rotate_text (inst_rotate inst))
              ++ match inst_scale inst with
                 | Some s => scale_text s
                 | None => ""
                 end
              ++ ref_call (inst_target inst))
          :: emit_instances (idx + 1) (float_add x layout_step) rest).
Proof.
  split; [| split; [| split]].
  - intros m fuel visited Hn. rewrite (emit_use_reference m fuel u visited Hn).
    unfold use_wrappers. now rewrite !append_assoc.
  - intros m fuel q body visited v' Hn Hq Hb.
    rewrite (emit_use_inlined m fuel u q body visited v' Hn Hq Hb).
    unfold use_wrappers, inlined_call. now rewrite !append_assoc.
  - intros m fuel inline visited Hin. now apply emit_use_on_stack.
  - intros idx x rest. rewrite emit_instances_cons.
    unfold instance_wrappers. now rewrite !append_assoc.
Qed.

(** The model of [PART a] holding a sphere and [UNION a a AS c]. *)
Definition twice_model : @Model DecFloat.dec :=
  MkModel
    [("a", MkPart "a" [NPrim (MkPrim "SPHERE" ∅)] false);
     ("c", MkPart "c" [NBoolean "union" (default_Use "a") (default_Use "a")]
             true)] [].

Definition moved_use (name : string) : @Use DecFloat.dec :=
  MkUse name (VTup (NInt 4) (NInt 5) (NInt 6)) int_zero3 None.

Definition plain_instance : @Instance DecFloat.dec :=
  MkInstance "a" int_zero3 int_zero3 None "USE a".

Lemma C6_witness :
  @_emit_use_scad _ DecFloat.ops 1 empty_Model (moved_use "a") false ∅
  = Ok ("translate([4.0,5.0,6.0]) a();", ∅)
  /\ (@parse _ DecFloat.ops "PART a:
    SPHERE
UNION a a AS c" = Ok twice_model
      /\ @_emit_use_scad _ DecFloat.ops 2 twice_model (moved_use "a") true
           {["c"]}
         = Ok ("translate([4.0,5.0,6.0]) translate([0.0,0.0,0.0]) sphere(r=5);",
               {["c"]}))
  /\ @_emit_use_scad _ DecFloat.ops 1 twice_model (moved_use "c") true {["c"]}
     = Ok ("// Cycle detected: c", {["c"]})
  /\ @emit_instances _ DecFloat.ops 1 (DecFloat.of_int 0) [plain_instance]
     = [ "  // Instance 1: USE a"; "  translate([0.0,0,0]) a();" ].
Proof.
  split; [| split; [split | split]].
  - exact (proj1 (C6_which_wrappers_are_written DecFloat.dec DecFloat.ops
                    (moved_use "a") plain_instance)
                 empty_Model 0%nat ∅ (not_elem_of_empty _)).
  - vm_compute. reflexivity.
  - rewrite (proj1 (proj2 (C6_which_wrappers_are_written DecFloat.dec
                             DecFloat.ops (moved_use "a") plain_instance))
               twice_model 1%nat
               (MkPart "a" [NPrim (MkPrim "SPHERE" ∅)] false)
               "translate([0.0,0.0,0.0]) sphere(r=5);"
               {["c"]} ({["c"]} ∪ {["a"]}));
      [| vm_compute; now intros [= ?] | reflexivity | vm_compute; reflexivity].
    vm_compute. reflexivity.
  - apply (proj1 (proj2 (proj2 (C6_which_wrappers_are_written DecFloat.dec
                                  DecFloat.ops (moved_use "c")
                                  plain_instance)))).
    now apply elem_of_singleton.
  - exact (proj2 (proj2 (proj2 (C6_which_wrappers_are_written DecFloat.dec
                                  DecFloat.ops (moved_use "a")
                                  plain_instance)))
                 1%Z (DecFloat.of_int 0) []).
Defined.

(** C6 as stated fails: a [Use] node whose translate is zero and whose
    scale is one is emitted with a translate wrapper and a scale wrapper;
    the operands of the boolean part of [UNION a a AS c], which [parse]
    builds with a zero translate, are each inlined under a translate
    wrapper; and the instance of [USE a scale=1] has a scale wrapper. *)
Lemma C6_counterexample :
  @_emit_use_scad _ DecFloat.ops 1 empty_Model
    (MkUse "a" int_zero3 int_zero3 (Some (VNum (NInt 1)))) false ∅
  = Ok ("translate([0.0,0.0,0.0]) scale([1,1,1]) a();", ∅)
  /\ @compile _ DecFloat.ops "PART a:
    SPHERE
UNION a a AS c"
     = Ok "// Generated by DSL v0.4
$fn=72;

module a() {
  translate([0.0,0.0,0.0]) sphere(r=5);
}

module c() {
  union() { translate([0.0,0.0,0.0]) translate([0.0,0.0,0.0]) sphere(r=5); translate([0.0,0.0,0.0]) translate([0.0,0.0,0.0]) sphere(r=5); }
}

module assembly(){
}
assembly();"
  /\ @compile _ DecFloat.ops "USE a scale=1"
     = Ok "// Generated by DSL v0.4
$fn=72;

module assembly(){
  // Instance 1: USE a
  translate([0.0,0,0]) scale([1.0,1.0,1.0]) a();
}
assembly();".
Proof. split; [| split]; vm_compute; reflexivity. Qed.

Section Inlining.
Context {float : Type} {FO : FloatOps float}.
Local Abbreviation Model := (@Model float).
Local Abbreviation Part := (@Part float).
Local Abbreviation Use := (@Use float).


End Inlining.


(** The model of the example: [PART a] a cube, [PART b] a sphere,
    [CUT a b AS c], [USE c]. *)
Definition cut_part_a : @Part DecFloat.dec :=
  MkPart "a"
    [NPrim (MkPrim "CUBE"
              (@_params _ DecFloat.ops ["width=10"; "height=10"; "depth=10"]))]
    false.

Definition cut_part_b : @Part DecFloat.dec :=
  MkPart "b" [NPrim (MkPrim "SPHERE" (@_params _ DecFloat.ops ["radius=5"]))]
    false.

Definition cut_part_c : @Part DecFloat.dec :=
  MkPart "c" [NBoolean "difference" (default_Use "a") (default_Use "b")] true.

Definition cut_model : @Model DecFloat.dec :=
  MkModel [("a", cut_part_a); ("b", cut_part_b); ("c", cut_part_c)]
    [MkInstance "c" int_zero3 int_zero3 None "USE c"].



(** C8.  An undeclared identifier is not handled uniformly.  The model of
    [UNION ghost b AS c] has a boolean part whose operand [ghost] is not in
    the symbol table, and emitting it raises [KeyError]; the model of
    [USE ghost] has an instance whose target is not in the symbol table,
    and emitting it returns a scene with the bare call [ghost();]. *)
Theorem C8_undeclared_identifier_two_behaviours :
  (exists (m : @Model DecFloat.dec) (p : @Part DecFloat.dec) (l r : Use),
     @parse _ DecFloat.ops "PART b:
    SPHERE radius=5
UNION ghost b AS c" = Ok m
     /\ assoc_get "c" (parts m) = Some p
     /\ part_is_boolean p = true
     /\ part_nodes p = [NBoolean "union" l r]
     /\ assoc_get (use_name l) (parts m) = None
     /\ @to_scad _ DecFloat.ops m = Raise (KeyError "ghost"))
  /\ (exists (m : @Model DecFloat.dec) (inst : @Instance DecFloat.dec),
        @parse _ DecFloat.ops "USE ghost" = Ok m
        /\ instances m = [inst]
        /\ assoc_get (inst_target inst) (parts m) = None
        /\ @to_scad _ DecFloat.ops m
           = Ok "// Generated by DSL v0.4
$fn=72;

module assembly(){
  // Instance 1: USE ghost
  translate([0.0,0,0]) ghost();
}
assembly();").
Proof.
  split.
  - exists (MkModel
              [("b", MkPart "b"
                       [NPrim (MkPrim "SPHERE"
                                 (@_params _ DecFloat.ops ["radius=5"]))]
                       false);
               ("c", MkPart "c"
                       [NBoolean "union" (default_Use "ghost")
                                 (default_Use "b")] true)] []),
           (MkPart "c"
              [NBoolean "union" (default_Use "ghost") (default_Use "b")] true),
           (default_Use "ghost"), (default_Use "b").
    repeat split; vm_compute; reflexivity.
  - exists (MkModel [] [MkInstance "ghost" int_zero3 int_zero3 None "USE ghost"]),
           (MkInstance "ghost" int_zero3 int_zero3 None "USE ghost").
    repeat split; vm_compute; reflexivity.
Qed.

Lemma emit_instances_ignore_translate
    {float : Type} {FO : FloatOps float} (t : @pyval float)
    (insts : list (@Instance float)) :
  forall (idx : Z) (x : float),
    emit_instances idx x (map (with_translate t) insts)
    = emit_instances idx x insts.
Proof.
  induction insts as [|inst insts IH]; intros idx x; [reflexivity |].
  cbn [map emit_instances]. now rewrite IH.
Qed.

(** C4 fails on v0.4: the assembly loop of [to_scad] never reads the
    translate of an instance, so the assembly text is the same whatever the
    translate is, and [MOVE x by=(1,2,3)] is emitted under the layout offset
    alone.  The sibling [Instance.call_scad] of v0.3 writes the translate
    inside the layout offset. *)
Theorem C4_instance_translate_not_emitted :
  (forall (float : Type) (FO : FloatOps float) (t : @pyval float)
          (insts : list (@Instance float)) (idx : Z) (x : float),
     emit_instances idx x (map (with_translate t) insts)
     = emit_instances idx x insts)
  /\ @compile _ DecFloat.ops "MOVE x by=(1,2,3)"
     = Ok "// Generated by DSL v0.4
$fn=72;

module assembly(){
  // Instance 1: MOVE x
  translate([0.0,0,0]) x();
}
assembly();"
  /\ @V03.compile _ DecFloat.ops "MOVE x by=(1,2,3)"
     = Ok "// Generated by DSL v0.3 (fixed)
$fn=72;

module assembly(){
  // Instance 1: MOVE x
  translate([0.0,0,0]) translate([1.0,2.0,3.0]) x();
}
assembly();".
Proof.
  split; [intros; apply emit_instances_ignore_translate |].
  split; vm_compute; reflexivity.
Qed.

End EmitClaims.

(** ** Further properties: identifiers and parameters *)

Module HelperProps.
Import PyStr PyStrFacts.

(** Every character of [s] satisfies [p]. *)
Fixpoint all_chars (p : ascii -> bool) (s : string) : bool :=
  match s with
  | EmptyString => true
  | String c s' => p c && all_chars p s'
  end.

(** An identifier: a letter or underscore, then letters, digits and
    underscores. *)
Definition is_ident (s : string) : bool :=
  Re.match_ident_start s && all_chars is_word s.

Lemma word_not_space (c : ascii) : is_word c = true -> is_space c = false.
Proof. destruct c as [[] [] [] [] [] [] [] []]; vm_compute; congruence. Qed.

Lemma all_chars_sub_nonword (s : string) :
  all_chars is_word (Re.sub_nonword s) = true.
Proof.
  induction s as [|c s IH]; [reflexivity |].
  unfold Re.sub_nonword in *. simpl. rewrite IH, andb_true_r.
  destruct (is_word c) eqn:E; [exact E | reflexivity].
Qed.

Lemma sub_nonword_id (s : string) :
  all_chars is_word s = true -> Re.sub_nonword s = s.
Proof.
  induction s as [|c s IH]; [reflexivity |].
  unfold Re.sub_nonword in *. simpl. intros H.
  apply andb_prop in H as [Hc Hs]. now rewrite Hc, IH.
Qed.

Lemma rstrip_no_space (s : string) :
  all_chars (fun c => negb (is_space c)) s = true -> rstrip s = s.
Proof.
  induction s as [|c s IH]; [reflexivity |].
  simpl. intros H. apply andb_prop in H as [Hc Hs].
  rewrite IH by assumption. apply negb_true_iff in Hc.
  now rewrite Hc, andb_false_r.
Qed.

Lemma all_chars_impl (p q : ascii -> bool) (s : string) :
  (forall c, p c = true -> q c = true) ->
  all_chars p s = true -> all_chars q s = true.
Proof.
  intros Hpq. induction s as [|c s IH]; [reflexivity |].
  simpl. intros H. apply andb_prop in H as [Hc Hs].
  now rewrite (Hpq _ Hc), IH.
Qed.

Lemma strip_word (s : string) : all_chars is_word s = true -> strip s = s.
Proof.
  intros H. unfold strip.
  assert (lstrip s = s) as ->.
  { destruct s as [|c s]; [reflexivity |]. simpl in *.
    apply andb_prop in H as [Hc _]. now rewrite (word_not_space _ Hc). }
  apply rstrip_no_space. revert H. apply all_chars_impl.
  intros c Hc. now rewrite (word_not_space _ Hc).
Qed.

Lemma all_chars_app (p : ascii -> bool) (a b : string) :
  all_chars p (a ++ b) = all_chars p a && all_chars p b.
Proof.
  induction a as [|c a IH]; [reflexivity |].
  rewrite append_cons. simpl. now rewrite IH, andb_assoc.
Qed.

(** X1.  [_sanitize] always returns an identifier, and returns an
    identifier unchanged; so it is idempotent. *)
Theorem sanitize_is_identifier (name : string) :
  is_ident (V04._sanitize name) = true
  /\ (is_ident name = true -> V04._sanitize name = name)
  /\ V04._sanitize (V04._sanitize name) = V04._sanitize name.
Proof.
  assert (Hid : forall x, is_ident x = true -> V04._sanitize x = x).
  { intros x Hx. unfold is_ident in Hx. apply andb_prop in Hx as [H1 H2].
    unfold V04._sanitize. rewrite (strip_word _ H2), (sub_nonword_id _ H2).
    now rewrite H1. }
  assert (Hv : is_ident (V04._sanitize name) = true).
  { unfold V04._sanitize, is_ident.
    pose proof (all_chars_sub_nonword (strip name)) as Hw.
    destruct (Re.match_ident_start (Re.sub_nonword (strip name))) eqn:E.
    - now rewrite E, Hw.
    - rewrite all_chars_app, Hw. reflexivity. }
  split; [exact Hv |]. split; [apply Hid |]. now apply Hid.
Qed.

Lemma sanitize_is_identifier_witness :
  HelperProps.is_ident "base_2" = true
  /\ @V04._sanitize "base_2" = "base_2"
  /\ @V04._sanitize " 2nd part! " = "p_2nd_part_".
Proof.
  split; [reflexivity |]. split.
  - exact (proj1 (proj2 (sanitize_is_identifier "base_2")) eq_refl).
  - reflexivity.
Defined.

Section Params.
Context {float : Type} {FO : FloatOps float}.
Local Abbreviation pyval := (@pyval float).

(** The text assigned to [key] by the last token of [toks] that assigns to
    it. *)
Fixpoint last_assigned (key : string) (toks : list string) : option string :=
  match toks with
  | [] => None
  | t :: toks' =>
      match last_assigned key toks' with
      | Some v => Some v
      | None =>
          match split_eq t with
          | Some (k, v) => if String.eqb k key then Some v else None
          | None => None
          end
      end
  end.

Lemma params_fold_lookup (key : string) (toks : list string) :
  forall m : gmap string pyval,
    fold_left V04.params_step toks m !! key
    = match last_assigned key toks with
      | Some v => Some (V04.param_value (strip v))
      | None => m !! key
      end.
Proof.
  induction toks as [|t toks IH]; intros m; [reflexivity |].
  simpl. rewrite IH. destruct (last_assigned key toks); [reflexivity |].
  unfold V04.params_step. destruct (split_eq t) as [[k v]|]; [| reflexivity].
  destruct (String.eqb_spec k key) as [-> | Hne].
  - apply lookup_insert_eq.
  - now apply lookup_insert_ne.
Qed.

End Params.

(** X2.  What [_params] holds for a key is decided by the last token that
    assigns to it: the value of that token's text, converted as [_params]
    converts it.  A key no token assigns to is absent; tokens without an
    equals sign and tokens for other keys do not matter. *)
Theorem params_last_token_wins (float : Type) (FO : FloatOps float)
    (key : string) (toks : list string) :
  V04._params toks !! key
  = match last_assigned key toks with
    | Some v => Some (V04.param_value (strip v))
    | None => None
    end.
Proof. unfold V04._params. rewrite params_fold_lookup. now rewrite lookup_empty. Qed.

(** X3.  The height an [EXTRUDE] line leaves pending.  Without a [height]
    token it is 10.  With one, it is the float the text converts to; text
    that [float] rejects, and any text starting with a bracket (stored as a
    vector, which [float] rejects), gives 10. *)
Theorem extrude_height_default (float : Type) (FO : FloatOps float)
    (args : list string) :
  V04.extrude_height (V04._params args)
  = match last_assigned "height" args with
    | None => V04.float_ten
    | Some v =>
        if startswith "(" (strip v) || startswith "[" (strip v)
        then V04.float_ten
        else match float_of_str (strip v) with
             | Some x => x
             | None => V04.float_ten
             end
    end.
Proof.
  unfold V04.extrude_height. rewrite params_last_token_wins.
  destruct (last_assigned "height" args) as [v|]; [| reflexivity].
  unfold V04.param_value.
  destruct (startswith "(" (strip v) || startswith "[" (strip v)).
  - unfold V04.vec3_val.
    now destruct (V04._safe_vec3 (VStr (strip v))) as [[a b] c].
  - destruct (float_of_str (strip v)) as [x|] eqn:E; simpl.
    + reflexivity.
    + now rewrite E.
Qed.

End HelperProps.

(** ** The height an [EXTRUDE] line leaves pending *)

Module ExtrudeClaims.
Import PyStr PyStrFacts V04 V04Parse HelperProps.

Section Height.
Context {float : Type} {FO : FloatOps float}.

Lemma last_assigned_height (v : string) (tail : list string) :
  last_assigned "height" tail = None ->
  last_assigned "height" (("height=" ++ v) :: tail) = Some v.
Proof. intros H. cbn [last_assigned]. now rewrite H. Qed.

(** A height text that [float] rejects leaves the default pending. *)
Lemma extrude_height_rejected (args : list string) (v : string) :
  last_assigned "height" args = Some v ->
  float_of_str (strip v) = None ->
  extrude_height (_params args) = float_ten.
Proof.
  intros Hl Hf. unfold extrude_height, _params.
  rewrite params_fold_lookup, Hl. unfold param_value.
  destruct (startswith "(" (strip v) || startswith "[" (strip v)).
  - unfold vec3_val. now destruct (_safe_vec3 (VStr (strip v))) as [[a b] c].
  - rewrite Hf. simpl. now rewrite Hf.
Qed.

(** A height text that [float] reads is the pending height. *)
Lemma extrude_height_read (args : list string) (v : string) (x : float) :
  last_assigned "height" args = Some v ->
  startswith "(" (strip v) || startswith "[" (strip v) = false ->
  float_of_str (strip v) = Some x ->
  extrude_height (_params args) = x.
Proof.
  intros Hl Hb Hf. unfold extrude_height, _params.
  rewrite params_fold_lookup, Hl. unfold param_value. now rewrite Hb, Hf.
Qed.

End Height.

(** C10.  The pending height outlives the line that sets it, but the form
    [EXTRUDE height=h:] loses [h].

    Take any parser state (a part open or not, a height pending or not) and
    three consecutive lines: an [EXTRUDE] line, a [PART] or [GROUP] line
    with a name, and a line that is neither a keyword line nor a comment.
    Parsing them returns; the third line is stored in the part the second
    line opened as an [Extrude] node whose height is the one the [EXTRUDE]
    line left pending, and nothing is pending afterwards.  More generally a
    line keeps the pending height unless it is an [EXTRUDE] line or a
    non-keyword line read while a part is open.

    The height left pending is not [h] when the colon is glued to the
    number, as in the documented form [EXTRUDE height=h:]: [float] rejects
    the text [h:], and the pending height is 10.0 for every [h].  It is [h]
    when the token is [height=h] alone. *)
Theorem C10_pending_extrude_survives_part_lines
    (float : Type) (FO : FloatOps float) (st : @PState float)
    (l1 l2 l3 t1 t2 t2' rest t3 : string) (a1 a2 more a3 : list string) :
  split (raw_of l1) = t1 :: a1 -> upper t1 = "EXTRUDE" ->
  split (raw_of l2) = t2 :: a2 ->
  head_in (upper t2) ["PART"; "GROUP"] = true ->
  split1 (raw_of l2) = t2' :: rest :: more ->
  split (raw_of l3) = t3 :: a3 ->
  is_keyword (upper t3) = false -> startswith "#" t3 = false ->
  let key := _sanitize (rstrip_char ":" (strip rest)) in
  (exists st3,
     parse_lines st [l1; l2; l3] = Ok st3
     /\ st_cur st3 = Some key
     /\ st_pending_extrude st3 = None
     /\ nodes_at (st_model st3) key
        = (nodes_at (st_model st) key
           ++ [NExtrude (extrude_height (_params a1))
                        (new_Prim t3 (_params a3))])%list)
  /\ (forall (s s' : @PState float) (line : string),
        parse_line s line = Ok s' ->
        line_head line <> Some "EXTRUDE" ->
        line_head line = None
        \/ (exists h, line_head line = Some h /\ is_keyword h = true)
        \/ st_cur s = None ->
        st_pending_extrude s' = st_pending_extrude s)
  /\ (forall (h : string) (tail : list string),
        a1 = ("height=" ++ h ++ ":") :: tail ->
        last_assigned "height" tail = None ->
        float_of_str (strip (h ++ ":")) = None ->
        extrude_height (_params a1) = float_ten)
  /\ (forall (h : string) (x : float) (tail : list string),
        a1 = ("height=" ++ h) :: tail ->
        last_assigned "height" tail = None ->
        startswith "(" (strip h) || startswith "[" (strip h) = false ->
        float_of_str (strip h) = Some x ->
        extrude_height (_params a1) = x)
  /\ @parse _ DecFloat.ops "EXTRUDE height=5:
PART p:
    CIRCLE radius=3"
     = Ok (MkModel
             [("p", MkPart "p"
                      [NExtrude (DecFloat.of_int 10)
                         (MkPrim "CIRCLE"
                            {["radius" := VNum (NFloat (DecFloat.of_int 3))]})]
                      false)] [])
  /\ @parse _ DecFloat.ops "EXTRUDE height=5
PART p:
    CIRCLE radius=3"
     = Ok (MkModel
             [("p", MkPart "p"
                      [NExtrude (DecFloat.of_int 5)
                         (MkPrim "CIRCLE"
                            {["radius" := VNum (NFloat (DecFloat.of_int 3))]})]
                      false)] []).
Proof.
  intros H1 U1 H2 U2 S2 H3 K3 C3 key.
  split; [| split; [| split; [| split; [| split]]]].
  - unfold parse_lines.
    rewrite (parse_line_EXTRUDE st _ _ _ H1 U1). cbn [rbind].
    rewrite (parse_line_PART _ _ _ _ _ _ _ H2 U2 S2). cbn [rbind].
    erewrite parse_line_primitive;
      [| exact H3 | exact K3 | exact C3 | reflexivity]. cbn [rbind].
    cbn [st_pending_extrude st_model st_cur]. eexists. split; [reflexivity |].
    cbn [st_pending_extrude st_model st_cur]. repeat split.
    destruct (get_or_create_nodes (st_model st) (rstrip_char ":" (strip rest)))
      as (p & Hp & Hn).
    fold key in Hp, Hn. rewrite (append_node_nodes _ _ _ _ Hp). now rewrite Hn.
  - intros s s' line. apply parse_line_keeps_pending.
  - intros h tail -> Ht Hf.
    apply (extrude_height_rejected _ (h ++ ":")); [| exact Hf].
    now apply last_assigned_height.
  - intros h x tail -> Ht Hb Hf.
    apply (extrude_height_read _ h); [| exact Hb | exact Hf].
    now apply last_assigned_height.
  - vm_compute. reflexivity.
  - vm_compute. reflexivity.
Qed.

Lemma C10_witness :
  exists st3,
    @parse_lines _ DecFloat.ops init_state
      ["EXTRUDE height=5:"; "PART p:"; "    CIRCLE radius=3"] = Ok st3
    /\ st_cur st3 = Some "p"
    /\ st_pending_extrude st3 = None
    /\ nodes_at (st_model st3) "p"
       = [NExtrude (@extrude_height _ DecFloat.ops
                      (@_params _ DecFloat.ops ["height=5:"]))
            (@new_Prim DecFloat.dec "CIRCLE"
               (@_params _ DecFloat.ops ["radius=3"]))]
    /\ @extrude_height _ DecFloat.ops (@_params _ DecFloat.ops ["height=5:"])
       = DecFloat.of_int 10.
Proof.
  pose proof (C10_pending_extrude_survives_part_lines
                DecFloat.dec DecFloat.ops init_state
                "EXTRUDE height=5:" "PART p:" "    CIRCLE radius=3"
                "EXTRUDE" "PART" "PART" "p:" "CIRCLE"
                ["height=5:"] ["p:"] [] ["radius=3"]
                eq_refl eq_refl eq_refl eq_refl eq_refl eq_refl eq_refl
                eq_refl) as (Hrun & _ & Hcolon & _).
  destruct Hrun as (st3 & Hp & Hc & He & Hn).
  exists st3. split; [exact Hp |]. split; [exact Hc |].
  split; [exact He |]. split; [exact Hn |].
  exact (Hcolon "5" [] eq_refl eq_refl eq_refl).
Defined.

End ExtrudeClaims.

(** ** Further properties: the parser of v0.4 *)

Module ParserProps.
Import PyStr PyStrFacts V04 V04Parse HelperProps.

(** *** Lines that are skipped *)

Lemma lstrip_spaces (ws s : string) :
  all_chars is_space ws = true -> lstrip (ws ++ s) = lstrip s.
Proof.
  induction ws as [|c ws IH]; [reflexivity |].
  simpl all_chars. intros H. apply andb_prop in H as [Hc Hs].
  rewrite append_cons. simpl. rewrite Hc. now apply IH.
Qed.

Lemma rstrip_spaces (ws : string) :
  all_chars is_space ws = true -> rstrip ws = "".
Proof.
  induction ws as [|c ws IH]; [reflexivity |].
  simpl. intros H. apply andb_prop in H as [Hc Hs]. now rewrite IH, Hc.
Qed.

Lemma rstrip_keeps_prefix (a r : string) (c : ascii) :
  is_space c = false -> exists r', rstrip (a ++ String c r) = a ++ String c r'.
Proof.
  intros Hc. induction a as [|x a [r' IH]].
  - rewrite append_nil_l. simpl. rewrite Hc, andb_false_r. eauto.
  - rewrite append_cons. simpl. rewrite IH. exists r'.
    assert (exists y t, a ++ String c r' = String y t) as (y' & t' & E).
    { destruct a; [now exists c, r' | rewrite append_cons; eauto]. }
    rewrite append_cons, E. reflexivity.
Qed.

(** The stripped text of a line whose first character after white space is
    [c]. *)
Lemma raw_of_head (ws r : string) (c : ascii) :
  all_chars is_space ws = true -> is_space c = false ->
  exists r', raw_of (ws ++ String c r) = String c r'.
Proof.
  intros Hws Hc. unfold raw_of, strip.
  destruct (rstrip_keeps_prefix ws r c Hc) as [r1 ->].
  rewrite lstrip_spaces by assumption. simpl lstrip. rewrite Hc.
  destruct (rstrip_keeps_prefix "" r1 c Hc) as [r2 E].
  rewrite !append_nil_l in E. rewrite E. eauto.
Qed.

(** X4.  A line of white space only, and a line whose first character
    after leading white space is [#], change nothing: the parser state
    after the line is the state before it, in v0.4 and in v0.3. *)
Theorem blank_and_comment_lines_skipped
    (float : Type) (FO : FloatOps float) (ws rest : string) :
  all_chars is_space ws = true ->
  (forall st : @V04.PState float,
     V04.parse_line st ws = Ok st
     /\ V04.parse_line st (ws ++ "#" ++ rest) = Ok st)
  /\ (forall st : @V03.PState float,
        V03.parse_line st ws = Ok st
        /\ V03.parse_line st (ws ++ "#" ++ rest) = Ok st).
Proof.
  intros Hws.
  assert (raw_of ws = "") as Hblank.
  { unfold raw_of. now rewrite (rstrip_spaces _ Hws). }
  destruct (raw_of_head ws rest "#" Hws eq_refl) as [r' Hc].
  change (String "#" rest) with ("#" ++ rest) in Hc.
  split; intros st; split.
  - unfold V04.parse_line. fold (raw_of ws). now rewrite Hblank.
  - unfold V04.parse_line. fold (raw_of (ws ++ "#" ++ rest)). now rewrite Hc.
  - unfold V03.parse_line. fold (raw_of ws). now rewrite Hblank.
  - unfold V03.parse_line. fold (raw_of (ws ++ "#" ++ rest)). now rewrite Hc.
Qed.

Lemma blank_and_comment_lines_skipped_witness :
  all_chars is_space "   " = true
  /\ @V04.parse_line _ DecFloat.ops
       (V04.MkPState V04.empty_Model (Some "p") None) "   # CUBE width=1"
     = Ok (V04.MkPState V04.empty_Model (Some "p") None).
Proof.
  split; [reflexivity |].
  exact (proj2 (proj1 (blank_and_comment_lines_skipped DecFloat.dec
                         DecFloat.ops "   " " CUBE width=1" eq_refl)
                  (V04.MkPState V04.empty_Model (Some "p") None))).
Defined.

(** *** When [parse] raises *)

Lemma split_go_nonempty (s acc : string) :
  is_empty acc = false -> split_go acc s <> [].
Proof.
  intros H. destruct (split_go_prefix s acc H) as (t & rest & ->). discriminate.
Qed.

Lemma split_nil_lstrip (s : string) :
  split_go "" s = [] <-> lstrip s = "".
Proof.
  induction s as [|c s IH]; [easy |].
  simpl. destruct (is_space c); [exact IH |]. split; [| discriminate].
  intros H. now apply split_go_nonempty in H.
Qed.

(** [split(None, 1)] has a second element exactly when [split()] has. *)
Lemma split1_go_spec (s acc : string) :
  match split_go acc s with
  | [] => split1_go acc s = []
  | [t] => split1_go acc s = [t]
  | t :: _ :: _ => exists rest, split1_go acc s = [t; rest]
  end.
Proof.
  revert acc. induction s as [|c s IH]; intros acc.
  - simpl. now destruct (is_empty acc).
  - simpl. destruct (is_space c); [| apply IH].
    destruct (is_empty acc); [apply IH |].
    destruct (split_go "" s) as [|t l] eqn:E.
    + apply split_nil_lstrip in E. now rewrite E.
    + destruct (lstrip s) as [|x r] eqn:El.
      * apply split_nil_lstrip in El. congruence.
      * simpl. eauto.
Qed.

Definition needs_argument : list string :=
  ["PART"; "GROUP"; "USE"; "MOVE"; "ROTATE"; "UNION"; "CUT"; "INTERSECT"].

Ltac accepted :=
  split; [discriminate | intros (_ & t & E & _); discriminate E].

Ltac not_needed :=
  split;
  [ discriminate
  | intros (_ & t & E & K); injection E as <- _; revert K;
    repeat match goal with
           | E : String.eqb _ _ = _ |- _ => rewrite E; clear E
           end; discriminate ].

Ltac one_token H1 :=
  rewrite ?H1; split;
  [ intros [= <-]; split;
    [ reflexivity
    | eexists; split;
      [ reflexivity
      | repeat match goal with
               | E : String.eqb _ _ = _ |- _ => rewrite E; clear E
               end; reflexivity ] ]
  | intros [-> _]; reflexivity ].

(** Text over the ASCII alphabet (code points below 128), on which
    [upper], [is_space] and the character classes of the embedding are
    those of Python. *)
Definition is_ascii (s : string) : bool :=
  all_chars (fun c => (code c <? 128)%N) s.

(** X5.  On a line of ASCII text, [parse_line] raises exactly when the line
    consists of one token which is one of the keywords [PART], [GROUP],
    [USE], [MOVE], [ROTATE], [UNION], [CUT], [INTERSECT] in any letter
    case; the exception is [IndexError].  Every other ASCII line is
    accepted, in every state. *)
Theorem parse_line_raises_iff (float : Type) (FO : FloatOps float)
    (st : @V04.PState float) (line : string) (e : exn) :
  is_ascii line = true ->
  (V04.parse_line st line = Raise e
   <-> e = IndexError
       /\ exists tok, split (raw_of line) = [tok]
                      /\ head_in (upper tok) needs_argument = true).
Proof.
  intros _. unfold V04.parse_line. fold (raw_of line).
  pose proof (split1_go_spec (raw_of line) "") as H1.
  fold (split (raw_of line)) in H1. fold (split1 (raw_of line)) in H1.
  destruct (is_empty (raw_of line) || startswith "#" (raw_of line)) eqn:Hskip.
  { split; [discriminate |]. intros (_ & tok & Hs & Hk). exfalso.
    assert (startswith "#" tok = false) as Hh
      by (apply (head_in_hash _ _ Hk); reflexivity).
    rewrite (line_not_skipped _ _ _ Hs Hh) in Hskip. discriminate. }
  destruct (split (raw_of line)) as [|tok args] eqn:Hs.
  { exfalso. unfold raw_of in Hs, Hskip.
    destruct (strip_head (rstrip line)) as [E | (c & r & E & Hc)];
      rewrite E in Hskip, Hs; [discriminate |].
    destruct (split_head c r Hc) as (t & rest & Ht). congruence. }
  unfold needs_argument, head_in. cbn [existsb].
  destruct (String.eqb (upper tok) "PART") eqn:E1; cbn [orb].
  { destruct args as [|a args]; [one_token H1 |].
    destruct H1 as [rest ->]. cbn [st_model end_part st_pending_extrude].
    destruct (get_or_create (st_model st) (rstrip_char ":" (strip rest))).
    accepted. }
  destruct (String.eqb (upper tok) "GROUP") eqn:E2; cbn [orb].
  { destruct args as [|a args]; [one_token H1 |].
    destruct H1 as [rest ->]. cbn [st_model end_part st_pending_extrude].
    destruct (get_or_create (st_model st) (rstrip_char ":" (strip rest))).
    accepted. }
  destruct (String.eqb (upper tok) "USE") eqn:E3; cbn [orb].
  { destruct args as [|a args]; [one_token H1 | accepted]. }
  destruct (String.eqb (upper tok) "MOVE") eqn:E4; cbn [orb].
  { destruct args as [|a args]; [one_token H1 | accepted]. }
  destruct (String.eqb (upper tok) "ROTATE") eqn:E5; cbn [orb].
  { destruct args as [|a args]; [one_token H1 | accepted]. }
  destruct (String.eqb (upper tok) "UNION") eqn:E6; cbn [orb].
  { destruct args as [|a args]; [one_token H1 |].
    destruct H1 as [rest ->].
    destruct (Re.match_boolean_decl rest) as [[[x y] z]|]; [| accepted].
    destruct (get_or_create (st_model st) z). accepted. }
  destruct (String.eqb (upper tok) "CUT") eqn:E7; cbn [orb].
  { destruct args as [|a args]; [one_token H1 |].
    destruct H1 as [rest ->].
    destruct (Re.match_boolean_decl rest) as [[[x y] z]|]; [| accepted].
    destruct (get_or_create (st_model st) z). accepted. }
  destruct (String.eqb (upper tok) "INTERSECT") eqn:E8; cbn [orb].
  { destruct args as [|a args]; [one_token H1 |].
    destruct H1 as [rest ->].
    destruct (Re.match_boolean_decl rest) as [[[x y] z]|]; [| accepted].
    destruct (get_or_create (st_model st) z). accepted. }
  destruct (String.eqb (upper tok) "EXTRUDE"); [not_needed |].
  destruct (st_cur st); [destruct (st_pending_extrude st) |]; not_needed.
Qed.

Lemma parse_line_raises_iff_witness :
  is_ascii "  use" = true
  /\ @V04.parse_line _ DecFloat.ops V04.init_state "  use" = Raise IndexError
  /\ is_ascii "USE a" = true
  /\ forall e, @V04.parse_line _ DecFloat.ops V04.init_state "USE a" <> Raise e.
Proof.
  split; [reflexivity |]. split; [| split; [reflexivity |]].
  - apply (proj2 (parse_line_raises_iff DecFloat.dec DecFloat.ops
                    V04.init_state "  use" IndexError eq_refl)).
    split; [reflexivity |]. exists "use". split; reflexivity.
  - intros e H.
    apply (proj1 (parse_line_raises_iff DecFloat.dec DecFloat.ops
                    V04.init_state "USE a" e eq_refl)) in H.
    destruct H as (_ & tok & Hs & _). vm_compute in Hs. discriminate Hs.
Defined.

(** *** What one line can do to the parser state *)

Section Steps.
Context {float : Type} {FO : FloatOps float}.
Local Abbreviation Model := (@Model float).
Local Abbreviation Part := (@Part float).
Local Abbreviation Node := (@Node float).
Local Abbreviation PState := (@PState float).
Local Abbreviation pyval := (@pyval float).

(** The six effects a line can have, read off the branches of [parse]. *)
Inductive step (st : PState) : PState -> Prop :=
| step_skip : step st st
| step_open (name : string) :
    step st (MkPState (fst (get_or_create (st_model st) name))
                      (Some (_sanitize name)) (st_pending_extrude st))
| step_instance (target label : string) (t r : pyval) (s : option pyval) :
    step st (MkPState
               (append_instance (st_model st) (new_Instance target t r s label))
               None (st_pending_extrude st))
| step_boolean (head a b c : string) :
    step st (MkPState
               (set_boolean (fst (get_or_create (st_model st) c)) (_sanitize c)
                  (NBoolean (boolean_op head) (default_Use a) (default_Use b)))
               (st_cur st) (st_pending_extrude st))
| step_extrude (h : float) :
    step st (MkPState (st_model st) (st_cur st) (Some h))
| step_prim (key : string) (p : Prim) :
    st_cur st = Some key ->
    step st (MkPState (append_node (st_model st) key (NPrim p))
                      (Some key) (st_pending_extrude st))
| step_extruded (key : string) (h : float) (p : Prim) :
    st_cur st = Some key ->
    st_pending_extrude st = Some h ->
    step st (MkPState (append_node (st_model st) key (NExtrude h p))
                      (Some key) None).

Lemma parse_line_step (st st' : PState) (line : string) :
  parse_line st line = Ok st' -> step st st'.
Proof.
  unfold parse_line. fold (raw_of line).
  destruct (is_empty (raw_of line) || startswith "#" (raw_of line)).
  { intros [= <-]. constructor. }
  destruct (split (raw_of line)) as [|tok args]; [discriminate |].
  destruct (head_in (upper tok) ["PART"; "GROUP"]).
  { destruct (split1 (raw_of line)) as [|? [|rest ?]]; try discriminate.
    cbn [st_model end_part st_pending_extrude].
    pose proof (get_or_create_key (st_model st) (rstrip_char ":" (strip rest)))
      as Hk.
    destruct (get_or_create (st_model st) (rstrip_char ":" (strip rest)))
      as [m key] eqn:E.
    intros [= <-]. simpl in Hk. subst key.
    change m with (fst (m, _sanitize (rstrip_char ":" (strip rest)))).
    rewrite <- E. constructor. }
  destruct (String.eqb (upper tok) "USE").
  { destruct args as [|name ptoks]; [discriminate |].
    cbn [st_cur end_part st_model st_pending_extrude].
    intros [= <-]. constructor. }
  destruct (String.eqb (upper tok) "MOVE").
  { destruct args as [|name ptoks]; [discriminate |].
    cbn [st_cur end_part st_model st_pending_extrude].
    intros [= <-]. constructor. }
  destruct (String.eqb (upper tok) "ROTATE").
  { destruct args as [|name ptoks]; [discriminate |].
    cbn [st_cur end_part st_model st_pending_extrude].
    intros [= <-]. constructor. }
  destruct (head_in (upper tok) ["UNION"; "CUT"; "INTERSECT"]).
  { destruct (split1 (raw_of line)) as [|? [|rest ?]]; try discriminate.
    destruct (Re.match_boolean_decl rest) as [[[a b] c]|];
      [| intros [= <-]; constructor].
    pose proof (get_or_create_key (st_model st) c) as Hk.
    destruct (get_or_create (st_model st) c) as [m key] eqn:E.
    intros [= <-]. simpl in Hk. subst key.
    change m with (fst (m, _sanitize c)). rewrite <- E. constructor. }
  destruct (String.eqb (upper tok) "EXTRUDE").
  { intros [= <-]. constructor. }
  destruct (st_cur st) as [key|] eqn:Hc; [| intros [= <-]; constructor].
  destruct (st_pending_extrude st) as [h|] eqn:Hp; intros [= <-].
  - now apply step_extruded.
  - rewrite <- Hp. now apply step_prim.
Qed.

End Steps.

(** *** Invariants of the model under construction *)

Section Invariant.
Context {float : Type} {FO : FloatOps float}.
Local Abbreviation Model := (@Model float).
Local Abbreviation Part := (@Part float).
Local Abbreviation Node := (@Node float).
Local Abbreviation Instance := (@Instance float).
Local Abbreviation PState := (@PState float).

(** A node [parse] can have built: a primitive, an extrusion, or a boolean
    of one of the three operators over two sanitized names. *)
Definition node_from_parse (n : Node) : bool :=
  match n with
  | NPrim _ | NExtrude _ _ => true
  | NBoolean op l r =>
      head_in op ["union"; "difference"; "intersection"]
      && is_ident (use_name l) && is_ident (use_name r)
  | NUse _ | NMultiUnion _ => false
  end.

(** An entry of the symbol table: stored under its own name, which is an
    identifier, with nodes [parse] can have built. *)
(** A primitive or an extrusion. *)
Definition is_leaf (n : Node) : bool :=
  match n with NPrim _ | NExtrude _ _ => true | _ => false end.

Definition leaves_unless_boolean (p : Part) : bool :=
  part_is_boolean p || forallb is_leaf (part_nodes p).

Definition part_ok (kp : string * Part) : bool :=
  String.eqb (part_name (snd kp)) (fst kp) && is_ident (fst kp)
  && (forallb node_from_parse (part_nodes (snd kp))
      && leaves_unless_boolean (snd kp)).

Definition declared (m : Model) (key : string) : bool :=
  match assoc_get key (parts m) with Some _ => true | None => false end.

Definition cur_ok (m : Model) (cur : option string) : bool :=
  match cur with Some key => declared m key | None => true end.

Definition wf_state (st : PState) : Prop :=
  NoDup (part_keys (st_model st))
  /\ forallb part_ok (parts (st_model st)) = true
  /\ forallb (fun i : Instance => is_ident (inst_target i))
       (instances (st_model st)) = true
  /\ cur_ok (st_model st) (st_cur st) = true.

Lemma assoc_get_None_notin (k : string) (l : list (string * Part)) :
  assoc_get k l = None -> k ∉ map fst l.
Proof.
  induction l as [|[k' q] l IH]; simpl; [intros _; apply not_elem_of_nil |].
  destruct (String.eqb_spec k' k) as [-> | Hne]; [discriminate |].
  intros H. apply not_elem_of_cons. split; [congruence | now apply IH].
Qed.

Lemma assoc_set_keys (k : string) (p q : Part) (l : list (string * Part)) :
  assoc_get k l = Some q -> map fst (assoc_set k p l) = map fst l.
Proof.
  induction l as [|[k' q'] l IH]; simpl; [discriminate |].
  destruct (String.eqb k' k); [reflexivity |].
  intros H. simpl. now rewrite IH.
Qed.

Lemma assoc_get_forallb (P : string * Part -> bool) (k : string) (p : Part)
    (l : list (string * Part)) :
  forallb P l = true -> assoc_get k l = Some p -> P (k, p) = true.
Proof.
  induction l as [|[k' q] l IH]; simpl; [discriminate |].
  intros H. apply andb_prop in H as [H1 H2].
  destruct (String.eqb_spec k' k) as [-> | Hne]; [now intros [= <-] | now apply IH].
Qed.

Lemma assoc_set_forallb (P : string * Part -> bool) (k : string) (p : Part)
    (l : list (string * Part)) :
  forallb P l = true -> P (k, p) = true -> forallb P (assoc_set k p l) = true.
Proof.
  intros Hl Hp. induction l as [|[k' q] l IH]; simpl.
  - now rewrite Hp.
  - simpl in Hl. apply andb_prop in Hl as [H1 H2].
    destruct (String.eqb_spec k' k) as [-> | Hne]; simpl.
    + now rewrite Hp, H2.
    + now rewrite H1, IH.
Qed.

Lemma assoc_get_set_other (k k' : string) (p : Part)
    (l : list (string * Part)) :
  k' <> k -> assoc_get k' (assoc_set k p l) = assoc_get k' l.
Proof.
  intros Hne. induction l as [|[k0 q] l IH]; simpl.
  - destruct (String.eqb_spec k k'); [congruence | reflexivity].
  - destruct (String.eqb_spec k0 k) as [-> | Hk]; simpl.
    + destruct (String.eqb_spec k k'); [congruence | reflexivity].
    + destruct (String.eqb k0 k'); [reflexivity | exact IH].
Qed.

Lemma declared_set (m : Model) (k k' : string) (p : Part) (ins : list Instance) :
  declared m k' = true ->
  declared (MkModel (assoc_set k p (parts m)) ins) k' = true.
Proof.
  unfold declared. cbn [parts]. intros H.
  destruct (String.eqb_spec k' k) as [-> | Hne].
  - now rewrite assoc_get_set.
  - now rewrite assoc_get_set_other.
Qed.

Lemma assoc_get_app_some (k : string) (p : Part) (l l' : list (string * Part)) :
  assoc_get k l = Some p -> assoc_get k (l ++ l') = Some p.
Proof.
  induction l as [|[k' q] l IH]; simpl; [discriminate |].
  destruct (String.eqb k' k); [trivial | exact IH].
Qed.

(** [get_or_create] keeps the table well formed and declares the key. *)
Lemma get_or_create_wf (m : Model) (name : string) :
  NoDup (part_keys m) -> forallb part_ok (parts m) = true ->
  let m' := fst (get_or_create m name) in
  NoDup (part_keys m') /\ forallb part_ok (parts m') = true
  /\ instances m' = instances m
  /\ declared m' (_sanitize name) = true
  /\ (forall k, declared m k = true -> declared m' k = true).
Proof.
  intros Hnd Hok. unfold get_or_create, declared.
  destruct (assoc_get (_sanitize name) (parts m)) as [q|] eqn:E; cbn [fst].
  - rewrite E. repeat split; auto.
  - cbn [parts instances]. unfold part_keys. cbn [parts].
    rewrite map_app. repeat split.
    + apply NoDup_app. split; [exact Hnd |]. split; [| apply NoDup_singleton].
      intros x Hx Hx'. apply list_elem_of_singleton in Hx'. simpl in Hx'.
      subst x. now apply assoc_get_None_notin in E.
    + rewrite forallb_app, Hok. simpl. unfold part_ok, new_Part. simpl.
      destruct (sanitize_is_identifier name) as (Hid & _ & Hidem).
      now rewrite Hidem, String.eqb_refl, Hid.
    + now rewrite (assoc_get_app_new _ _ _ E).
    + intros k Hk. destruct (assoc_get k (parts m)) as [p|] eqn:Ek;
        [| discriminate].
      now rewrite (assoc_get_app_some _ _ _ _ Ek).
Qed.

Lemma append_node_wf (m : Model) (key : string) (n : Node) :
  is_leaf n = true ->
  NoDup (part_keys m) -> forallb part_ok (parts m) = true ->
  let m' := append_node m key n in
  NoDup (part_keys m') /\ forallb part_ok (parts m') = true
  /\ instances m' = instances m
  /\ (forall k, declared m k = true -> declared m' k = true).
Proof.
  intros Hn Hnd Hok. unfold append_node.
  destruct (assoc_get key (parts m)) as [p|] eqn:E; [| now repeat split].
  pose proof (assoc_get_forallb _ _ _ _ Hok E) as Hp.
  unfold part_ok in Hp. cbn [fst snd] in Hp.
  apply andb_prop in Hp as [Hp H3]. apply andb_prop in Hp as [H1 H2].
  unfold part_keys. cbn [parts instances].
  rewrite (assoc_set_keys _ _ _ _ E). repeat split; auto.
  - apply assoc_set_forallb; [exact Hok |]. unfold part_ok. cbn.
    apply andb_prop in H3 as [H3 H4]. unfold leaves_unless_boolean in *.
    cbn. rewrite H1, H2, !forallb_app, H3. simpl.
    assert (node_from_parse n = true) as -> by (now destruct n).
    rewrite Hn. simpl.
    destruct (part_is_boolean p); [reflexivity |]. simpl in H4.
    now rewrite H4.
  - intros k. apply declared_set.
Qed.

Lemma set_boolean_wf (m : Model) (key head a b : string) :
  NoDup (part_keys m) -> forallb part_ok (parts m) = true ->
  let m' := set_boolean m key
              (NBoolean (boolean_op head) (default_Use a) (default_Use b)) in
  NoDup (part_keys m') /\ forallb part_ok (parts m') = true
  /\ instances m' = instances m
  /\ (forall k, declared m k = true -> declared m' k = true).
Proof.
  intros Hnd Hok. unfold set_boolean.
  destruct (assoc_get key (parts m)) as [p|] eqn:E; [| now repeat split].
  pose proof (assoc_get_forallb _ _ _ _ Hok E) as Hp.
  unfold part_ok in Hp. cbn [fst snd] in Hp.
  apply andb_prop in Hp as [Hp H3]. apply andb_prop in Hp as [H1 H2].
  unfold part_keys. cbn [parts instances].
  rewrite (assoc_set_keys _ _ _ _ E). repeat split; auto.
  - apply assoc_set_forallb; [exact Hok |]. unfold part_ok. cbn.
    rewrite H1, H2. simpl.
    destruct (sanitize_is_identifier a) as (Ha & _).
    destruct (sanitize_is_identifier b) as (Hb & _).
    rewrite Ha, Hb, !andb_true_r.
    unfold boolean_op.
    destruct (String.eqb head "UNION"); [reflexivity |].
    destruct (String.eqb head "CUT"); reflexivity.
  - intros k. apply declared_set.
Qed.

Lemma step_wf (st st' : PState) : step st st' -> wf_state st -> wf_state st'.
Proof.
  intros Hs (Hnd & Hok & Hin & Hcur).
  destruct Hs as [|name|target label t r s|head a b c|h|key p Hc|key h p Hc Hp];
    unfold wf_state; cbn [st_model st_cur].
  - auto.
  - destruct (get_or_create_wf (st_model st) name Hnd Hok)
      as (H1 & H2 & H3 & H4 & _).
    rewrite H3. auto.
  - unfold append_instance, part_keys. cbn [parts instances].
    rewrite forallb_app, Hin. simpl. unfold new_Instance. cbn [inst_target].
    destruct (sanitize_is_identifier target) as (-> & _). auto.
  - destruct (get_or_create_wf (st_model st) c Hnd Hok)
      as (H1 & H2 & H3 & H4 & H5).
    destruct (set_boolean_wf (fst (get_or_create (st_model st) c))
                (_sanitize c) head a b H1 H2) as (G1 & G2 & G3 & G4).
    rewrite G3, H3. repeat split; auto.
    destruct (st_cur st) as [k|]; [| reflexivity]. simpl in *. auto.
  - auto.
  - destruct (append_node_wf (st_model st) key (NPrim p) eq_refl Hnd Hok)
      as (G1 & G2 & G3 & G4).
    rewrite G3. repeat split; auto. rewrite Hc in Hcur. simpl in *. auto.
  - destruct (append_node_wf (st_model st) key (NExtrude h p) eq_refl Hnd Hok)
      as (G1 & G2 & G3 & G4).
    rewrite G3. repeat split; auto. rewrite Hc in Hcur. simpl in *. auto.
Qed.

Lemma parse_lines_wf (lines : list string) :
  forall st st' : PState,
    wf_state st -> parse_lines st lines = Ok st' -> wf_state st'.
Proof.
  induction lines as [|line lines IH]; intros st st' Hwf; simpl.
  - now intros [= <-].
  - destruct (parse_line st line) as [st1| |] eqn:E; try discriminate.
    simpl. apply IH. exact (step_wf _ _ (parse_line_step _ _ _ E) Hwf).
Qed.

Lemma init_state_wf : wf_state (@init_state float).
Proof. repeat split. apply NoDup_nil_2. Qed.

End Invariant.

Section Growth.
Context {float : Type} {FO : FloatOps float}.
Local Abbreviation Model := (@Model float).
Local Abbreviation Part := (@Part float).
Local Abbreviation Node := (@Node float).
Local Abbreviation PState := (@PState float).

Lemma assoc_get_app_none (k : string) (l l' : list (string * Part)) :
  assoc_get k l = None -> assoc_get k (l ++ l') = assoc_get k l'.
Proof.
  induction l as [|[k' q] l IH]; simpl; [reflexivity |].
  destruct (String.eqb k' k); [discriminate | exact IH].
Qed.

(** [get_or_create] changes the nodes of no part: a part it creates is
    empty, as an absent part is. *)
Lemma get_or_create_nodes_at (m : Model) (name k : string) :
  nodes_at (fst (get_or_create m name)) k = nodes_at m k.
Proof.
  unfold get_or_create, nodes_at.
  destruct (assoc_get (_sanitize name) (parts m)) as [q|] eqn:E;
    [reflexivity |].
  cbn [fst parts].
  destruct (assoc_get k (parts m)) as [p|] eqn:Ek.
  - now rewrite (assoc_get_app_some _ _ _ _ Ek).
  - rewrite (assoc_get_app_none _ _ _ Ek). simpl.
    now destruct (String.eqb (_sanitize name) k).
Qed.

Lemma get_or_create_keys (m : Model) (name : string) :
  exists ks, part_keys (fst (get_or_create m name)) = (part_keys m ++ ks)%list
             /\ instances (fst (get_or_create m name)) = instances m.
Proof.
  unfold get_or_create.
  destruct (assoc_get (_sanitize name) (parts m)); cbn [fst].
  - exists []. now rewrite app_nil_r.
  - exists [_sanitize name]. unfold part_keys. cbn [parts instances].
    now rewrite map_app.
Qed.

Lemma append_node_keys (m : Model) (key : string) (n : Node) :
  part_keys (append_node m key n) = part_keys m
  /\ instances (append_node m key n) = instances m.
Proof.
  unfold append_node. destruct (assoc_get key (parts m)) eqn:E; [| easy].
  unfold part_keys. cbn [parts instances].
  now rewrite (assoc_set_keys _ _ _ _ E).
Qed.

Lemma set_boolean_keys (m : Model) (key : string) (n : Node) :
  part_keys (set_boolean m key n) = part_keys m
  /\ instances (set_boolean m key n) = instances m.
Proof.
  unfold set_boolean. destruct (assoc_get key (parts m)) eqn:E; [| easy].
  unfold part_keys. cbn [parts instances].
  now rewrite (assoc_set_keys _ _ _ _ E).
Qed.

Lemma step_extends (st st' : PState) :
  step st st' ->
  part_keys (st_model st) `prefix_of` part_keys (st_model st')
  /\ instances (st_model st) `prefix_of` instances (st_model st').
Proof.
  intros Hs.
  destruct Hs as [|name|target label t r s|head a b c|h|key p Hc|key h p Hc Hp];
    cbn [st_model]; try easy.
  - destruct (get_or_create_keys (st_model st) name) as (ks & -> & ->).
    split; [now exists ks | reflexivity].
  - split; [reflexivity |]. now eexists.
  - destruct (set_boolean_keys (fst (get_or_create (st_model st) c))
                (_sanitize c)
                (NBoolean (boolean_op head) (default_Use a) (default_Use b)))
      as [-> ->].
    destruct (get_or_create_keys (st_model st) c) as (ks & -> & ->).
    split; [now exists ks | reflexivity].
  - now destruct (append_node_keys (st_model st) key (NPrim p)) as [-> ->].
  - now destruct (append_node_keys (st_model st) key (NExtrude h p)) as [-> ->].
Qed.

Lemma parse_lines_extends (lines : list string) :
  forall st st' : PState,
    parse_lines st lines = Ok st' ->
    part_keys (st_model st) `prefix_of` part_keys (st_model st')
    /\ instances (st_model st) `prefix_of` instances (st_model st').
Proof.
  induction lines as [|line lines IH]; intros st st'; simpl.
  - now intros [= <-].
  - destruct (parse_line st line) as [st1| |] eqn:E; try discriminate.
    simpl. intros H. destruct (IH _ _ H) as [H1 H2].
    destruct (step_extends _ _ (parse_line_step _ _ _ E)) as [G1 G2].
    split; etransitivity; eassumption.
Qed.

End Growth.

(** X6.  The model [parse] returns is well formed: the keys of the symbol
    table are pairwise distinct; every part is stored under its own name,
    which is an identifier; every node is a primitive, an extrusion or a
    boolean of [union], [difference] or [intersection] over two
    identifiers ([parse] never builds a [Use] or [MultiUnion] node); a part
    not marked boolean holds primitives and extrusions only; and every
    instance targets an identifier. *)
Theorem parse_model_well_formed (float : Type) (FO : FloatOps float)
    (text : string) (m : @Model float) :
  parse text = Ok m ->
  NoDup (part_keys m)
  /\ forallb part_ok (parts m) = true
  /\ forallb (fun i => is_ident (inst_target i)) (instances m) = true.
Proof.
  unfold parse.
  destruct (parse_lines init_state (splitlines text)) as [st| |] eqn:E;
    try discriminate.
  simpl. intros [= <-].
  now destruct (parse_lines_wf _ _ _ init_state_wf E) as (H1 & H2 & H3 & _).
Qed.

Lemma parse_model_well_formed_witness :
  exists m : @Model DecFloat.dec,
    @parse _ DecFloat.ops "PART a b:
    CUBE width=10
cut a_b 9 as c!
USE c" = Ok m
    /\ part_keys m = ["a_b"; "c"]
    /\ NoDup (part_keys m)
    /\ forallb part_ok (parts m) = true
    /\ forallb (fun i => is_ident (inst_target i)) (instances m) = true.
Proof.
  eexists. split; [vm_compute; reflexivity |]. split; [reflexivity |].
  apply (parse_model_well_formed DecFloat.dec DecFloat.ops "PART a b:
    CUBE width=10
cut a_b 9 as c!
USE c").
  vm_compute. reflexivity.
Defined.

(** X7.  Parsing only adds to the model: the keys of the symbol table
    after any sequence of lines start with the keys before it, in the
    same order, and so do the instances.  No line removes or reorders a
    part or an instance. *)
Theorem parse_only_appends (float : Type) (FO : FloatOps float)
    (lines : list string) (st st' : @PState float) :
  parse_lines st lines = Ok st' ->
  part_keys (st_model st) `prefix_of` part_keys (st_model st')
  /\ instances (st_model st) `prefix_of` instances (st_model st').
Proof. apply parse_lines_extends. Qed.

Lemma parse_only_appends_witness :
  let st := V04.MkPState
              (V04.MkModel [("a", V04.MkPart "a" [] false)]
                 [V04.MkInstance "a" int_zero3 int_zero3 None "USE a"])
              None None in
  exists st' : @PState DecFloat.dec,
    @parse_lines _ DecFloat.ops st ["PART b:"; "PART a:"; "MOVE b"] = Ok st'
    /\ part_keys (st_model st') = ["a"; "b"]
    /\ part_keys (st_model st) `prefix_of` part_keys (st_model st')
    /\ instances (st_model st) `prefix_of` instances (st_model st').
Proof.
  eexists. split; [vm_compute; reflexivity |]. split; [reflexivity |].
  apply (parse_only_appends DecFloat.dec DecFloat.ops
           ["PART b:"; "PART a:"; "MOVE b"]).
  vm_compute. reflexivity.
Defined.

Section Lines.
Context {float : Type} {FO : FloatOps float}.
Local Abbreviation Model := (@Model float).
Local Abbreviation Part := (@Part float).
Local Abbreviation Node := (@Node float).
Local Abbreviation PState := (@PState float).

Lemma nodes_at_set_boolean (m : Model) (key k : string) (n : Node) :
  declared m key = true ->
  nodes_at (set_boolean m key n) k
  = if String.eqb key k then [n] else nodes_at m k.
Proof.
  unfold declared, set_boolean, nodes_at.
  destruct (assoc_get key (parts m)) as [p|] eqn:E; [intros _ | discriminate].
  cbn [parts]. destruct (String.eqb_spec key k) as [<- | Hne].
  - now rewrite assoc_get_set.
  - rewrite assoc_get_set_other by congruence. reflexivity.
Qed.

Lemma declared_get_or_create (m : Model) (name : string) :
  declared (fst (get_or_create m name)) (_sanitize name) = true.
Proof.
  unfold declared.
  destruct (get_or_create_nodes m name) as (p & -> & _). reflexivity.
Qed.

Lemma boolean_part_flag (m : Model) (key : string) (n : Node) :
  declared m key = true ->
  part_is_boolean <$> assoc_get key (parts (set_boolean m key n)) = Some true.
Proof.
  unfold declared, set_boolean.
  destruct (assoc_get key (parts m)) as [p|] eqn:E; [intros _ | discriminate].
  cbn [parts]. now rewrite assoc_get_set.
Qed.

End Lines.

(** X8.  A [UNION], [CUT] or [INTERSECT] line of the shape [A B AS C]
    replaces the body of part [C], created if need be, by the single
    boolean node over [A] and [B] and marks it boolean, whatever the body
    was.  The nodes of every other part, the instances, the pending
    extrude height and the current part are left as they were: the line
    does not close the open part. *)
Theorem boolean_line_replaces_body
    (float : Type) (FO : FloatOps float) (st : @PState float)
    (line tok tok' rest a b c : string) (args more : list string) :
  split (raw_of line) = tok :: args ->
  head_in (upper tok) ["UNION"; "CUT"; "INTERSECT"] = true ->
  split1 (raw_of line) = tok' :: rest :: more ->
  Re.match_boolean_decl rest = Some (a, b, c) ->
  exists st',
    parse_line st line = Ok st'
    /\ st_cur st' = st_cur st
    /\ st_pending_extrude st' = st_pending_extrude st
    /\ instances (st_model st') = instances (st_model st)
    /\ nodes_at (st_model st') (_sanitize c)
       = [NBoolean (boolean_op (upper tok)) (default_Use a) (default_Use b)]
    /\ part_is_boolean <$> assoc_get (_sanitize c) (parts (st_model st'))
       = Some true
    /\ (forall k, k <> _sanitize c ->
          nodes_at (st_model st') k = nodes_at (st_model st) k).
Proof.
  intros Hs Hh H1 Hm.
  assert (parse_line st line
          = Ok (MkPState
                  (set_boolean (fst (get_or_create (st_model st) c))
                     (_sanitize c)
                     (NBoolean (boolean_op (upper tok)) (default_Use a)
                               (default_Use b)))
                  (st_cur st) (st_pending_extrude st))) as ->.
  { unfold parse_line. fold (raw_of line).
    rewrite (line_not_skipped _ _ _ Hs (head_in_hash _ _ Hh eq_refl)), Hs.
    assert (head_in (upper tok) ["PART"; "GROUP"] = false
            /\ String.eqb (upper tok) "USE" = false
            /\ String.eqb (upper tok) "MOVE" = false
            /\ String.eqb (upper tok) "ROTATE" = false)
      as (-> & -> & -> & ->).
    { unfold head_in in *. cbn [existsb] in *.
      destruct (String.eqb_spec (upper tok) "UNION") as [-> | _];
        [now repeat split |].
      destruct (String.eqb_spec (upper tok) "CUT") as [-> | _];
        [now repeat split |].
      destruct (String.eqb_spec (upper tok) "INTERSECT") as [-> | _];
        [now repeat split | discriminate]. }
    rewrite Hh, H1, Hm.
    pose proof (get_or_create_key (st_model st) c) as Hk.
    destruct (get_or_create (st_model st) c) as [m key]. simpl in Hk.
    now subst key. }
  eexists. split; [reflexivity |]. cbn [st_cur st_pending_extrude st_model].
  pose proof (declared_get_or_create (st_model st) c) as Hd.
  destruct (set_boolean_keys (fst (get_or_create (st_model st) c))
              (_sanitize c)
              (NBoolean (boolean_op (upper tok)) (default_Use a)
                        (default_Use b))) as [_ ->].
  destruct (get_or_create_keys (st_model st) c) as (ks & _ & ->).
  repeat split.
  - rewrite nodes_at_set_boolean by assumption. now rewrite String.eqb_refl.
  - now apply boolean_part_flag.
  - intros k Hk. rewrite nodes_at_set_boolean by assumption.
    destruct (String.eqb_spec (_sanitize c) k); [congruence |].
    apply get_or_create_nodes_at.
Qed.

Lemma boolean_line_replaces_body_witness :
  let st := V04.MkPState
              (V04.MkModel
                 [("c", V04.MkPart "c"
                          [NPrim (MkPrim "CUBE" ∅); NPrim (MkPrim "ROD" ∅)]
                          false)] [])
              (Some "c") (Some (DecFloat.of_int 7)) in
  exists st' : @PState DecFloat.dec,
    @parse_line _ DecFloat.ops st "  cut  a b  as c" = Ok st'
    /\ st_cur st' = Some "c"
    /\ st_pending_extrude st' = Some (DecFloat.of_int 7)
    /\ nodes_at (st_model st') "c"
       = [NBoolean "difference" (default_Use "a") (default_Use "b")].
Proof.
  destruct (boolean_line_replaces_body DecFloat.dec DecFloat.ops
              (V04.MkPState
                 (V04.MkModel
                    [("c", V04.MkPart "c"
                             [NPrim (MkPrim "CUBE" ∅); NPrim (MkPrim "ROD" ∅)]
                             false)] [])
                 (Some "c") (Some (DecFloat.of_int 7)))
              "  cut  a b  as c" "cut" "cut" "a b  as c" "a" "b" "c"
              ["a"; "b"; "as"; "c"] []
              eq_refl eq_refl eq_refl eq_refl)
    as (st' & H1 & H2 & H3 & _ & H5 & _).
  exists st'. repeat split; assumption.
Defined.

(** X9.  A [PART] or [GROUP] line with a name opens the part of that name
    without touching any body: the nodes of every part, the one named
    included, are what they were (a part that did not exist starts empty),
    and the instances and the pending extrude height are unchanged.
    Declaring a part again does not discard what it holds. *)
Theorem part_line_keeps_bodies
    (float : Type) (FO : FloatOps float) (st : @PState float)
    (line tok tok' rest : string) (args more : list string) :
  split (raw_of line) = tok :: args ->
  head_in (upper tok) ["PART"; "GROUP"] = true ->
  split1 (raw_of line) = tok' :: rest :: more ->
  exists st',
    parse_line st line = Ok st'
    /\ st_cur st' = Some (_sanitize (rstrip_char ":" (strip rest)))
    /\ declared (st_model st') (_sanitize (rstrip_char ":" (strip rest)))
       = true
    /\ st_pending_extrude st' = st_pending_extrude st
    /\ instances (st_model st') = instances (st_model st)
    /\ (forall k, nodes_at (st_model st') k = nodes_at (st_model st) k).
Proof.
  intros Hs Hh H1. rewrite (parse_line_PART st _ _ _ _ _ _ Hs Hh H1).
  eexists. split; [reflexivity |]. cbn [st_cur st_pending_extrude st_model].
  destruct (get_or_create_keys (st_model st) (rstrip_char ":" (strip rest)))
    as (ks & _ & ->).
  repeat split.
  - apply declared_get_or_create.
  - intros k. apply get_or_create_nodes_at.
Qed.

Lemma part_line_keeps_bodies_witness :
  let st := V04.MkPState
              (V04.MkModel
                 [("a", V04.MkPart "a" [NPrim (MkPrim "CUBE" ∅)] false)] [])
              None None in
  exists st' : @PState DecFloat.dec,
    @parse_line _ DecFloat.ops st "group a :" = Ok st'
    /\ st_cur st' = Some "a"
    /\ nodes_at (st_model st') "a" = [NPrim (MkPrim "CUBE" ∅)].
Proof.
  destruct (part_line_keeps_bodies DecFloat.dec DecFloat.ops
              (V04.MkPState
                 (V04.MkModel
                    [("a", V04.MkPart "a" [NPrim (MkPrim "CUBE" ∅)] false)] [])
                 None None)
              "group a :" "group" "group" "a :" ["a"; ":"] []
              eq_refl eq_refl eq_refl)
    as (st' & H1 & H2 & _ & _ & _ & H6).
  exists st'. split; [exact H1 |]. split; [exact H2 |]. exact (H6 "a").
Defined.

End ParserProps.

(** ** Further properties: the emitter of v0.4 *)

Module EmitProps.
Import PyStr PyStrFacts V04 V04Facts V04Parse ParserProps EmitClaims.

Section Declared.
Context {float : Type} {FO : FloatOps float}.
Local Abbreviation Model := (@Model float).
Local Abbreviation Part := (@Part float).
Local Abbreviation Node := (@Node float).
Local Abbreviation Use := (@Use float).

(** The identifiers a node looks up when it is emitted inline. *)
Definition node_refs (n : Node) : list string :=
  match n with
  | NUse u => [use_name u]
  | NBoolean _ l r => [use_name l; use_name r]
  | NMultiUnion names => map _sanitize names
  | NPrim _ | NExtrude _ _ => []
  end.

Definition nodes_declared (m : Model) (nodes : list Node) : bool :=
  forallb (fun n => forallb (declared m) (node_refs n)) nodes.

(** Every identifier referenced by a node of a part is a key of the
    symbol table. *)
Definition refs_declared (m : Model) : bool :=
  forallb (fun kp : string * Part => nodes_declared m (part_nodes (snd kp)))
          (parts m).

(** A call has returned, leaving [visited] as it found it. *)
Definition returns {A : Type} (r : res (A * gset string)) (v : gset string)
  : Prop :=
  exists a, r = Ok (a, v).

Section Callback.
Variable m : Model.
Variable eu : Use -> bool -> gset string -> res emitted.
Variable v : gset string.
Hypothesis eu_returns :
  forall u i, declared m (use_name u) = true -> returns (eu u i v) v.

Lemma emit_names_returns (names : list string) :
  forallb (declared m) (map _sanitize names) = true ->
  returns (emit_names eu names v) v.
Proof.
  induction names as [|n names IH]; simpl; [now exists [] |].
  intros H. apply andb_prop in H as [Hn Hs].
  destruct (eu_returns (default_Use n) true Hn) as [a ->]. cbn [rbind snd].
  destruct (IH Hs) as [l ->]. simpl. now eexists.
Qed.

Lemma emit_node_returns (n : Node) (i : bool) :
  forallb (declared m) (node_refs n) = true ->
  returns (emit_node eu n i v) v.
Proof.
  destruct n as [p|u|h c|op l r|names]; simpl; intros H.
  - now eexists.
  - apply andb_prop in H as [H _]. now apply eu_returns.
  - now eexists.
  - apply andb_prop in H as [Hl H]. apply andb_prop in H as [Hr _].
    destruct (eu_returns l true Hl) as [a ->]. simpl.
    destruct (eu_returns r true Hr) as [b ->]. simpl. now eexists.
  - destruct (emit_names_returns names H) as [l ->]. simpl. now eexists.
Qed.

Lemma emit_nodes_with_returns (nodes : list Node) (i : bool) :
  nodes_declared m nodes = true ->
  returns (emit_nodes_with eu nodes i v) v.
Proof.
  unfold emit_nodes_with.
  assert (nodes_declared m nodes = true ->
          returns (emit_node_list eu nodes i v) v) as Hl.
  { induction nodes as [|n nodes IH]; simpl; [now exists [] |].
    intros H. apply andb_prop in H as [Hn Hs].
    destruct (emit_node_returns n i Hn) as [a ->]. cbn [rbind snd].
    destruct (IH Hs) as [l ->]. simpl. now eexists. }
  intros H. destruct (Hl H) as [l ->]. simpl. now eexists.
Qed.

End Callback.

Lemma emit_use_returns (m : Model) (fuel : nat) :
  refs_declared m = true ->
  forall (u : Use) (i : bool) (v : gset string),
    unvisited m v < fuel -> declared m (use_name u) = true ->
    use_name u ∉ v ->
    returns (_emit_use_scad fuel m u i v) v.
Proof.
  intros Hm. induction fuel as [|fuel IH]; intros u i v Hf Hd Hn; [lia |].
  simpl. destruct (decide (use_name u ∈ v)); [contradiction |].
  destruct i; simpl.
  2:{ eexists. do 2 f_equal. set_solver. }
  unfold declared in Hd.
  destruct (assoc_get (use_name u) (parts m)) as [p|] eqn:Hp; [| discriminate].
  pose proof (assoc_get_keys m _ _ Hp) as Hk.
  pose proof (unvisited_add m v _ Hk Hn) as Hlt.
  pose proof (assoc_get_forallb _ _ _ _ Hm Hp) as Hnodes. cbn [snd] in Hnodes.
  assert (forall u' i', declared m (use_name u') = true ->
            returns (_emit_use_scad fuel m u' i' (v ∪ {[use_name u]}))
                    (v ∪ {[use_name u]})) as Hcb.
  { intros u' i' Hd'.
    destruct (decide (use_name u' ∈ v ∪ {[use_name u]})) as [Hin | Hout].
    - destruct fuel as [|fuel']; [lia |]. simpl.
      destruct (decide (use_name u' ∈ v ∪ {[use_name u]}));
        [now eexists | contradiction].
    - apply IH; [lia | assumption | assumption]. }
  destruct (emit_nodes_with_returns m _ _ Hcb (part_nodes p) true Hnodes)
    as [a ->].
  simpl. eexists. do 2 f_equal. set_solver.
Qed.

Lemma module_scad_returns (m : Model) (p : Part) :
  refs_declared m = true -> nodes_declared m (part_nodes p) = true ->
  exists s, module_scad m p = Ok s.
Proof.
  intros Hm Hp. unfold module_scad, _emit_nodes.
  assert (forall u i, declared m (use_name u) = true ->
            returns (_emit_use_scad (enough_fuel m) m u i ∅) ∅) as Hcb.
  { intros u i Hd. apply emit_use_returns; auto using unvisited_enough.
    apply not_elem_of_empty. }
  destruct (emit_nodes_with_returns m _ _ Hcb (part_nodes p)
              (part_is_boolean p) Hp) as [a ->].
  simpl. now eexists.
Qed.

Lemma emit_modules_returns (m : Model) (names : list string) :
  refs_declared m = true ->
  forallb (declared m) names = true ->
  exists l, emit_modules m names = Ok l.
Proof.
  intros Hm. induction names as [|n names IH]; simpl; [now eexists |].
  intros H. apply andb_prop in H as [Hn Hs]. unfold declared in Hn.
  destruct (assoc_get n (parts m)) as [p|] eqn:Hp; [| discriminate].
  pose proof (assoc_get_forallb _ _ _ _ Hm Hp) as Hnodes. cbn [snd] in Hnodes.
  destruct (module_scad_returns m p Hm Hnodes) as [s ->]. cbn [rbind].
  destruct (IH Hs) as [l ->]. simpl. now eexists.
Qed.

Lemma keys_declared (m : Model) : forallb (declared m) (part_keys m) = true.
Proof.
  unfold part_keys, declared.
  assert (forall l l' : list (string * Part),
            forallb (fun k => match assoc_get k (l' ++ l) with
                              | Some _ => true | None => false end)
                    (map fst l) = true) as H.
  { induction l as [|[k p] l IH]; intros l'; [reflexivity |].
    cbn [map fst forallb]. apply andb_true_intro. split.
    - destruct (assoc_get k l') as [q|] eqn:E.
      + now rewrite (assoc_get_app_some _ _ _ _ E).
      + rewrite (assoc_get_app_none _ _ _ E). simpl.
        now rewrite String.eqb_refl.
    - specialize (IH (l' ++ [(k, p)])%list).
      now rewrite <- app_assoc in IH. }
  exact (H (parts m) []).
Qed.

End Declared.

(** X10.  When every identifier referenced by a node of a part is declared
    in the symbol table, no lookup [model.parts[u.name]] of the emitter
    fails: [to_scad] does not raise [KeyError], cycles among the parts
    included. *)
Theorem to_scad_no_key_error_when_refs_declared
    (float : Type) (FO : FloatOps float) (m : @Model float) :
  refs_declared m = true ->
  forall key : string, to_scad m <> Raise (KeyError key).
Proof.
  intros Hm key. unfold to_scad.
  destruct (emit_modules_returns m (part_keys m) Hm (keys_declared m))
    as [l ->].
  discriminate.
Qed.

Lemma to_scad_no_key_error_when_refs_declared_witness :
  exists m : @Model DecFloat.dec,
    @parse _ DecFloat.ops "UNION a b AS c
PART a:
    CUBE
UNION c a AS b" = Ok m
    /\ refs_declared m = true
    /\ forall key : string, @to_scad _ DecFloat.ops m <> Raise (KeyError key).
Proof.
  eexists. split; [vm_compute; reflexivity |]. split; [reflexivity |].
  apply to_scad_no_key_error_when_refs_declared. reflexivity.
Defined.

Section Needed.
Context {float : Type} {FO : FloatOps float}.
Local Abbreviation Model := (@Model float).
Local Abbreviation Part := (@Part float).
Local Abbreviation Node := (@Node float).
Local Abbreviation Use := (@Use float).

(** The identifiers a node of a part looks up when the part's module is
    emitted: a [Use] node only in a boolean part. *)
Definition inline_refs (inline : bool) (n : Node) : list string :=
  match n with
  | NUse u => if inline then [use_name u] else []
  | NBoolean _ l r => [use_name l; use_name r]
  | NMultiUnion names => map _sanitize names
  | NPrim _ | NExtrude _ _ => []
  end.

Lemma emit_use_inline_declared (m : Model) (fuel : nat) (u : Use)
    (x : emitted) :
  _emit_use_scad fuel m u true ∅ = Ok x -> declared m (use_name u) = true.
Proof.
  destruct fuel as [|fuel]; [discriminate |]. simpl.
  destruct (decide (use_name u ∈ (∅ : gset string))) as [Hin | _];
    [now apply not_elem_of_empty in Hin |].
  unfold declared. now destruct (assoc_get (use_name u) (parts m)).
Qed.

Section Callback.
Variable m : Model.
Variable fuel : nat.
Hypothesis enough : unvisited m ∅ < fuel.

Let eu := _emit_use_scad fuel m.

Lemma eu_ok_empty (u : Use) (i : bool) (x : emitted) :
  eu u i ∅ = Ok x -> snd x = ∅.
Proof.
  intros H. pose proof (emit_use_settles m fuel u i ∅ enough) as Hs.
  unfold eu in H. rewrite H in Hs. now destruct x.
Qed.

Lemma emit_names_needed (names : list string) (x : list string * gset string) :
  emit_names eu names ∅ = Ok x ->
  forallb (declared m) (map _sanitize names) = true.
Proof.
  revert x. induction names as [|n names IH]; intros x; [reflexivity |].
  simpl. destruct (eu (default_Use n) true ∅) as [a| |] eqn:E; try discriminate.
  cbn [rbind]. rewrite (eu_ok_empty _ _ _ E).
  destruct (emit_names eu names ∅) as [l| |] eqn:El; try discriminate.
  intros _. rewrite (IH l eq_refl), andb_true_r.
  exact (emit_use_inline_declared m fuel (default_Use n) a E).
Qed.

Lemma emit_node_needed (n : Node) (i : bool) (x : emitted) :
  emit_node eu n i ∅ = Ok x ->
  forallb (declared m) (inline_refs i n) = true /\ snd x = ∅.
Proof.
  destruct n as [p|u|h c|op l r|names]; simpl.
  - now intros [= <-].
  - intros H. split; [| exact (eu_ok_empty _ _ _ H)].
    destruct i; [| reflexivity]. simpl.
    now rewrite (emit_use_inline_declared m fuel u x H).
  - now intros [= <-].
  - destruct (eu l true ∅) as [a| |] eqn:El; try discriminate.
    cbn [rbind]. rewrite (eu_ok_empty _ _ _ El).
    destruct (eu r true ∅) as [b| |] eqn:Er; try discriminate.
    cbn [rbind]. intros [= <-]. cbn [snd].
    rewrite (emit_use_inline_declared m fuel l a El).
    rewrite (emit_use_inline_declared m fuel r b Er).
    split; [reflexivity | exact (eu_ok_empty _ _ _ Er)].
  - destruct (emit_names eu names ∅) as [l| |] eqn:E; try discriminate.
    cbn [rbind]. intros [= <-]. cbn [snd].
    split; [exact (emit_names_needed names l E) |].
    pose proof (emit_names_settles eu ∅
                  (fun u i => emit_use_settles m fuel u i ∅ enough) names) as Hs.
    rewrite E in Hs. now destruct l.
Qed.

Lemma emit_node_list_needed (nodes : list Node) (i : bool)
    (x : list string * gset string) :
  emit_node_list eu nodes i ∅ = Ok x ->
  forallb (fun n => forallb (declared m) (inline_refs i n)) nodes = true.
Proof.
  revert x. induction nodes as [|n nodes IH]; intros x; [reflexivity |].
  simpl. destruct (emit_node eu n i ∅) as [a| |] eqn:E; try discriminate.
  destruct (emit_node_needed n i a E) as [Hn Hv]. cbn [rbind]. rewrite Hv.
  destruct (emit_node_list eu nodes i ∅) as [l| |] eqn:El; try discriminate.
  intros _. now rewrite Hn, (IH l eq_refl).
Qed.

End Callback.

Lemma module_scad_needed (m : Model) (p : Part) (s : string) :
  module_scad m p = Ok s ->
  forallb (fun n => forallb (declared m) (inline_refs (part_is_boolean p) n))
          (part_nodes p) = true.
Proof.
  unfold module_scad, _emit_nodes, emit_nodes_with.
  destruct (emit_node_list _ _ _ _) as [l| |] eqn:E; try discriminate.
  intros _.
  exact (emit_node_list_needed m (enough_fuel m) (unvisited_enough m ∅)
           _ _ l E).
Qed.

Lemma emit_modules_needed (m : Model) (names : list string) (l : list string) :
  emit_modules m names = Ok l ->
  forall k p, In k names -> assoc_get k (parts m) = Some p ->
              exists s, module_scad m p = Ok s.
Proof.
  revert l. induction names as [|n names IH]; intros l; simpl; [easy |].
  destruct (assoc_get n (parts m)) as [q|] eqn:Hq; [| discriminate].
  destruct (module_scad m q) as [s| |] eqn:Hs; try discriminate. cbn [rbind].
  destruct (emit_modules m names) as [l'| |] eqn:El; try discriminate.
  intros _ k p [<- | Hin] Hp.
  - rewrite Hq in Hp. injection Hp as <-. eauto.
  - exact (IH l' eq_refl k p Hin Hp).
Qed.

Lemma assoc_get_In_keys (m : Model) (k : string) (p : Part) :
  assoc_get k (parts m) = Some p -> In k (part_keys m).
Proof.
  unfold part_keys. induction (parts m) as [|[k' q] l IH]; simpl;
    [discriminate |].
  destruct (String.eqb_spec k' k) as [-> | _]; [now left | right; auto].
Qed.

End Needed.

(** X11.  Conversely, when [to_scad] returns a scene, every identifier a
    module looks up is declared: for every part of the symbol table, both
    operands of each boolean node, every name of each multi-union node and,
    in a part marked boolean, the target of each [Use] node. *)
Theorem to_scad_needs_inline_refs_declared
    (float : Type) (FO : FloatOps float) (m : @Model float) (scene : string)
    (key : string) (p : @Part float) (n : @Node float) :
  to_scad m = Ok scene ->
  assoc_get key (parts m) = Some p ->
  In n (part_nodes p) ->
  forallb (declared m) (inline_refs (part_is_boolean p) n) = true.
Proof.
  intros Hs Hp Hn. unfold to_scad in Hs.
  destruct (emit_modules m (part_keys m)) as [l| |] eqn:El; try discriminate.
  destruct (emit_modules_needed m _ l El key p (assoc_get_In_keys m _ _ Hp) Hp)
    as [s Hmod].
  pose proof (module_scad_needed m p s Hmod) as Hall.
  rewrite forallb_forall in Hall. now apply Hall.
Qed.

Lemma to_scad_needs_inline_refs_declared_witness :
  declared (@cut_model) "a" = true /\ declared (@cut_model) "b" = true.
Proof.
  pose proof (to_scad_needs_inline_refs_declared DecFloat.dec DecFloat.ops
                cut_model _ "c" cut_part_c
                (NBoolean "difference" (default_Use "a") (default_Use "b"))
                ltac:(vm_compute; reflexivity) eq_refl (or_introl eq_refl))
    as H.
  cbn [inline_refs forallb] in H.
  apply andb_prop in H as [Ha H]. apply andb_prop in H as [Hb _].
  split; assumption.
Defined.

(** X12.  References to the same part that are siblings are each expanded:
    for a boolean node whose two operands are the same [Use], the second
    child is the text of the first, not a cycle marker.  ([visited] is
    restored when the first operand returns.) *)
Theorem sibling_references_expand_alike
    (float : Type) (FO : FloatOps float) (m : @Model float)
    (p : @Part float) (op : string) (u : @Use float) (a : string)
    (v : gset string) :
  part_nodes p = [NBoolean op u u] ->
  _emit_use_scad (enough_fuel m) m u true ∅ = Ok (a, v) ->
  module_scad m p
  = Ok ("module " ++ part_name p ++ "() {" ++ "
  " ++ (op ++ "() { " ++ a ++ " " ++ a ++ " }") ++ "
}
").
Proof.
  intros Hp Ha.
  pose proof (emit_use_settles m (enough_fuel m) u true ∅
                (unvisited_enough m ∅)) as Hs.
  rewrite Ha in Hs. simpl in Hs. subst v.
  unfold module_scad, _emit_nodes, emit_nodes_with. rewrite Hp.
  cbn [emit_node_list emit_node]. rewrite Ha. cbn [rbind fst snd].
  rewrite Ha. reflexivity.
Qed.

Lemma sibling_references_expand_alike_witness :
  @module_scad _ DecFloat.ops
    (MkModel [("a", MkPart "a" [NPrim (MkPrim "SPHERE" ∅)] false)] [])
    (MkPart "twice" [NBoolean "union" (default_Use "a") (default_Use "a")] true)
  = Ok "module twice() {
  union() { translate([0.0,0.0,0.0]) translate([0.0,0.0,0.0]) sphere(r=5); translate([0.0,0.0,0.0]) translate([0.0,0.0,0.0]) sphere(r=5); }
}
".
Proof.
  exact (sibling_references_expand_alike DecFloat.dec DecFloat.ops
           (MkModel [("a", MkPart "a" [NPrim (MkPrim "SPHERE" ∅)] false)] [])
           (MkPart "twice"
              [NBoolean "union" (default_Use "a") (default_Use "a")] true)
           "union" (default_Use "a")
           "translate([0.0,0.0,0.0]) translate([0.0,0.0,0.0]) sphere(r=5);"
           ∅ eq_refl eq_refl).
Defined.

Section Layout.
Context {float : Type} {FO : FloatOps float}.
Local Abbreviation Instance := (@Instance float).

(** The layout offset after [k] rounds of [x += 140.0]. *)
Fixpoint layout_offset (k : nat) (x : float) : float :=
  match k with
  | O => x
  | S k' => layout_offset k' (float_add x layout_step)
  end.

Lemma emit_instances_lookup (insts : list Instance) :
  forall (idx : Z) (x : float) (k : nat) (inst : Instance),
    insts !! k = Some inst ->
    emit_instances idx x insts !! (2 * k)%nat
    = Some ("  // Instance " ++ str_of_Z (idx + Z.of_nat k) ++ ": "
            ++ inst_label inst)
    /\ emit_instances idx x insts !! (2 * k + 1)%nat
       = Some ("  translate([" ++ float_repr (layout_offset k x) ++ ",0,0]) "
               ++ instance_call inst).
Proof.
  induction insts as [|i insts IH]; intros idx x k inst; [discriminate |].
  cbn [emit_instances]. unfold instance_pieces. destruct k as [|k].
  - intros [= <-]. rewrite Z.add_0_r. split; reflexivity.
  - intros H. simpl in H. destruct (IH (idx + 1)%Z (float_add x layout_step) k inst H)
      as [H1 H2].
    replace (2 * S k)%nat with (S (S (2 * k))) by lia.
    replace (S (S (2 * k)) + 1)%nat with (S (S (2 * k + 1))) by lia.
    replace (idx + Z.of_nat (S k))%Z with (idx + 1 + Z.of_nat k)%Z by lia.
    split; [exact H1 | exact H2].
Qed.

Lemma emit_instances_length (insts : list Instance) :
  forall (idx : Z) (x : float),
    length (emit_instances idx x insts) = (2 * length insts)%nat.
Proof.
  induction insts as [|i insts IH]; intros idx x; [reflexivity |].
  cbn [emit_instances]. unfold instance_pieces. simpl. rewrite IH. lia.
Qed.

End Layout.

(** X13.  The assembly lists the instances in declaration order, two lines
    each: for the instance at position [k] (from 0) a comment line numbered
    [k + 1] with its label, then its call under the translate of the
    layout offset reached after [k] additions of 140 to 0. *)
Theorem assembly_lists_instances_in_order
    (float : Type) (FO : FloatOps float) (insts : list (@Instance float))
    (k : nat) (inst : @Instance float) :
  insts !! k = Some inst ->
  emit_instances 1 float_zero insts !! (2 * k)%nat
  = Some ("  // Instance " ++ str_of_Z (Z.of_nat k + 1) ++ ": "
          ++ inst_label inst)
  /\ emit_instances 1 float_zero insts !! (2 * k + 1)%nat
     = Some ("  translate([" ++ float_repr (layout_offset k float_zero)
             ++ ",0,0]) " ++ instance_call inst)
  /\ length (emit_instances 1 float_zero insts) = (2 * length insts)%nat.
Proof.
  intros H. destruct (emit_instances_lookup insts 1 float_zero k inst H)
    as [H1 H2].
  rewrite Z.add_comm in H1. repeat split; auto using emit_instances_length.
Qed.

Lemma assembly_lists_instances_in_order_witness :
  let insts := [MkInstance "a" int_zero3 int_zero3 None "USE a";
                MkInstance "b" int_zero3 int_zero3 None "MOVE b";
                MkInstance "c" int_zero3 int_zero3 None "USE c"] in
  @emit_instances _ DecFloat.ops 1 (DecFloat.of_int 0) insts !! 4%nat
  = Some "  // Instance 3: USE c"
  /\ @emit_instances _ DecFloat.ops 1 (DecFloat.of_int 0) insts !! 5%nat
     = Some "  translate([280.0,0,0]) c();".
Proof.
  destruct (assembly_lists_instances_in_order DecFloat.dec DecFloat.ops
              [MkInstance "a" int_zero3 int_zero3 None "USE a";
               MkInstance "b" int_zero3 int_zero3 None "MOVE b";
               MkInstance "c" int_zero3 int_zero3 None "USE c"]
              2%nat (MkInstance "c" int_zero3 int_zero3 None "USE c")
              eq_refl) as (H1 & H2 & _).
  split; [exact H1 | exact H2].
Defined.

Section Leaves.
Context {float : Type} {FO : FloatOps float}.
Local Abbreviation Model := (@Model float).
Local Abbreviation Part := (@Part float).
Local Abbreviation Node := (@Node float).

(** Primitives and extrusions are emitted without any lookup. *)
Lemma emit_leaves (eu : @Use float -> bool -> gset string -> res emitted)
    (nodes : list Node) (i : bool) (v : gset string) :
  forallb is_leaf nodes = true ->
  exists l, emit_node_list eu nodes i v = Ok (l, v).
Proof.
  induction nodes as [|n nodes IH]; simpl; [now eexists |].
  intros H. apply andb_prop in H as [Hn Hs]. destruct (IH Hs) as [l Hl].
  destruct n as [p|u|h c|op a b|names]; try discriminate; simpl;
    rewrite Hl; simpl; now eexists.
Qed.

End Leaves.

(** X14.  In a model that [parse] returned, the module of a part that is
    not marked boolean is always emitted: such a part holds primitives and
    extrusions only, and emitting them looks nothing up.  Emission of a
    parsed model can fail only in a part created by [UNION], [CUT] or
    [INTERSECT]. *)
Theorem parsed_plain_part_always_emits
    (float : Type) (FO : FloatOps float) (text key : string)
    (m : @Model float) (p : @Part float) :
  parse text = Ok m ->
  assoc_get key (parts m) = Some p ->
  part_is_boolean p = false ->
  exists s, module_scad m p = Ok s.
Proof.
  intros Hparse Hp Hb.
  destruct (parse_model_well_formed float FO text m Hparse) as (_ & Hok & _).
  pose proof (assoc_get_forallb _ _ _ _ Hok Hp) as H.
  unfold part_ok, leaves_unless_boolean in H. cbn [fst snd] in H.
  rewrite Hb in H. simpl in H.
  apply andb_prop in H as [_ H]. apply andb_prop in H as [_ H].
  unfold module_scad, _emit_nodes, emit_nodes_with.
  destruct (emit_leaves (_emit_use_scad (enough_fuel m) m) (part_nodes p)
              (part_is_boolean p) ∅ H) as [l ->].
  simpl. now eexists.
Qed.

Lemma parsed_plain_part_always_emits_witness :
  exists s, @module_scad _ DecFloat.ops cut_model cut_part_a = Ok s.
Proof.
  apply (parsed_plain_part_always_emits DecFloat.dec DecFloat.ops
           "PART a:
    CUBE width=10 height=10 depth=10
PART b:
    SPHERE radius=5
CUT a b AS c
USE c" "a" cut_model cut_part_a).
  - vm_compute. reflexivity.
  - reflexivity.
  - reflexivity.
Defined.

End EmitProps.

(** ** Further properties: the parser of v0.3 *)

Module V03Props.
Import PyStr PyStrFacts V04Parse.

(** X15.  In v0.3 only a [PART] or [GROUP] line changes which part is
    open: every other line that is accepted, [USE], [MOVE], [ROTATE] and
    the boolean lines included, leaves the current part as it was, so the
    lines after it still go to that part. *)
Theorem v03_only_part_lines_change_current
    (float : Type) (FO : FloatOps float) (st st' : @V03.PState float)
    (line : string) :
  V03.parse_line st line = Ok st' ->
  (forall h, line_head line = Some h ->
             V03.head_in h ["PART"; "GROUP"] = false) ->
  V03.st_cur st' = V03.st_cur st.
Proof.
  unfold V03.parse_line, line_head. fold (raw_of line).
  destruct (is_empty (raw_of line) || startswith "#" (raw_of line));
    [now intros [= <-] |].
  destruct (split (raw_of line)) as [|tok args]; [discriminate |].
  intros H Hh. rewrite (Hh _ eq_refl) in H. revert H.
  destruct (String.eqb (upper tok) "USE").
  { destruct args; [discriminate |].
    destruct (V03.st_cur st); intros [= <-]; reflexivity. }
  destruct (String.eqb (upper tok) "MOVE").
  { destruct args; [discriminate | now intros [= <-]]. }
  destruct (String.eqb (upper tok) "ROTATE").
  { destruct args; [discriminate | now intros [= <-]]. }
  destruct (V03.head_in (upper tok) ["UNION"; "CUT"; "INTERSECT"]).
  { destruct (split1 (raw_of line)) as [|? [|rest ?]]; try discriminate.
    destruct (Re.match_boolean_decl rest) as [[[a b] c]|];
      [| now intros [= <-]].
    destruct (V03.get_or_create_part (V03.st_model st) (V03._sanitize c)).
    now intros [= <-]. }
  destruct (String.eqb (upper tok) "EXTRUDE"); [now intros [= <-] |].
  destruct (V03.st_cur st) eqn:Hc; [| now intros [= <-]].
  destruct (V03.st_pending_extrude st); now intros [= <-].
Qed.

Lemma v03_only_part_lines_change_current_witness :
  exists st' : @V03.PState DecFloat.dec,
    @V03.parse_line _ DecFloat.ops
      (V03.MkPState (V03.MkModel [("g", V03.MkPart "g" [])] []) (Some "g") None)
      "MOVE g by=(1,2,3)" = Ok st'
    /\ V03.st_cur st' = Some "g".
Proof.
  eexists. split; [vm_compute; reflexivity |].
  apply (v03_only_part_lines_change_current DecFloat.dec DecFloat.ops
           (V03.MkPState (V03.MkModel [("g", V03.MkPart "g" [])] [])
                         (Some "g") None) _ "MOVE g by=(1,2,3)").
  - vm_compute. reflexivity.
  - intros h [= <-]. reflexivity.
Defined.

End V03Props.
